(** * RibosomeProfiling: the SAM filters and their group rewriting

    A shallow embedding of the three stream filters of [Cpp_sources]:
    - [filter_reverse_reads.cpp]   (module [FilterReverseReads]),
    - [select_transcripts.cpp]     (module [SelectTranscripts]),
    - [filter_ambiguous_genes.cpp] (module [FilterAmbiguousGenes]).

    Every tool reads its input with [std::getline], one line at a time.  A file
    is therefore modelled by the list of its lines, an output file by the list
    of lines written to it (each one followed by a newline in the source), and
    [std::cerr] by the list of diagnostics printed.  The [while (getline)] loop
    of [main] is a step function on an explicit state; the inner
    [for (i = 1; i < count; i++)] loop, which reads the remaining lines of a
    group with [getline] as well, is the [InGroup] mode of that state. *)

From Stdlib Require Import ZArith List String Ascii Bool Lia.
From Stdlib Require Import Reals Lra.
Import ListNotations.

#[local] Open Scope string_scope.
#[local] Open Scope list_scope.
#[local] Open Scope Z_scope.

(** ** [std::string] *)

Definition TAB : ascii := "009"%char.

(** [size_t] is 64 bits wide; [SIZE_MAX] is also [std::string::npos] and the
    value of [(size_t)-1]. *)
Definition SIZE_MAX : Z := 2 ^ 64 - 1.

(** [s.find(c, pos)]; [None] stands for [npos]. *)
Fixpoint find_char (c : ascii) (s : string) (pos : nat) : option nat :=
  match s with
  | EmptyString => None
  | String a s' =>
      match pos with
      | O => if Ascii.eqb a c then Some O else option_map S (find_char c s' O)
      | S p => option_map S (find_char c s' p)
      end
  end.

(** [s.find(pat, pos)] is [String.index pos pat s] of the Standard Library. *)
Definition find_str (pat s : string) (pos : nat) : option nat :=
  String.index pos pat s.

(** [s.rfind(pat)]: the last position at which [pat] occurs. *)
Fixpoint rfind_str (pat s : string) : option nat :=
  match s with
  | EmptyString => if String.prefix pat EmptyString then Some O else None
  | String _ s' =>
      match rfind_str pat s' with
      | Some n => Some (S n)
      | None => if String.prefix pat s then Some O else None
      end
  end.

(** [s.substr(pos, len)] and [s.substr(pos)], for [pos <= s.size()]. *)
Definition substr (s : string) (pos len : nat) : string :=
  String.substring pos len s.

Definition substr_from (s : string) (pos : nat) : string :=
  String.substring pos (String.length s - pos) s.

(** [part.rfind(pat, 0) == 0]: the part starts with [pat]. *)
Definition starts_with (pat part : string) : bool := String.prefix pat part.

(** The pieces that [while (std::getline(parts, part, '\t'))] yields on a
    [std::stringstream] holding [s]: the tab-delimited pieces of [s], except
    that the read fails, and the loop ends, when nothing is left after the
    last delimiter. *)
Fixpoint getline_parts (s : string) : list string :=
  match s with
  | EmptyString => []
  | String c s' =>
      if Ascii.eqb c TAB then EmptyString :: getline_parts s'
      else match getline_parts s' with
           | [] => [String c EmptyString]
           | x :: xs => String c x :: xs
           end
  end.

(** The tab-delimited columns of a line: [n] tabs delimit [n + 1] columns.
    This is the reading of a SAM line that the claims use to speak of a
    line's fields. *)
Fixpoint columns (s : string) : list string :=
  match s with
  | EmptyString => [EmptyString]
  | String c s' =>
      if Ascii.eqb c TAB then EmptyString :: columns s'
      else match columns s' with
           | [] => [String c EmptyString]
           | x :: xs => String c x :: xs
           end
  end.

(** What [output << part] writes for the parts of one line, a tab before
    every part but the first. *)
Definition join_tabs (parts : list string) : string :=
  String.concat (String TAB EmptyString) parts.

(** ** [std::stoull] and [std::to_string] *)

(** [isspace] in the C locale. *)
Definition isspace (c : ascii) : bool :=
  let n := nat_of_ascii c in
  (Nat.eqb n 32 || (Nat.leb 9 n && Nat.leb n 13))%bool.

Fixpoint skip_spaces (s : string) : string :=
  match s with
  | String c s' => if isspace c then skip_spaces s' else s
  | EmptyString => s
  end.

Definition digit_value (c : ascii) : option Z :=
  let n := nat_of_ascii c in
  if (Nat.leb 48 n && Nat.leb n 57)%bool then Some (Z.of_nat (n - 48)) else None.

(** The longest run of decimal digits at the start of [s], accumulated from
    [acc]; [seen] tells whether a digit was read. *)
Fixpoint read_digits (s : string) (acc : Z) (seen : bool) : option Z :=
  match s with
  | EmptyString => if seen then Some acc else None
  | String c s' =>
      match digit_value c with
      | Some d => read_digits s' (10 * acc + d) true
      | None => if seen then Some acc else None
      end
  end.

(** [std::stoull(s)] in base 10, as [strtoull] computes it: leading white
    space is skipped, a sign is accepted, a negative number is negated in
    [unsigned long long].  [None] stands for the exception thrown when no
    digit is found ([std::invalid_argument]) or when the digits exceed 64
    bits ([std::out_of_range]). *)
Definition stoull (s : string) : option Z :=
  let s1 := skip_spaces s in
  let '(neg, s2) :=
    match s1 with
    | String "-"%char r => (true, r)
    | String "+"%char r => (false, r)
    | _ => (false, s1)
    end in
  match read_digits s2 0 false with
  | None => None
  | Some v =>
      if SIZE_MAX <? v then None
      else Some (if neg then (2 ^ 64 - v) mod 2 ^ 64 else v)
  end.

Definition digit_char (d : Z) : ascii := ascii_of_nat (48 + Z.to_nat d).

(** The decimal digits of [n], written in front of [acc]. *)
Fixpoint digits_into (fuel : nat) (n : Z) (acc : string) : string :=
  let acc' := String (digit_char (n mod 10)) acc in
  match fuel with
  | O => acc'
  | S f => if n <? 10 then acc' else digits_into f (n / 10) acc'
  end.

(** [std::to_string] of an unsigned value. *)
Definition to_string (n : Z) : string :=
  digits_into (Z.to_nat (Z.log2 n)) n EmptyString.

(** ** Diagnostics, states and results *)

(** The messages of [std::cerr], one constructor for each message text, with
    the values the message prints. *)
Inductive diag : Type :=
| EmptyLine (file : string)          (* Unexpected empty line in file '..' *)
| NotEnoughColumns (line : string)   (* Unexpected file format: not enough columns '..' *)
| MissingNH (line : string)          (* Unexpected file format: missing NH:i: tag '..' *)
| UnexpectedEOF (file : string)      (* Unexpected end of file file '..' *)
| NotImplemented (line : string)     (* Not implemented yet '..' *)
| UnknownGene (transcript_id annotations line : string)
                                     (* Unknown gene_id: a transcript_id '..' did not occure ... *)
| MissingSN (line : string)          (* Unexpected line format: missing SN field within '@SQ' line *)
| IncompleteTranscriptId (line : string)
| MissingGeneId (line : string)
| IncompleteGeneId (line : string).

(** How a run stops before the end of its input: [return code] in [main], or
    an exception of [std::stoull] that nothing catches ([std::terminate]). *)
Inductive halt : Type :=
| Returned (code : Z)
| Uncaught.

(** Where the reading loop stands: between two units of the input ([Top]),
    in the [for] loop that collects a group, about to read the line of index
    [i] out of [count] ([InGroup]), or stopped ([Halted]). *)
Inductive mode (G : Type) : Type :=
| Top
| InGroup (i count : Z) (g : G)
| Halted (h : halt).
Arguments Top {G}.
Arguments InGroup {G} i count g.
Arguments Halted {G} h.

Record state (G : Type) : Type := mkState {
  out : list string;      (* the lines written to [output] *)
  err : list diag;        (* the messages written to [std::cerr] *)
  mode_of : mode G
}.
Arguments mkState {G} out err mode_of.
Arguments out {G} s.
Arguments err {G} s.
Arguments mode_of {G} s.

Definition emit {G} (st : state G) (lines : list string) : state G :=
  mkState (out st ++ lines) (err st) (mode_of st).

Definition warn {G} (st : state G) (ds : list diag) : state G :=
  mkState (out st) (err st ++ ds) (mode_of st).

Definition set_mode {G} (st : state G) (m : mode G) : state G :=
  mkState (out st) (err st) m.

Definition initial {G} : state G := mkState [] [] Top.

(** The result of one input/output pair: [None] when the input was read to
    its end and [main] goes on with the next pair. *)
Definition stopped {G} (st : state G) : option halt :=
  match mode_of st with
  | Halted h => Some h
  | _ => None
  end.

(** ** The field readers *)

(** [check_flag] of filter_reverse_reads.cpp: the messages it prints and the
    value it returns, [None] when [std::stoull] throws. *)
Definition check_flag (line : string) (flag : Z) : list diag * option bool :=
  match find_char TAB line 0 with
  | None => ([NotEnoughColumns line], Some false)
  | Some from =>
      let from := S from in
      match find_char TAB line from with
      | None => ([NotEnoughColumns line], Some false)
      | Some to =>
          ([], option_map (fun v => Z.land v flag =? 0)
                 (stoull (substr line from (to - from))))
      end
  end.

(** The declared multiplicity of a line, as every tool reads it:
    [line.rfind("\tNH:i:")], then [std::stoull] of the text up to the next
    tab or the end of the line. *)
Inductive nh_tag : Type :=
| NoTag                  (* rfind returned npos *)
| BadCount               (* std::stoull threw *)
| Declared (count : Z).

Definition read_count (line : string) : nh_tag :=
  match rfind_str (String TAB "NH:i:") line with
  | None => NoTag
  | Some p =>
      let count := (p + 6)%nat in
      let text :=
        match find_char TAB line count with
        | None => substr_from line count
        | Some count_end => substr line count (count_end - count)
        end in
      match stoull text with
      | None => BadCount
      | Some n => Declared n
      end
  end.

Definition is_empty (line : string) : bool :=
  match line with EmptyString => true | _ => false end.

(** [line[0] == '@'] *)
Definition is_header (line : string) : bool :=
  match line with String c _ => Ascii.eqb c "@"%char | _ => false end.

(** ** The group rewriter

    The block that updates the lines of a reduced group stands twice in the
    sources with the same text: filter_reverse_reads.cpp l.117-168 and
    select_transcripts.cpp l.146-197. *)

(** [(size_t)(-10 * std::log10(1 - 1.0 / k))] for [k >= 2].  The value
    -10 log10(1 - 1/k) lies in (0, 3.02); an integer [m] is below it exactly
    when 10^m (k-1)^10 <= k^10, which is how the truncation is computed here.
    [mapq_truncates] proves that this is the integer part of the real number;
    the rounding of the [double] operations is not modelled. *)
Definition neg10_log10_trunc (k : Z) : Z :=
  if 1000 * (k - 1) ^ 10 <=? k ^ 10 then 3
  else if 100 * (k - 1) ^ 10 <=? k ^ 10 then 2
  else if 10 * (k - 1) ^ 10 <=? k ^ 10 then 1
  else 0.

(** [(size_t)(size <= 1 ? 255 : (-10 * std::log10(1 - 1.0 / size)))] *)
Definition mapq_score (size : Z) : Z :=
  if size <=? 1 then 255 else neg10_log10_trunc size.

(** [for (j = 0; j < n; j++) index = s.find('\t', index + 1)], [None] when a
    [find] returns [npos]. *)
Fixpoint skip_tabs (s : string) (index : nat) (n : nat) : option nat :=
  match n with
  | O => Some index
  | S n' =>
      match find_char TAB s (S index) with
      | None => None
      | Some index' => skip_tabs s index' n'
      end
  end.

(** The CIGAR of one line of the group (with the tab before it), or the code
    that [main] returns. *)
Definition cigar_of (s : string) : Z + string :=
  match skip_tabs s 0 5 with
  | None => inl 12
  | Some index =>
      match find_char TAB s (S index) with
      | None => inl 11
      | Some index2 => inr (substr s index (index2 - index))
      end
  end.

Fixpoint cigars_of (group : list string) : Z + list string :=
  match group with
  | [] => inr []
  | s :: rest =>
      match cigar_of s with
      | inl code => inl code
      | inr c =>
          match cigars_of rest with
          | inl code => inl code
          | inr cs => inr (c :: cs)
          end
      end
  end.

(** One message for every CIGAR that differs from the first one. *)
Definition cigar_warnings (line : string) (cigars : list string) : list diag :=
  match cigars with
  | [] => []
  | c0 :: rest =>
      map (fun _ => NotImplemented line)
          (filter (fun c => negb (String.eqb c c0)) rest)
  end.

(** The body of the [while (std::getline(parts, part, '\t'))] loop for the
    part number [j] (that is, after [++j]) of the line of index [i]. *)
Definition rewrite_part (size : Z) (mapq : string) (primary i j : Z)
    (part : string) : option string :=
  if ((j =? 2) && (primary =? i))%bool then
    option_map (fun v => to_string (Z.lxor v 256)) (stoull part)
  else if j =? 5 then Some mapq
  else if starts_with "NH:i:" part then Some ("NH:i:" ++ to_string size)%string
  else if starts_with "HI:i:" part then Some ("HI:i:" ++ to_string (i + 1))%string
  else Some part.

(** The parts written for one line; [j] parts were read before. *)
Fixpoint rewrite_parts (size : Z) (mapq : string) (primary i j : Z)
    (parts : list string) : option (list string) :=
  match parts with
  | [] => Some []
  | part :: rest =>
      match rewrite_part size mapq primary i (j + 1) part with
      | None => None
      | Some p =>
          option_map (cons p) (rewrite_parts size mapq primary i (j + 1) rest)
      end
  end.

Definition rewrite_line (size : Z) (mapq : string) (primary i : Z)
    (s : string) : option string :=
  option_map join_tabs (rewrite_parts size mapq primary i 0 (getline_parts s)).

(** [for (i = ...; i < group.size(); i++)] over the lines left: the lines
    written, and whether the loop ran to its end.  When [std::stoull] throws
    the lines written before stay; the parts of the line being written are
    not recorded. *)
Fixpoint rewrite_lines (size : Z) (mapq : string) (primary i : Z)
    (rest : list string) : list string * bool :=
  match rest with
  | [] => ([], true)
  | s :: rest' =>
      match rewrite_line size mapq primary i s with
      | None => ([], false)
      | Some l =>
          let '(ls, ok) := rewrite_lines size mapq primary (i + 1) rest' in
          (l :: ls, ok)
      end
  end.

(** The whole block: the choice of a new primary alignment when [primary] is
    [(size_t)-1], then the rewriting.  [line] is the line read last, which
    the messages print. *)
Definition rewrite_group (line : string) (group : list string) (primary : Z)
    : list diag * list string * option halt :=
  let size := Z.of_nat (List.length group) in
  let chosen : list diag * (Z + Z) :=
    if primary =? SIZE_MAX then
      match cigars_of group with
      | inl code => ([NotEnoughColumns line], inl code)
      | inr cigars => (cigar_warnings line cigars, inr 0)
      end
    else ([], inr SIZE_MAX) in
  match chosen with
  | (ds, inl code) => (ds, [], Some (Returned code))
  | (ds, inr primary') =>
      let mapq := to_string (mapq_score size) in
      let '(ls, ok) := rewrite_lines size mapq primary' 0 group in
      (ds, ls, if ok then None else Some Uncaught)
  end.

(** The state after the block. *)
Definition after_rewrite {G} (st : state G) (line : string)
    (group : list string) (primary : Z) : state G :=
  let '(ds, ls, h) := rewrite_group line group primary in
  let st' := emit (warn st ds) ls in
  match h with
  | Some h => set_mode st' (Halted h)
  | None => set_mode st' Top
  end.

(** The end of the input: inside a group it is the error of code 17. *)
Definition at_eof {G} (file : string) (st : state G) : state G :=
  match mode_of st with
  | InGroup _ _ _ => set_mode (warn st [UnexpectedEOF file]) (Halted (Returned 17))
  | _ => st
  end.

(** ** The files of a run

    [main] opens its files by name.  The files are a function from names to
    lines; a file that cannot be opened reads as no line at all.  Opening the
    [std::ofstream] empties the output file before the first [getline]. *)
Definition files : Type := string -> list string.

Definition write (fs : files) (name : string) (lines : list string) : files :=
  fun n => if String.eqb n name then lines else fs n.

Record run : Type := mkRun {
  run_files : files;          (* the files when [main] stops *)
  run_usage : bool;           (* whether the usage text was printed *)
  run_err : list diag;
  run_exit : halt
}.

Definition NEWLINE : ascii := "010"%char.

(** The characters that [output << line << '\n'] has put into the stream
    for the lines written. *)
Fixpoint text_of (lines : list string) : string :=
  match lines with
  | [] => EmptyString
  | l :: rest => String.append l (String NEWLINE (text_of rest))
  end.

(** The lines that [std::getline] reads from a text; a last line that has
    lost its end is read as well, when it is not empty. *)
Fixpoint lines_of (text : string) : list string :=
  match text with
  | EmptyString => []
  | String c text' =>
      if Ascii.eqb c NEWLINE then EmptyString :: lines_of text'
      else match lines_of text' with
           | [] => [String c EmptyString]
           | l :: ls => String c l :: ls
           end
  end.

(** The output file when the work on a pair of files ends.  A [return]
    from [main] and the end of the loop body close the [std::ofstream], and
    the file holds every line written.  An exception that nothing catches
    ends the program in [std::terminate], which does not flush the stream:
    the file holds the characters that the stream had handed over before,
    the first [flushed] ones; how many they are depends on the buffer of
    the stream. *)
Definition left_in_file {G} (flushed : nat) (st : state G) : list string :=
  match stopped st with
  | Some Uncaught => lines_of (String.substring 0 flushed (text_of (out st)))
  | _ => out st
  end.

(** [for (argi = ...; argi < argc; argi += 2)] for a tool whose work on one
    pair is [filter input lines]: the loop over the [args] left. *)
Fixpoint for_each_pair {G} (flushed : nat)
    (filter : string -> list string -> state G)
    (args : list string) (fs : files) (msgs : list diag) : run :=
  match args with
  | input :: output :: rest =>
      let fs1 := write fs output [] in
      let st := filter input (fs1 input) in
      let fs2 := write fs1 output (left_in_file flushed st) in
      match stopped st with
      | Some h => mkRun fs2 false (msgs ++ err st) h
      | None => for_each_pair flushed filter rest fs2 (msgs ++ err st)
      end
  | _ => mkRun fs false msgs (Returned 0)
  end.

(** [argc % 2] *)
Definition argc (argv : list string) : Z := Z.of_nat (List.length argv).

(** ** filter_reverse_reads.cpp *)
Module FilterReverseReads.

Definition forward_flag (line : string) : list diag * option bool :=
  check_flag line 16.

Definition primary_flag (line : string) : list diag * option bool :=
  check_flag line 256.

(** The locals of the group branch: the vector [group], the index [primary]
    of a kept line marked as primary ([(size_t)-1] when there is none) and
    the flag [modification]. *)
Record group_state : Type := mkGroup {
  group : list string;
  primary : Z;
  modification : bool
}.

Definition empty_group : group_state := mkGroup [] SIZE_MAX false.

(** [if (forward_flag(line)) { if (primary_flag(line)) primary = group.size();
    group.push_back(line); } else modification = true;] *)
Definition collect (line : string) (g : group_state)
    : list diag * option group_state :=
  match forward_flag line with
  | (ds, None) => (ds, None)
  | (ds, Some true) =>
      match primary_flag line with
      | (ds', None) => (ds ++ ds', None)
      | (ds', Some p) =>
          (ds ++ ds',
           Some (mkGroup (group g ++ [line])
                   (if p then Z.of_nat (List.length (group g)) else primary g)
                   (modification g)))
      end
  | (ds, Some false) => (ds, Some (mkGroup (group g) (primary g) true))
  end.

(** After the [for] loop: [if (modification) ... else ...]. *)
Definition finish_group (st : state group_state) (line : string)
    (g : group_state) : state group_state :=
  if modification g then after_rewrite st line (group g) (primary g)
  else set_mode (emit st (group g)) Top.

(** One line of the group is collected, then the loop test [i < count]
    decides between the next [getline] and the end of the loop. *)
Definition collect_and_test (st : state group_state) (line : string)
    (i count : Z) (g : group_state) : state group_state :=
  match collect line g with
  | (ds, None) => set_mode (warn st ds) (Halted Uncaught)
  | (ds, Some g') =>
      if i <? count then set_mode (warn st ds) (InGroup i count g')
      else finish_group (warn st ds) line g'
  end.

(** The body of [while (std::getline(input, line))], and the body of the
    [for] loop when the line is read there. *)
Definition step (file : string) (st : state group_state) (line : string)
    : state group_state :=
  match mode_of st with
  | Halted _ => st
  | InGroup i count g => collect_and_test st line (i + 1) count g
  | Top =>
      if is_empty line then warn st [EmptyLine file]
      else if is_header line then emit st [line]
      else
        match read_count line with
        | NoTag => warn st [MissingNH line]
        | BadCount => set_mode st (Halted Uncaught)
        | Declared count =>
            if count =? 1 then
              match forward_flag line with
              | (ds, None) => set_mode (warn st ds) (Halted Uncaught)
              | (ds, Some true) => emit (warn st ds) [line]
              | (ds, Some false) => warn st ds
              end
            else collect_and_test st line 1 count empty_group
        end
  end.

Definition process (file : string) (st : state group_state)
    (lines : list string) : state group_state :=
  fold_left (step file) lines st.

Definition filter_file (file : string) (lines : list string)
    : state group_state :=
  at_eof file (process file initial lines).

(** [main]; [flushed] is what the output stream has handed over to its file
    if the program is terminated by an exception, see [left_in_file]. *)
Definition main (flushed : nat) (fs : files) (argv : list string) : run :=
  if ((argc argv =? 1) || negb (argc argv mod 2 =? 1))%bool then
    mkRun fs true [] (Returned 0)
  else for_each_pair flushed filter_file (skipn 1 argv) fs [].

End FilterReverseReads.

(** ** select_transcripts.cpp *)
Module SelectTranscripts.

(** The third column, or the empty string with a message. *)
Definition extract_transcript_id (line : string) : list diag * string :=
  match find_char TAB line 0 with
  | None => ([NotEnoughColumns line], EmptyString)
  | Some from =>
      match find_char TAB line (S from) with
      | None => ([NotEnoughColumns line], EmptyString)
      | Some to =>
          let from := S to in
          match find_char TAB line from with
          | None => ([NotEnoughColumns line], EmptyString)
          | Some to => ([], substr line from (to - from))
          end
      end
  end.

Definition primary_flag (line : string) : list diag * option bool :=
  match find_char TAB line 0 with
  | None => ([NotEnoughColumns line], Some false)
  | Some from =>
      let from := S from in
      match find_char TAB line from with
      | None => ([NotEnoughColumns line], Some false)
      | Some to =>
          ([], option_map (fun v => Z.land v 256 =? 0)
                 (stoull (substr line from (to - from))))
      end
  end.

(** [transcript_ids.find(id) != transcript_ids.end()] on the [std::set]. *)
Definition listed (transcript_ids : list string) (id : string) : bool :=
  existsb (String.eqb id) transcript_ids.

Record group_state : Type := mkGroup {
  group : list string;
  primary : Z
}.

Definition empty_group : group_state := mkGroup [] SIZE_MAX.

Section Filter.
Variable transcript_ids : list string.

(** [if (transcript_ids.find(extract_transcript_id(line)) != end) {
    if (primary_flag(line)) primary = group.size(); group.push_back(line); }] *)
Definition collect (line : string) (g : group_state)
    : list diag * option group_state :=
  let '(ds, id) := extract_transcript_id line in
  if listed transcript_ids id then
    match primary_flag line with
    | (ds', None) => (ds ++ ds', None)
    | (ds', Some p) =>
        (ds ++ ds',
         Some (mkGroup (group g ++ [line])
                 (if p then Z.of_nat (List.length (group g)) else primary g)))
    end
  else (ds, Some g).

(** After the [for] loop: [if (group.size() == count) ... else ...]. *)
Definition finish_group (st : state group_state) (line : string)
    (count : Z) (g : group_state) : state group_state :=
  if Z.of_nat (List.length (group g)) =? count
  then set_mode (emit st (group g)) Top
  else after_rewrite st line (group g) (primary g).

Definition collect_and_test (st : state group_state) (line : string)
    (i count : Z) (g : group_state) : state group_state :=
  match collect line g with
  | (ds, None) => set_mode (warn st ds) (Halted Uncaught)
  | (ds, Some g') =>
      if i <? count then set_mode (warn st ds) (InGroup i count g')
      else finish_group (warn st ds) line count g'
  end.

(** The value of the [SN] field of an [@SQ] line, [None] without the field. *)
Definition sequence_name (line : string) : option string :=
  match find_str (String TAB "SN:") line 0 with
  | None => None
  | Some from =>
      let from := (from + 4)%nat in
      match find_char TAB line from with
      | None => Some (substr_from line from)
      | Some to => Some (substr line from (to - from))
      end
  end.

Definition step (file : string) (st : state group_state) (line : string)
    : state group_state :=
  match mode_of st with
  | Halted _ => st
  | InGroup i count g => collect_and_test st line (i + 1) count g
  | Top =>
      if is_empty line then warn st [EmptyLine file]
      else if is_header line then
        if starts_with (String.append "@SQ" (String TAB EmptyString)) line then
          match sequence_name line with
          | None => warn st [MissingSN line]
          | Some name =>
              if listed transcript_ids name then emit st [line] else st
          end
        else emit st [line]
      else
        match read_count line with
        | NoTag => warn st [MissingNH line]
        | BadCount => set_mode st (Halted Uncaught)
        | Declared count =>
            if count =? 1 then
              let '(ds, id) := extract_transcript_id line in
              if listed transcript_ids id then emit (warn st ds) [line]
              else warn st ds
            else collect_and_test st line 1 count empty_group
        end
  end.

Definition process (file : string) (st : state group_state)
    (lines : list string) : state group_state :=
  fold_left (step file) lines st.

Definition filter_file (file : string) (lines : list string)
    : state group_state :=
  at_eof file (process file initial lines).

End Filter.

(** The allow-list is the set of the lines of [argv[1]]. *)
Definition main (flushed : nat) (fs : files) (argv : list string) : run :=
  if ((argc argv <? 4) || negb (argc argv mod 2 =? 0))%bool then
    mkRun fs true [] (Returned 0)
  else
    let transcript_ids := fs (nth 1 argv EmptyString) in
    for_each_pair flushed (filter_file transcript_ids) (skipn 2 argv) fs [].

End SelectTranscripts.

(** ** filter_ambiguous_genes.cpp *)
Module FilterAmbiguousGenes.

(** RNAME, the third column, or the empty string with a message. *)
Definition extract_transcript_id (line : string) : list diag * string :=
  match find_char TAB line 0 with
  | None => ([NotEnoughColumns line], EmptyString)
  | Some transcript_from =>
      match find_char TAB line (S transcript_from) with
      | None => ([NotEnoughColumns line], EmptyString)
      | Some transcript_from =>
          let transcript_from := S transcript_from in
          match find_char TAB line transcript_from with
          | None => ([NotEnoughColumns line], EmptyString)
          | Some transcript_to =>
              ([], substr line transcript_from (transcript_to - transcript_from))
          end
      end
  end.

(** [std::map<std::string, std::string>]: the bindings, the newest first.
    [m[k] = v] is [map_set], [m.find(k)] is [map_find]. *)
Definition gene_map : Type := list (string * string).

Definition map_set (k v : string) (m : gene_map) : gene_map := (k, v) :: m.

Fixpoint map_find (k : string) (m : gene_map) : option string :=
  match m with
  | [] => None
  | (k', v) :: m' => if String.eqb k k' then Some v else map_find k m'
  end.

Definition QUOTE : ascii := "034"%char.

(** The three texts that [line.find] looks for in a line of the annotations:
    the key of the transcript_id attribute with its opening quote (16
    characters), a closing quote with its semicolon, and the key of the
    gene_id attribute after a tab with its opening quote (10 characters). *)
Definition transcript_key : string :=
  String.append " transcript_id " (String QUOTE EmptyString).
Definition closing : string := String QUOTE ";".
Definition gene_key : string :=
  String TAB (String.append "gene_id " (String QUOTE EmptyString)).

(** What one line of the annotations adds to the map; [inl] is the message
    of an error, after which [main] returns 2. *)
Definition annotate (line : string) (m : gene_map) : diag + gene_map :=
  if (negb (is_empty line)
      && negb (match line with String c _ => Ascii.eqb c "#"%char | _ => false end))%bool
  then
    match find_str transcript_key line 0 with
    | None => inr m
    | Some transcript_from =>
        let transcript_from := (transcript_from + 16)%nat in
        match find_str closing line transcript_from with
        | None => inl (IncompleteTranscriptId line)
        | Some transcript_to =>
            match find_str gene_key line 0 with
            | None => inl (MissingGeneId line)
            | Some gene_from =>
                let gene_from := (gene_from + 10)%nat in
                match find_str closing line gene_from with
                | None => inl (IncompleteGeneId line)
                | Some gene_to =>
                    inr (map_set
                           (substr line transcript_from (transcript_to - transcript_from))
                           (substr line gene_from (gene_to - gene_from)) m)
                end
            end
        end
    end
  else inr m.

Fixpoint load_annotations (lines : list string) (m : gene_map)
    : diag + gene_map :=
  match lines with
  | [] => inr m
  | line :: rest =>
      match annotate line m with
      | inl d => inl d
      | inr m' => load_annotations rest m'
      end
  end.

(** The locals of the group branch: the vector [group] and the gene of the
    first line, [transcript_gene_it->second]. *)
Record group_state : Type := mkGroup {
  group : list string;
  first_gene : string
}.

Section Filter.
Variable transcript_gene : gene_map.
Variable annotations : string.   (* argv[1], printed by a message *)

(** After the [for] loop: [if (group.size() == count)]. *)
Definition finish_group (st : state group_state) (count : Z)
    (g : group_state) : state group_state :=
  if Z.of_nat (List.length (group g)) =? count
  then set_mode (emit st (group g)) Top
  else set_mode st Top.

(** The loop test [i < count]. *)
Definition test (st : state group_state) (i count : Z) (g : group_state)
    : state group_state :=
  if i <? count then set_mode st (InGroup i count g)
  else finish_group st count g.

(** The body of the [for] loop for a line that was read. *)
Definition collect (st : state group_state) (line : string) (i count : Z)
    (g : group_state) : state group_state :=
  let '(ds, transcript_id) := extract_transcript_id line in
  match map_find transcript_id transcript_gene with
  | None =>
      set_mode (warn st (ds ++ [UnknownGene transcript_id annotations line]))
        (Halted (Returned 7))
  | Some gene =>
      if String.eqb (first_gene g) gene
      then test (warn st ds) i count (mkGroup (group g ++ [line]) (first_gene g))
      else test (warn st ds) i count (mkGroup [] (first_gene g))
  end.

Definition step (file : string) (st : state group_state) (line : string)
    : state group_state :=
  match mode_of st with
  | Halted _ => st
  | InGroup i count g => collect st line (i + 1) count g
  | Top =>
      if is_empty line then warn st [EmptyLine file]
      else if is_header line then emit st [line]
      else
        match read_count line with
        | NoTag => warn st [MissingNH line]
        | BadCount => set_mode st (Halted Uncaught)
        | Declared count =>
            if count =? 1 then emit st [line]
            else
              let '(ds, transcript_id) := extract_transcript_id line in
              match map_find transcript_id transcript_gene with
              | None =>
                  set_mode
                    (warn st (ds ++ [UnknownGene transcript_id annotations line]))
                    (Halted (Returned 6))
              | Some gene => test (warn st ds) 1 count (mkGroup [line] gene)
              end
        end
  end.

Definition process (file : string) (st : state group_state)
    (lines : list string) : state group_state :=
  fold_left (step file) lines st.

Definition filter_file (file : string) (lines : list string)
    : state group_state :=
  at_eof file (process file initial lines).

End Filter.

Definition main (flushed : nat) (fs : files) (argv : list string) : run :=
  if ((argc argv =? 1) || negb (argc argv mod 2 =? 0))%bool then
    mkRun fs true [] (Returned 0)
  else
    let annotations := nth 1 argv EmptyString in
    match load_annotations (fs annotations) [] with
    | inl d => mkRun fs false [d] (Returned 2)
    | inr transcript_gene =>
        for_each_pair flushed (filter_file transcript_gene annotations)
          (skipn 2 argv) fs []
    end.

End FilterAmbiguousGenes.

(** ** Sample data *)

(** A line from its columns. *)
Definition tsv (cols : list string) : string := join_tabs cols.

(** A SAM record with the given read, flag and reference, that declares
    [nh] alignments and is the one of index [hi]. *)
Definition sam (qname flag rname nh hi : string) : string :=
  tsv [qname; flag; rname; "100"; "3"; "30M"; "*"; "0"; "0"; "ACGT"; "IIII";
       String.append "NH:i:" nh; String.append "HI:i:" hi].

(** A group of three alignments of one read, the second one on the reverse
    strand, none marked as primary. *)
Definition sample_first : string := sam "r1" "256" "t1" "3" "1".
Definition sample_conts : list string :=
  [sam "r1" "16" "t2" "3" "2"; sam "r1" "256" "t3" "3" "3"].

(** A group of two forward alignments, the first one primary. *)
Definition pair_first : string := sam "r2" "0" "t1" "2" "1".
Definition pair_conts : list string := [sam "r2" "256" "t3" "2" "2"].


(** A record that declares no alignment at all, of a transcript of no
    table. *)
Definition zero_line : string := sam "r7" "0" "t9" "0" "1".

(** The sample group with a line of one column in place of its second
    record. *)
Definition short_group : list string :=
  [sample_first; "r1"; sam "r1" "256" "t3" "3" "3"].

(** A unique alignment on a transcript of no table. *)
Definition unique_line : string := sam "r4" "0" "t9" "1" "1".

(** An [@SQ] header line for the sequence t2. *)
Definition sq_line : string := tsv ["@SQ"; "SN:t2"; "LN:1000"].

Definition sample_ids : list string := ["t1"; "t3"].

Definition sample_genes : FilterAmbiguousGenes.gene_map :=
  [("t1", "G1"); ("t2", "G1"); ("t3", "G2")].

Definition one_gene : FilterAmbiguousGenes.gene_map :=
  [("t1", "G1"); ("t2", "G1"); ("t3", "G1")].

(** ** The vocabulary of the properties *)

(** A string without a tab: a single column. *)
Definition no_tab (s : string) : Prop := find_char TAB s 0 = None.

(** The FLAG field of a line, its second column, and the FLAG read as a
    number. *)
Definition flag_field (line : string) : option string :=
  nth_error (columns line) 1.

Definition flag_value (line : string) : option Z :=
  match flag_field line with
  | Some f => stoull f
  | None => None
  end.

(** The line is marked as the primary alignment: it has a FLAG, and the bit
    256 (secondary alignment) is clear in it. *)
Definition marked_primary (line : string) : bool :=
  match flag_value line with
  | Some v => Z.land v 256 =? 0
  | None => false
  end.

(** The decision of the reverse-strand filter on a line. *)
Definition forward (line : string) : bool :=
  match snd (FilterReverseReads.forward_flag line) with
  | Some true => true
  | _ => false
  end.

(** The decision of the allow-list filter on a line. *)
Definition selected (transcript_ids : list string) (line : string) : bool :=
  SelectTranscripts.listed transcript_ids
    (snd (SelectTranscripts.extract_transcript_id line)).

(** The gene that a line resolves to in the gene-ambiguity filter. *)
Definition gene_of (transcript_gene : FilterAmbiguousGenes.gene_map)
    (line : string) : option string :=
  FilterAmbiguousGenes.map_find
    (snd (FilterAmbiguousGenes.extract_transcript_id line)) transcript_gene.

(** The tag fields of a line. *)
Definition is_NH (field : string) : bool := starts_with "NH:i:" field.
Definition is_HI (field : string) : bool := starts_with "HI:i:" field.

(** -10 log10(1 - 1/k) as a real number. *)
Definition neg10_log10 (k : Z) : R :=
  (-10 * (ln (1 - 1 / IZR k) / ln 10))%R.

(** The gene of a line is the gene [gene]. *)
Definition same_gene (transcript_gene : FilterAmbiguousGenes.gene_map)
    (gene : string) (line : string) : bool :=
  match gene_of transcript_gene line with
  | Some gene' => String.eqb gene gene'
  | None => false
  end.

(** The value of a tag field, the number after its five characters of key
    and type. *)
Definition tag_value (field : string) : option Z :=
  stoull (substr_from field 5).

(** The state of a group of the reverse-strand filter is sound: the vector
    holds lines that the filter keeps, and [primary] is [(size_t)-1] exactly
    when none of them is marked as primary. *)
Definition sound (g : FilterReverseReads.group_state) : Prop :=
  Forall (fun s => forward s = true) (FilterReverseReads.group g) /\
  ((FilterReverseReads.primary g = SIZE_MAX /\
    forall s, In s (FilterReverseReads.group g) -> marked_primary s = false) \/
   (FilterReverseReads.primary g <> SIZE_MAX /\
    exists s, In s (FilterReverseReads.group g) /\ marked_primary s = true)).

(** The FLAG of the line is a number, and the rewriting reads it as the
    second part of the line. *)
Definition has_flag (line : string) : Prop :=
  exists f v, nth_error (getline_parts line) 1 = Some f /\
              flag_field line = Some f /\ stoull f = Some v.


(** The FLAG fields of the lines [emitted] for the [survivors] of a reduced
    group: those of the survivors when one of them is marked as primary;
    otherwise the FLAG of the first survivor with its bit 256 flipped, and
    those of the other survivors. *)
Definition reflagged (survivors emitted : list string) : Prop :=
  if existsb marked_primary survivors then
    map flag_field emitted = map flag_field survivors
  else
    exists s0 rest o ls v,
      survivors = s0 :: rest /\ emitted = o :: ls /\
      flag_value s0 = Some v /\
      flag_field o = Some (to_string (Z.lxor v 256)) /\
      map flag_field ls = map flag_field rest.

(** The ten digits, and the strings of digits. *)
Definition decimal (c : ascii) : Prop :=
  exists d, 0 <= d < 10 /\ c = digit_char d.

Fixpoint numeral (s : string) : Prop :=
  match s with
  | EmptyString => True
  | String c s' => decimal c /\ numeral s'
  end.

(** The lines [emitted] are the lines [survivors], each at its place, with
    the tags of a group of [k] lines: every NH field is NH:i:k, every HI
    field of the line of index [i] is HI:i:(i+1), no tag is lost outside the
    FLAG and MAPQ columns, and every other field outside these two columns
    is the field of the survivor. *)
Definition renumbered (survivors emitted : list string) : Prop :=
  let k := Z.of_nat (List.length survivors) in
  forall i o, nth_error emitted i = Some o ->
    exists s, nth_error survivors i = Some s /\
      (forall f, In f (columns o) -> is_NH f = true ->
         f = String.append "NH:i:" (to_string k) /\ tag_value f = Some k) /\
      (forall f, In f (columns o) -> is_HI f = true ->
         f = String.append "HI:i:" (to_string (Z.of_nat i + 1)) /\
         tag_value f = Some (Z.of_nat i + 1)) /\
      (forall c p, nth_error (columns s) c = Some p ->
         c <> 1%nat -> c <> 4%nat ->
         nth_error (columns o) c =
         Some (if is_NH p then String.append "NH:i:" (to_string k)
               else if is_HI p then String.append "HI:i:" (to_string (Z.of_nat i + 1))
               else p) \/
         (p = EmptyString /\ nth_error (columns o) c = None)).

(** The lines [emitted] are lines of [survivors], each at its place, with
    the mapping quality of a group of [k] lines in the fifth column. *)
Definition requalified (survivors emitted : list string) : Prop :=
  let mapq := to_string (mapq_score (Z.of_nat (List.length survivors))) in
  forall i o, nth_error emitted i = Some o ->
    exists s, nth_error survivors i = Some s /\
      (forall f, nth_error (columns o) 4 = Some f -> f = mapq) /\
      ((5 < List.length (columns s))%nat -> nth_error (columns o) 4 = Some mapq).

(** ** The vocabulary of further properties *)

(** The last field of [cols] that starts with [key], and the first one. *)
Fixpoint last_tagged (key : string) (cols : list string) : option string :=
  match cols with
  | [] => None
  | q :: rest =>
      match last_tagged key rest with
      | Some t => Some t
      | None => if starts_with key q then Some q else None
      end
  end.

Definition first_tagged (key : string) (cols : list string) : option string :=
  find (starts_with key) cols.

(** A list of lines is a subsequence of another one. *)
Inductive subsequence : list string -> list string -> Prop :=
| sub_nil : subsequence [] []
| sub_skip l s t : subsequence s t -> subsequence s (l :: t)
| sub_keep l s t : subsequence s t -> subsequence (l :: s) (l :: t).

(** The text that follows a key of the length of [key] at the start of
    [s], up to the first tab from there or to the end of [s]. *)
Definition after_key (key s : string) : string :=
  match find_char TAB s (String.length key) with
  | None => substr_from s (String.length key)
  | Some e => substr s (String.length key) (e - String.length key)
  end.

(** The text from the position [q] of [s] up to the next tab, or to the end
    of [s]: what the tools read after the key of a tag. *)
Definition text_at (q : nat) (s : string) : string :=
  match find_char TAB s q with
  | None => substr_from s q
  | Some e => substr s q (e - q)
  end.

(** The line declares one alignment; the line is a unit of the input by
    itself: an empty line, a header, a line without NH tag or a line that
    declares one alignment. *)
Definition unique (line : string) : bool :=
  match read_count line with
  | Declared n => n =? 1
  | _ => false
  end.

Definition single (line : string) : bool :=
  (is_empty line || is_header line ||
   match read_count line with
   | NoTag => true
   | Declared n => n =? 1
   | BadCount => false
   end)%bool.

(** The single lines that each filter writes. *)
Definition reverse_keeps (line : string) : bool :=
  (is_header line || (negb (is_empty line) && unique line && forward line))%bool.

Definition ambiguous_keeps (line : string) : bool :=
  (is_header line || (negb (is_empty line) && unique line))%bool.

Definition select_keeps (transcript_ids : list string) (line : string) : bool :=
  if is_header line then
    if starts_with (String.append "@SQ" (String TAB EmptyString)) line then
      match SelectTranscripts.sequence_name line with
      | Some name => SelectTranscripts.listed transcript_ids name
      | None => false
      end
    else true
  else (negb (is_empty line) && unique line && selected transcript_ids line)%bool.

(** The codes with which the filters stop. *)
Definition rewriting_halt (h : halt) : Prop :=
  h = Returned 17 \/ h = Returned 12 \/ h = Returned 11 \/ h = Uncaught.

Definition ambiguous_halt (h : halt) : Prop :=
  h = Returned 17 \/ h = Returned 6 \/ h = Returned 7 \/ h = Uncaught.

(** What a line of the annotations binds: a transcript and its gene. *)
Definition binding_of (line : string) : option (string * string) :=
  match FilterAmbiguousGenes.annotate line [] with
  | inr ((t, g) :: _) => Some (t, g)
  | _ => None
  end.

(** What the gene-ambiguity filter has written, with the lines that it
    holds for the group being read. *)
Definition held (st : state FilterAmbiguousGenes.group_state) : list string :=
  match mode_of st with
  | InGroup _ _ g => out st ++ FilterAmbiguousGenes.group g
  | _ => out st
  end.

(** The line [o] is the line [s], as it is or as the rewriting of a reduced
    group writes it. *)
Definition rewritten (s o : string) : Prop :=
  o = s \/
  exists size m primary i, rewrite_line size (to_string m) primary i s = Some o.

(** The lines [os] come from lines of [ls], one from one, in the order of
    [ls]; the other lines of [ls] are dropped. *)
Inductive derived : list string -> list string -> Prop :=
| derived_nil : derived [] []
| derived_skip l os ls : derived os ls -> derived os (l :: ls)
| derived_keep o l os ls :
    rewritten l o -> derived os ls -> derived (o :: os) (l :: ls).

(** What a filter that rewrites its groups keeps of the lines read so far:
    its output comes from lines read before the group being read, and the
    vector of the group holds lines of that group. *)
Definition kept {G} (lines_of : G -> list string) (st : state G)
    (consumed : list string) : Prop :=
  match mode_of st with
  | InGroup _ _ g =>
      exists before inside,
        consumed = before ++ inside /\
        derived (out st) before /\ subsequence (lines_of g) inside
  | _ => derived (out st) consumed
  end.

(** The FLAG of the line is a number without the bit 16: the alignment is
    on the forward strand. *)
Definition on_forward_strand (line : string) : Prop :=
  exists v, flag_value line = Some v /\ Z.land v 16 = 0.

(** The third column of the line is a transcript of the allow-list. *)
Definition of_listed_transcript (transcript_ids : list string)
    (line : string) : Prop :=
  exists id, nth_error (columns line) 2 = Some id /\
             SelectTranscripts.listed transcript_ids id = true.

(** A name of the allow-list that the filter and the rewriting read alike:
    it is not empty and does not start like an NH or HI tag. *)
Definition plain_name (id : string) : bool :=
  (negb (String.eqb id EmptyString) && negb (is_NH id) && negb (is_HI id))%bool.

(** Every line written has the property [P], and every line held for the
    group being read has the property [Q]. *)
Definition guarded {G} (lines_of : G -> list string) (P Q : string -> Prop)
    (st : state G) : Prop :=
  Forall P (out st) /\
  match mode_of st with
  | InGroup _ _ g => Forall Q (lines_of g)
  | _ => True
  end.

(** ** Sample annotations *)

Definition quoted (s : string) : string :=
  String FilterAmbiguousGenes.QUOTE
    (String.append s (String FilterAmbiguousGenes.QUOTE EmptyString)).

(** A line of a GTF file for an exon of the transcript of the gene. *)
Definition gtf (gene transcript : string) : string :=
  tsv ["chr1"; "src"; "exon"; "1"; "100"; "."; "+"; ".";
       String.append "gene_id "
         (String.append (quoted gene)
            (String.append "; transcript_id "
               (String.append (quoted transcript) ";")))].

(** A line whose transcript_id tag is not closed. *)
Definition gtf_open : string :=
  tsv ["chr1"; "src"; "exon"; "1"; "100"; "."; "+"; ".";
       String.append "gene_id "
         (String.append (quoted "G1")
            (String.append "; transcript_id "
               (String FilterAmbiguousGenes.QUOTE "t1")))].

(** The files of a sample run: an input of one group, a table of
    annotations in which the transcript t1 is named twice, and a table with
    a line that cannot be read. *)
Definition sample_files : files :=
  fun name =>
    if String.eqb name "in.sam" then sample_first :: sample_conts
    else if String.eqb name "genes.gtf"
    then [gtf "G1" "t1"; gtf "G2" "t1"; gtf "G1" "t2"]
    else if String.eqb name "bad.gtf" then [gtf "G1" "t1"; gtf_open]
    else [].

(** Three units of one line: a header, a forward alignment of a transcript
    that is in no table, and an alignment on the reverse strand of t1. *)
Definition single_lines : list string :=
  [sq_line; unique_line; sam "r5" "16" "t1" "1" "1"].

(** A group of two alignments on the reverse strand, of transcripts that are
    not listed. *)
Definition reverse_first : string := sam "r6" "16" "t8" "2" "1".
Definition reverse_conts : list string := [sam "r6" "16" "t9" "2" "2"].
(** * Properties *)

(** ** Strings and columns *)

Lemma columns_not_nil (s : string) : columns s <> [].
Proof.
  destruct s as [|c s]; simpl; [discriminate|].
  destruct (Ascii.eqb c TAB); [discriminate|].
  destruct (columns s); discriminate.
Qed.

(** [getline] loses exactly one empty piece at the end of the line. *)
Lemma columns_getline_parts (s : string) :
  columns s = getline_parts s \/ columns s = getline_parts s ++ [EmptyString].
Proof.
  induction s as [|c s IH]; simpl; [now right|].
  destruct (Ascii.eqb c TAB).
  - destruct IH as [-> | ->]; [now left | now right].
  - destruct IH as [E | E]; rewrite E.
    + now left.
    + destruct (getline_parts s); simpl; [now left | now right].
Qed.

Lemma getline_part_column (s : string) (c : nat) (p : string) :
  nth_error (getline_parts s) c = Some p -> nth_error (columns s) c = Some p.
Proof.
  intros H. destruct (columns_getline_parts s) as [-> | ->]; [exact H|].
  rewrite nth_error_app1; [exact H|]. apply nth_error_Some. congruence.
Qed.

Lemma column_getline_part (s : string) (c : nat) (p : string) :
  nth_error (columns s) c = Some p -> p <> EmptyString ->
  nth_error (getline_parts s) c = Some p.
Proof.
  intros H Hp. destruct (columns_getline_parts s) as [E | E]; rewrite E in H;
    [exact H|].
  destruct (Nat.lt_ge_cases c (List.length (getline_parts s))) as [L | L].
  - now rewrite nth_error_app1 in H.
  - rewrite nth_error_app2 in H by exact L.
    destruct (c - List.length (getline_parts s))%nat as [|n]; simpl in H.
    + congruence.
    + destruct n; discriminate.
Qed.

Lemma no_tab_empty : no_tab EmptyString.
Proof. reflexivity. Qed.

Lemma no_tab_cons (c : ascii) (s : string) :
  Ascii.eqb c TAB = false -> no_tab s -> no_tab (String c s).
Proof. unfold no_tab; simpl; intros -> ->; reflexivity. Qed.

Lemma no_tab_inv (c : ascii) (s : string) :
  no_tab (String c s) -> Ascii.eqb c TAB = false /\ no_tab s.
Proof.
  unfold no_tab; simpl. destruct (Ascii.eqb c TAB); [discriminate|].
  destruct (find_char TAB s 0); [discriminate|]. auto.
Qed.

Lemma getline_parts_no_tab (s : string) : Forall no_tab (getline_parts s).
Proof.
  induction s as [|c s IH]; simpl; [constructor|].
  destruct (Ascii.eqb c TAB) eqn:E.
  - constructor; [apply no_tab_empty | exact IH].
  - destruct (getline_parts s) as [|x xs].
    + repeat constructor. now apply no_tab_cons.
    + inversion IH; subst. constructor; [now apply no_tab_cons | assumption].
Qed.

Lemma columns_single (x : string) : no_tab x -> columns x = [x].
Proof.
  induction x as [|c x IH]; intros H; simpl; [reflexivity|].
  apply no_tab_inv in H as [-> H]. now rewrite (IH H).
Qed.

Lemma columns_app (x r : string) :
  no_tab x -> columns (x ++ String TAB r) = x :: columns r.
Proof.
  induction x as [|c x IH]; intros H; simpl.
  - reflexivity.
  - apply no_tab_inv in H as [-> H]. now rewrite (IH H).
Qed.

(** Reading the columns of a line that was written part by part gives the
    parts back. *)
Lemma columns_join_tabs (ps : list string) :
  ps <> [] -> Forall no_tab ps -> columns (join_tabs ps) = ps.
Proof.
  unfold join_tabs.
  induction ps as [|p ps IH]; intros Hne H; [congruence|].
  inversion H as [|? ? Hp Hps]; subst.
  destruct ps as [|q ps].
  - simpl. now apply columns_single.
  - change (String.concat (String TAB "") (p :: q :: ps))
      with (p ++ String TAB (String.concat (String TAB "") (q :: ps)))%string.
    rewrite columns_app by exact Hp.
    f_equal. apply IH; [discriminate | exact Hps].
Qed.

Lemma find_char_app (c : ascii) (w r : string) (m : nat) :
  find_char c (w ++ r) (String.length w + m) =
  option_map (Nat.add (String.length w)) (find_char c r m).
Proof.
  induction w as [|a w IH]; simpl.
  - destruct (find_char c r m); reflexivity.
  - rewrite IH. destruct (find_char c r m); reflexivity.
Qed.

Lemma find_char_first (x r : string) :
  no_tab x -> find_char TAB (x ++ String TAB r) 0 = Some (String.length x).
Proof.
  induction x as [|c x IH]; intros H; simpl.
  - reflexivity.
  - apply no_tab_inv in H as [-> H]. now rewrite (IH H).
Qed.

Lemma find_char_split (s : string) (n : nat) :
  find_char TAB s 0 = Some n ->
  exists x r, s = (x ++ String TAB r)%string /\ no_tab x /\ String.length x = n.
Proof.
  revert n. induction s as [|c s IH]; intros n H; simpl in H; [discriminate|].
  destruct (Ascii.eqb c TAB) eqn:E.
  - injection H as <-. apply Ascii.eqb_eq in E as ->.
    exists EmptyString, s. repeat split.
  - destruct (find_char TAB s 0) as [m|] eqn:F; [|discriminate].
    injection H as <-.
    destruct (IH m eq_refl) as (x & r & -> & Hx & <-).
    exists (String c x), r. repeat split. now apply no_tab_cons.
Qed.

Lemma substring_app_skip (w r : string) (a b : nat) :
  String.substring (String.length w + a) b (w ++ r) = String.substring a b r.
Proof. induction w as [|c w IH]; simpl; [reflexivity | exact IH]. Qed.

Lemma substring_prefix (y r : string) :
  String.substring 0 (String.length y) (y ++ r) = y.
Proof.
  induction y as [|c y IH]; simpl.
  - destruct r; reflexivity.
  - now rewrite IH.
Qed.

(** A line with a tab is its first column, the tab, and the rest. *)
Lemma line_split (s : string) :
  (no_tab s /\ columns s = [s]) \/
  exists x r, s = (x ++ String TAB r)%string /\ no_tab x /\
              columns s = x :: columns r.
Proof.
  destruct (find_char TAB s 0) as [n|] eqn:F.
  - right. destruct (find_char_split s n F) as (x & r & -> & Hx & _).
    exists x, r. repeat split; [exact Hx | now apply columns_app].
  - left. split; [exact F | now apply columns_single].
Qed.

(** [check_flag] reads the second column of a line of three columns or more,
    and answers [false], with a message, for every other line. *)
Lemma check_flag_columns (line : string) (flag : Z) :
  check_flag line flag =
  match columns line with
  | _ :: f :: _ :: _ =>
      ([], option_map (fun v => Z.land v flag =? 0) (stoull f))
  | _ => ([NotEnoughColumns line], Some false)
  end.
Proof.
  unfold check_flag.
  destruct (find_char TAB line 0) as [n|] eqn:F.
  - destruct (find_char_split line n F) as (x & r & -> & Hx & <-).
    rewrite columns_app by exact Hx.
    replace (S (String.length x)) with (String.length (x ++ String TAB "") + 0)%nat.
    2:{ clear. induction x; simpl; [reflexivity|]. now rewrite IHx. }
    replace (x ++ String TAB r)%string with ((x ++ String TAB "") ++ r)%string.
    2:{ clear. induction x; simpl; [reflexivity|]. now rewrite IHx. }
    rewrite find_char_app.
    destruct (find_char TAB r 0) as [m|] eqn:G; simpl.
    + destruct (find_char_split r m G) as (y & r' & -> & Hy & <-).
      rewrite columns_app by exact Hy.
      destruct (columns r') eqn:C; [now apply columns_not_nil in C|].
      unfold substr.
      replace (String.length (x ++ String TAB "") + String.length y
               - (String.length (x ++ String TAB "") + 0))%nat
        with (String.length y) by lia.
      now rewrite substring_app_skip, substring_prefix.
    + now rewrite (columns_single r G).
  - now rewrite (columns_single line F).
Qed.

(** ** Numbers and their decimal text *)

Lemma digit_value_range (c : ascii) (d : Z) :
  digit_value c = Some d -> 0 <= d < 10.
Proof.
  unfold digit_value.
  destruct (Nat.leb 48 (nat_of_ascii c)) eqn:A; [|discriminate].
  destruct (Nat.leb (nat_of_ascii c) 57) eqn:B; [|discriminate].
  cbn [andb]. intros [= <-].
  apply Nat.leb_le in A. apply Nat.leb_le in B. lia.
Qed.

Lemma read_digits_nonneg (s : string) (acc : Z) (seen : bool) (v : Z) :
  0 <= acc -> read_digits s acc seen = Some v -> 0 <= v.
Proof.
  revert acc seen. induction s as [|c s IH]; intros acc seen Hacc; simpl.
  - destruct seen; [intros [= <-]; exact Hacc | discriminate].
  - destruct (digit_value c) as [d|] eqn:D.
    + apply digit_value_range in D. intros H.
      apply (IH (10 * acc + d) true); [lia | exact H].
    + destruct seen; [intros [= <-]; exact Hacc | discriminate].
Qed.

(** [std::stoull] returns a 64-bit value. *)
Lemma stoull_range (s : string) (v : Z) :
  stoull s = Some v -> 0 <= v <= SIZE_MAX.
Proof.
  unfold stoull.
  destruct (match skip_spaces s with
            | String "-"%char r => (true, r)
            | String "+"%char r => (false, r)
            | _ => (false, skip_spaces s)
            end) as [neg s2].
  destruct (read_digits s2 0 false) as [w|] eqn:R; [|discriminate].
  apply read_digits_nonneg in R; [|lia].
  destruct (SIZE_MAX <? w) eqn:L; [discriminate|].
  apply Z.ltb_ge in L.
  assert (M : 0 <= (2 ^ 64 - w) mod 2 ^ 64 <= SIZE_MAX).
  { unfold SIZE_MAX.
    pose proof (Z.mod_pos_bound (2 ^ 64 - w) (2 ^ 64) ltac:(lia)). lia. }
  revert M. generalize ((2 ^ 64 - w) mod 2 ^ 64). intros m M.
  destruct neg; intros [= <-]; lia.
Qed.

Lemma read_count_range (line : string) (count : Z) :
  read_count line = Declared count -> 0 <= count <= SIZE_MAX.
Proof.
  unfold read_count.
  destruct (rfind_str (String TAB "NH:i:") line); [|discriminate].
  match goal with |- context [stoull ?t] => destruct (stoull t) eqn:E end;
    [|discriminate].
  intros [= <-]. now apply stoull_range in E.
Qed.

Lemma decimal_cases (c : ascii) :
  decimal c ->
  In c ["0"; "1"; "2"; "3"; "4"; "5"; "6"; "7"; "8"; "9"]%char.
Proof.
  intros (d & Hd & ->).
  assert (d = 0 \/ d = 1 \/ d = 2 \/ d = 3 \/ d = 4 \/ d = 5 \/ d = 6 \/
          d = 7 \/ d = 8 \/ d = 9) as H by lia.
  repeat (destruct H as [-> | H]; [simpl; tauto|]).
  subst; simpl; tauto.
Qed.

Lemma decimal_value (d : Z) :
  0 <= d < 10 -> digit_value (digit_char d) = Some d.
Proof.
  intros Hd.
  assert (d = 0 \/ d = 1 \/ d = 2 \/ d = 3 \/ d = 4 \/ d = 5 \/ d = 6 \/
          d = 7 \/ d = 8 \/ d = 9) as H by lia.
  repeat (destruct H as [-> | H]; [reflexivity|]).
  subst; reflexivity.
Qed.

Lemma digits_into_numeral (fuel : nat) (n : Z) (acc : string) :
  numeral acc -> numeral (digits_into fuel n acc).
Proof.
  assert (D : forall m, decimal (digit_char (m mod 10))).
  { intros m. exists (m mod 10). split; [apply Z.mod_pos_bound; lia | reflexivity]. }
  revert n acc. induction fuel as [|f IH]; intros n acc H; simpl.
  - split; [apply D | exact H].
  - destruct (n <? 10).
    + split; [apply D | exact H].
    + apply IH. split; [apply D | exact H].
Qed.

Lemma digits_into_head (fuel : nat) (n : Z) (acc : string) :
  exists c rest, digits_into fuel n acc = String c rest /\ decimal c.
Proof.
  assert (D : forall m, decimal (digit_char (m mod 10))).
  { intros m. exists (m mod 10). split; [apply Z.mod_pos_bound; lia | reflexivity]. }
  revert n acc. induction fuel as [|f IH]; intros n acc; simpl.
  - eauto.
  - destruct (n <? 10); [eauto | apply IH].
Qed.

Lemma to_string_numeral (n : Z) : numeral (to_string n).
Proof. apply digits_into_numeral. exact I. Qed.

Lemma to_string_head (n : Z) :
  exists c rest, to_string n = String c rest /\ decimal c.
Proof. apply digits_into_head. Qed.

Lemma numeral_no_tab (s : string) : numeral s -> no_tab s.
Proof.
  induction s as [|c s IH]; intros H; [reflexivity|].
  destruct H as [Hc Hs]. apply no_tab_cons; [|now apply IH].
  apply decimal_cases in Hc. simpl in Hc.
  repeat (destruct Hc as [<- | Hc]; [reflexivity|]). contradiction.
Qed.

Lemma to_string_no_tab (n : Z) : no_tab (to_string n).
Proof. apply numeral_no_tab, to_string_numeral. Qed.

(** A number is neither an NH tag nor an HI tag. *)
Lemma to_string_not_tag (n : Z) :
  is_NH (to_string n) = false /\ is_HI (to_string n) = false.
Proof.
  destruct (to_string_head n) as (c & rest & -> & Hc).
  apply decimal_cases in Hc. simpl in Hc.
  repeat (destruct Hc as [<- | Hc]; [split; reflexivity|]). contradiction.
Qed.

Lemma tag_no_tab (key : string) (n : Z) :
  no_tab key -> no_tab (key ++ to_string n).
Proof.
  induction key as [|c key IH]; intros H; simpl.
  - apply to_string_no_tab.
  - apply no_tab_inv in H as [E H]. apply no_tab_cons; [exact E | now apply IH].
Qed.

Lemma read_digits_into (fuel : nat) (n : Z) (acc : string) :
  0 <= n < 10 ^ (Z.of_nat fuel + 1) ->
  read_digits (digits_into fuel n acc) 0 false = read_digits acc n true.
Proof.
  revert n acc. induction fuel as [|f IH]; intros n acc Hn.
  - change (Z.of_nat 0 + 1) with 1 in Hn. change (10 ^ 1) with 10 in Hn.
    cbn [digits_into read_digits]. rewrite Z.mod_small by lia.
    rewrite decimal_value by lia. now replace (10 * 0 + n) with n by lia.
  - cbn [digits_into]. destruct (n <? 10) eqn:L.
    + apply Z.ltb_lt in L. cbn [read_digits]. rewrite Z.mod_small by lia.
      rewrite decimal_value by lia. now replace (10 * 0 + n) with n by lia.
    + apply Z.ltb_ge in L. rewrite IH.
      * cbn [read_digits].
        rewrite decimal_value by (apply Z.mod_pos_bound; lia).
        f_equal. pose proof (Z.div_mod n 10 ltac:(lia)). lia.
      * split; [apply Z.div_pos; lia|].
        apply Z.div_lt_upper_bound; [lia|].
        replace (Z.of_nat (S f) + 1) with (Z.succ (Z.of_nat f + 1)) in Hn by lia.
        rewrite Z.pow_succ_r in Hn by lia. lia.
Qed.

Lemma stoull_numeral (c : ascii) (rest : string) :
  decimal c ->
  stoull (String c rest) =
  match read_digits (String c rest) 0 false with
  | None => None
  | Some v => if SIZE_MAX <? v then None else Some v
  end.
Proof.
  intros Hc. apply decimal_cases in Hc. simpl in Hc.
  repeat (destruct Hc as [<- | Hc]; [reflexivity|]). contradiction.
Qed.

(** The text of a 64-bit number reads back as the number. *)
Lemma stoull_to_string (n : Z) :
  0 <= n <= SIZE_MAX -> stoull (to_string n) = Some n.
Proof.
  intros Hn.
  assert (R : read_digits (to_string n) 0 false = Some n).
  { unfold to_string. rewrite read_digits_into; [reflexivity|].
    split; [lia|].
    destruct (Z.eq_dec n 0) as [-> | Hz]; [reflexivity|].
    rewrite Z2Nat.id by apply Z.log2_nonneg.
    pose proof (Z.log2_spec n ltac:(lia)) as [_ U].
    eapply Z.lt_le_trans; [exact U|].
    replace (Z.succ (Z.log2 n)) with (Z.log2 n + 1) by lia.
    apply Z.pow_le_mono_l. lia. }
  destruct (to_string_head n) as (c & rest & E & Hc).
  rewrite E in *. rewrite (stoull_numeral c rest Hc), R.
  now replace (SIZE_MAX <? n) with false by (symmetry; apply Z.ltb_ge; lia).
Qed.

(** ** The rewriting of one line *)

Lemma prefix_head (c : ascii) (x p : string) :
  String.prefix (String c x) p = true -> exists r, p = String c r.
Proof.
  destruct p as [|a p]; simpl; [discriminate|].
  destruct (ascii_dec c a) as [-> | _]; [eauto | discriminate].
Qed.

(** A tag is not a number: [std::stoull] throws on it. *)
Lemma stoull_not_tag (p : string) (v : Z) :
  stoull p = Some v -> is_NH p = false /\ is_HI p = false.
Proof.
  intros H. split.
  - destruct (is_NH p) eqn:E; [|reflexivity].
    apply prefix_head in E as [r ->]. discriminate H.
  - destruct (is_HI p) eqn:E; [|reflexivity].
    apply prefix_head in E as [r ->]. discriminate H.
Qed.

Section RewriteLine.
Variables (size m primary i : Z).

(** What a written part can be. *)
Lemma rewrite_part_written (j : Z) (p p' : string) :
  rewrite_part size (to_string m) primary i j p = Some p' ->
  (is_NH p' = true -> p' = "NH:i:" ++ to_string size)%string /\
  (is_HI p' = true -> p' = "HI:i:" ++ to_string (i + 1))%string /\
  (no_tab p -> no_tab p').
Proof.
  unfold rewrite_part.
  destruct ((j =? 2) && (primary =? i))%bool.
  { destruct (stoull p) as [v|]; [|discriminate]. intros [= <-].
    destruct (to_string_not_tag (Z.lxor v 256)) as [-> ->].
    repeat split; try discriminate. intros _. apply to_string_no_tab. }
  destruct (j =? 5).
  { intros [= <-]. destruct (to_string_not_tag m) as [-> ->].
    repeat split; try discriminate. intros _. apply to_string_no_tab. }
  destruct (starts_with "NH:i:" p) eqn:N.
  { intros [= <-]. repeat split; try discriminate.
    intros _. exact (tag_no_tab "NH:i:" size eq_refl). }
  destruct (starts_with "HI:i:" p) eqn:H.
  { intros [= <-]. repeat split; try discriminate.
    intros _. exact (tag_no_tab "HI:i:" (i + 1) eq_refl). }
  intros [= <-]. unfold is_NH, is_HI. rewrite N, H.
  repeat split; try discriminate. auto.
Qed.

(** The part number 5 becomes the mapping quality. *)
Lemma rewrite_part_mapq (p : string) :
  rewrite_part size (to_string m) primary i 5 p = Some (to_string m).
Proof. reflexivity. Qed.

(** A tag is rewritten in every part but the fifth and the flag of a new
    primary alignment. *)
Lemma rewrite_part_NH (j : Z) (p : string) :
  j <> 5 -> (j <> 2 \/ primary <> i) -> is_NH p = true ->
  rewrite_part size (to_string m) primary i j p = Some ("NH:i:" ++ to_string size)%string.
Proof.
  intros H5 H2 N. unfold rewrite_part.
  replace ((j =? 2) && (primary =? i))%bool with false.
  2:{ symmetry. apply andb_false_iff.
      destruct H2; [left | right]; now apply Z.eqb_neq. }
  apply Z.eqb_neq in H5. rewrite H5. unfold is_NH in N. now rewrite N.
Qed.

Lemma rewrite_part_HI (j : Z) (p : string) :
  j <> 5 -> (j <> 2 \/ primary <> i) -> is_NH p = false -> is_HI p = true ->
  rewrite_part size (to_string m) primary i j p = Some ("HI:i:" ++ to_string (i + 1))%string.
Proof.
  intros H5 H2 N H. unfold rewrite_part.
  replace ((j =? 2) && (primary =? i))%bool with false.
  2:{ symmetry. apply andb_false_iff.
      destruct H2; [left | right]; now apply Z.eqb_neq. }
  apply Z.eqb_neq in H5. rewrite H5. unfold is_NH, is_HI in *. now rewrite N, H.
Qed.

(** Every other part is written as it was read. *)
Lemma rewrite_part_same (j : Z) (p : string) :
  j <> 5 -> (j <> 2 \/ primary <> i) -> is_NH p = false -> is_HI p = false ->
  rewrite_part size (to_string m) primary i j p = Some p.
Proof.
  intros H5 H2 N H. unfold rewrite_part.
  replace ((j =? 2) && (primary =? i))%bool with false.
  2:{ symmetry. apply andb_false_iff.
      destruct H2; [left | right]; now apply Z.eqb_neq. }
  apply Z.eqb_neq in H5. rewrite H5. unfold is_NH, is_HI in *. now rewrite N, H.
Qed.

(** The flag of the new primary alignment. *)
Lemma rewrite_part_flag (p : string) :
  primary = i ->
  rewrite_part size (to_string m) primary i 2 p =
  option_map (fun v => to_string (Z.lxor v 256)) (stoull p).
Proof. intros E. unfold rewrite_part. rewrite E, !Z.eqb_refl. reflexivity. Qed.

(** The parts are rewritten one by one, each at its place. *)
Lemma rewrite_parts_nth (parts : list string) :
  forall (j : Z) (ps' : list string),
  rewrite_parts size (to_string m) primary i j parts = Some ps' ->
  List.length ps' = List.length parts /\
  forall c p, nth_error parts c = Some p ->
    exists p', nth_error ps' c = Some p' /\
      rewrite_part size (to_string m) primary i (j + 1 + Z.of_nat c) p = Some p'.
Proof.
  induction parts as [|p0 parts IH]; intros j ps' H; simpl in H.
  - injection H as <-. split; [reflexivity|]. intros [|c] p; discriminate.
  - destruct (rewrite_part size (to_string m) primary i (j + 1) p0) as [q|] eqn:Q;
      [|discriminate].
    destruct (rewrite_parts size (to_string m) primary i (j + 1) parts) as [qs|] eqn:R;
      [|discriminate].
    injection H as <-. destruct (IH _ _ R) as [L N].
    split; [simpl; now rewrite L|].
    intros [|c] p Hp; simpl in Hp.
    + injection Hp as <-. exists q. split; [reflexivity|].
      now replace (j + 1 + Z.of_nat 0) with (j + 1) by lia.
    + destruct (N c p Hp) as (p' & A & B). exists p'. split; [exact A|].
      now replace (j + 1 + Z.of_nat (S c)) with (j + 1 + 1 + Z.of_nat c) by lia.
Qed.

Lemma rewrite_parts_no_tab (parts : list string) :
  forall (j : Z) (ps' : list string),
  rewrite_parts size (to_string m) primary i j parts = Some ps' ->
  Forall no_tab parts -> Forall no_tab ps'.
Proof.
  induction parts as [|p0 parts IH]; intros j ps' H F; simpl in H.
  - injection H as <-. constructor.
  - destruct (rewrite_part size (to_string m) primary i (j + 1) p0) as [q|] eqn:Q;
      [|discriminate].
    destruct (rewrite_parts size (to_string m) primary i (j + 1) parts) as [qs|] eqn:R;
      [|discriminate].
    injection H as <-. inversion F; subst. constructor.
    + now apply (rewrite_part_written _ _ _ Q).
    + now apply (IH _ _ R).
Qed.

(** The columns of a written line are the rewritten parts of the line read. *)
Lemma rewrite_line_columns (s o : string) :
  rewrite_line size (to_string m) primary i s = Some o ->
  forall c f, nth_error (columns o) c = Some f ->
    (c = 0%nat /\ f = EmptyString) \/
    exists p, nth_error (getline_parts s) c = Some p /\
      rewrite_part size (to_string m) primary i (Z.of_nat c + 1) p = Some f.
Proof.
  unfold rewrite_line.
  destruct (rewrite_parts size (to_string m) primary i 0 (getline_parts s))
    as [ps'|] eqn:R; [|discriminate].
  intros [= <-] c f Hf.
  destruct (rewrite_parts_nth _ _ _ R) as [L N].
  destruct ps' as [|q qs].
  - simpl in Hf. left. destruct c as [|[|c]]; simpl in Hf;
      [split; congruence | discriminate | discriminate].
  - rewrite columns_join_tabs in Hf;
      [|discriminate
       |exact (rewrite_parts_no_tab _ _ _ R (getline_parts_no_tab s))].
    right.
    destruct (nth_error (getline_parts s) c) as [p|] eqn:P.
    + destruct (N c p P) as (p' & A & B). exists p. split; [reflexivity|].
      rewrite Hf in A. injection A as <-.
      now replace (Z.of_nat c + 1) with (0 + 1 + Z.of_nat c) by lia.
    + apply nth_error_None in P. rewrite <- L in P.
      apply nth_error_None in P. congruence.
Qed.

Lemma rewrite_line_part (s o : string) (c : nat) (p : string) :
  rewrite_line size (to_string m) primary i s = Some o ->
  nth_error (getline_parts s) c = Some p ->
  exists f, nth_error (columns o) c = Some f /\
    rewrite_part size (to_string m) primary i (Z.of_nat c + 1) p = Some f.
Proof.
  unfold rewrite_line.
  destruct (rewrite_parts size (to_string m) primary i 0 (getline_parts s))
    as [ps'|] eqn:R; [|discriminate].
  intros [= <-] P.
  destruct (rewrite_parts_nth _ _ _ R) as [L N].
  destruct (N c p P) as (p' & A & B).
  exists p'. split.
  - rewrite columns_join_tabs;
      [exact A
      |intros ->; destruct c; discriminate
      |exact (rewrite_parts_no_tab _ _ _ R (getline_parts_no_tab s))].
  - now replace (Z.of_nat c + 1) with (0 + 1 + Z.of_nat c) by lia.
Qed.

End RewriteLine.

(** ** The rewriting of a group *)

Section RewriteGroup.
Variables (size m primary : Z).

Lemma rewrite_lines_nth (rest : list string) :
  forall (i : Z) (ls : list string) (ok : bool),
  rewrite_lines size (to_string m) primary i rest = (ls, ok) ->
  (List.length ls <= List.length rest)%nat /\
  (ok = true -> List.length ls = List.length rest) /\
  forall n o, nth_error ls n = Some o ->
    exists s, nth_error rest n = Some s /\
      rewrite_line size (to_string m) primary (i + Z.of_nat n) s = Some o.
Proof.
  induction rest as [|s rest IH]; intros i ls ok H; simpl in H.
  - injection H as <- <-. repeat split; auto. intros [|n] o; discriminate.
  - destruct (rewrite_line size (to_string m) primary i s) as [l|] eqn:L.
    + destruct (rewrite_lines size (to_string m) primary (i + 1) rest) as [ls' ok'] eqn:R.
      injection H as <- <-. destruct (IH _ _ _ R) as (A & B & C).
      repeat split; simpl; [lia | intros E; now rewrite (B E) |].
      intros [|n] o Ho; simpl in Ho.
      * injection Ho as <-. exists s. split; [reflexivity|].
        now replace (i + Z.of_nat 0) with i by lia.
      * destruct (C n o Ho) as (s' & S1 & S2). exists s'. split; [exact S1|].
        now replace (i + Z.of_nat (S n)) with (i + 1 + Z.of_nat n) by lia.
    + injection H as <- <-. repeat split; simpl; [lia | discriminate |].
      intros [|n] o; discriminate.
Qed.

Lemma rewrite_parts_total (i : Z) (parts : list string) :
  forall j : Z,
  (forall c p, nth_error parts c = Some p -> j + 1 + Z.of_nat c = 2 ->
               primary = i -> stoull p <> None) ->
  exists ps', rewrite_parts size (to_string m) primary i j parts = Some ps'.
Proof.
  induction parts as [|p0 parts IH]; intros j H; simpl; [eauto|].
  assert (exists q, rewrite_part size (to_string m) primary i (j + 1) p0 = Some q) as [q Q].
  { unfold rewrite_part.
    destruct ((j + 1 =? 2) && (primary =? i))%bool eqn:E.
    - apply andb_true_iff in E as [E1 E2].
      apply Z.eqb_eq in E1. apply Z.eqb_eq in E2.
      specialize (H 0%nat p0 eq_refl ltac:(simpl; lia) E2).
      destruct (stoull p0); [simpl; eauto | congruence].
    - destruct (j + 1 =? 5); [eauto|].
      destruct (starts_with "NH:i:" p0); [eauto|].
      destruct (starts_with "HI:i:" p0); eauto. }
  rewrite Q.
  destruct (IH (j + 1)) as [qs ->]; [|simpl; eauto].
  intros c p Hp Hj. apply (H (S c) p Hp). lia.
Qed.

(** The loop over the lines runs to its end when the flag of a new primary
    alignment is a number. *)
Lemma rewrite_lines_total (rest : list string) :
  forall i : Z,
  (forall n s p, nth_error rest n = Some s -> primary = i + Z.of_nat n ->
                 nth_error (getline_parts s) 1 = Some p -> stoull p <> None) ->
  snd (rewrite_lines size (to_string m) primary i rest) = true.
Proof.
  induction rest as [|s rest IH]; intros i H; simpl; [reflexivity|].
  unfold rewrite_line.
  destruct (rewrite_parts_total i (getline_parts s) 0) as [ps' ->].
  { intros c p Hp Hc E. apply (H 0%nat s p eq_refl); [lia|].
    now replace c with 1%nat in Hp by lia. }
  simpl. specialize (IH (i + 1)).
  destruct (rewrite_lines size (to_string m) primary (i + 1) rest) as [ls ok].
  simpl in *. apply IH. intros n s' p Hs Hn. apply (H (S n) s' p Hs). lia.
Qed.

End RewriteGroup.

(** What the block writes for a group: every line written is the rewriting
    of the line of the same index, with the number of lines as [size], in
    the order of the group; a new primary alignment, the first line, is
    chosen exactly when [primary] is [(size_t)-1]. *)
Lemma after_rewrite_spec {G} (st : state G) (line : string)
    (group : list string) (primary : Z) :
  exists emitted ds,
    out (after_rewrite st line group primary) = out st ++ emitted /\
    err (after_rewrite st line group primary) = err st ++ ds /\
    (mode_of (after_rewrite st line group primary) = Top /\
     List.length emitted = List.length group \/
     exists h, mode_of (after_rewrite st line group primary) = Halted h) /\
    forall n o, nth_error emitted n = Some o ->
      exists s, nth_error group n = Some s /\
        rewrite_line (Z.of_nat (List.length group))
          (to_string (mapq_score (Z.of_nat (List.length group))))
          (if primary =? SIZE_MAX then 0 else SIZE_MAX) (Z.of_nat n) s = Some o.
Proof.
  unfold after_rewrite, rewrite_group.
  destruct (primary =? SIZE_MAX).
  - destruct (cigars_of group) as [code | cigars].
    + exists [], [NotEnoughColumns line]. simpl. repeat split; eauto.
      intros [|n] o; discriminate.
    + destruct (rewrite_lines _ _ 0 0 group) as [ls ok] eqn:R.
      destruct (rewrite_lines_nth _ _ _ _ _ _ _ R) as (A & B & C).
      exists ls, (cigar_warnings line cigars).
      destruct ok; simpl; repeat split; eauto.
  - destruct (rewrite_lines _ _ SIZE_MAX 0 group) as [ls ok] eqn:R.
    destruct (rewrite_lines_nth _ _ _ _ _ _ _ R) as (A & B & C).
    exists ls, []. destruct ok; simpl; repeat split; eauto.
Qed.

(** ** The lines of a rewritten group *)

Section LineProperties.
Variables (size m primary i : Z) (s o : string).
Hypothesis written :
  rewrite_line size (to_string m) primary i s = Some o.

Lemma written_NH (f : string) :
  In f (columns o) -> is_NH f = true -> f = ("NH:i:" ++ to_string size)%string.
Proof.
  intros Hin N. apply In_nth_error in Hin as [c Hc].
  destruct (rewrite_line_columns _ _ _ _ _ _ written c f Hc)
    as [[_ ->] | (p & _ & R)]; [discriminate N|].
  now apply (rewrite_part_written _ _ _ _ _ _ _ R).
Qed.

Lemma written_HI (f : string) :
  In f (columns o) -> is_HI f = true -> f = ("HI:i:" ++ to_string (i + 1))%string.
Proof.
  intros Hin N. apply In_nth_error in Hin as [c Hc].
  destruct (rewrite_line_columns _ _ _ _ _ _ written c f Hc)
    as [[_ ->] | (p & _ & R)]; [discriminate N|].
  now apply (rewrite_part_written _ _ _ _ _ _ _ R).
Qed.

Lemma written_mapq_only (f : string) :
  nth_error (columns o) 4 = Some f -> f = to_string m.
Proof.
  intros Hc.
  destruct (rewrite_line_columns _ _ _ _ _ _ written 4%nat f Hc)
    as [[E _] | (p & _ & R)]; [discriminate E|].
  simpl in R. rewrite rewrite_part_mapq in R. congruence.
Qed.

Lemma written_mapq (p : string) :
  nth_error (getline_parts s) 4 = Some p ->
  nth_error (columns o) 4 = Some (to_string m).
Proof.
  intros Hp.
  destruct (rewrite_line_part _ _ _ _ _ _ _ _ written Hp) as (f & A & B).
  simpl in B. rewrite rewrite_part_mapq in B. congruence.
Qed.

Lemma tag_not_empty (p : string) :
  is_NH p = true \/ is_HI p = true -> p <> EmptyString.
Proof. intros [H | H] ->; discriminate H. Qed.

Lemma index_cases (c : nat) :
  c <> 4%nat -> (c <> 1%nat \/ primary <> i) ->
  Z.of_nat c + 1 <> 5 /\ (Z.of_nat c + 1 <> 2 \/ primary <> i).
Proof. intros H4 H1. split; lia. Qed.

Lemma written_keeps_NH (c : nat) (p : string) :
  nth_error (columns s) c = Some p -> is_NH p = true ->
  c <> 4%nat -> (c <> 1%nat \/ primary <> i) ->
  nth_error (columns o) c = Some ("NH:i:" ++ to_string size)%string.
Proof.
  intros Hc N H4 H1. destruct (index_cases c H4 H1) as [J5 J2].
  apply column_getline_part in Hc; [|apply tag_not_empty; now left].
  destruct (rewrite_line_part _ _ _ _ _ _ _ _ written Hc) as (f & A & B).
  rewrite rewrite_part_NH in B by assumption. congruence.
Qed.

Lemma written_keeps_HI (c : nat) (p : string) :
  nth_error (columns s) c = Some p -> is_HI p = true ->
  c <> 4%nat -> (c <> 1%nat \/ primary <> i) ->
  nth_error (columns o) c = Some ("HI:i:" ++ to_string (i + 1))%string.
Proof.
  intros Hc H H4 H1. destruct (index_cases c H4 H1) as [J5 J2].
  apply column_getline_part in Hc; [|apply tag_not_empty; now right].
  destruct (rewrite_line_part _ _ _ _ _ _ _ _ written Hc) as (f & A & B).
  destruct (is_NH p) eqn:N.
  - apply prefix_head in N as [r ->]. discriminate H.
  - rewrite rewrite_part_HI in B by assumption. congruence.
Qed.

Lemma written_keeps_other (c : nat) (p : string) :
  nth_error (getline_parts s) c = Some p ->
  is_NH p = false -> is_HI p = false ->
  c <> 4%nat -> (c <> 1%nat \/ primary <> i) ->
  nth_error (columns o) c = Some p.
Proof.
  intros Hc N H H4 H1. destruct (index_cases c H4 H1) as [J5 J2].
  destruct (rewrite_line_part _ _ _ _ _ _ _ _ written Hc) as (f & A & B).
  rewrite rewrite_part_same in B by assumption. congruence.
Qed.

(** The flag of a line that is not made primary stays, when it is a number. *)
Lemma written_keeps_flag (f : string) (v : Z) :
  primary <> i ->
  nth_error (getline_parts s) 1 = Some f -> stoull f = Some v ->
  nth_error (columns o) 1 = Some f.
Proof.
  intros Hp Hf Hv. destruct (stoull_not_tag f v Hv) as [N H].
  apply written_keeps_other; auto.
Qed.

(** The flag of the line that is made primary has its bit 256 flipped. *)
Lemma written_new_flag (f : string) (v : Z) :
  primary = i ->
  nth_error (getline_parts s) 1 = Some f -> stoull f = Some v ->
  nth_error (columns o) 1 = Some (to_string (Z.lxor v 256)).
Proof.
  intros Hp Hf Hv.
  destruct (rewrite_line_part _ _ _ _ _ _ _ _ written Hf) as (f' & A & B).
  simpl in B. rewrite rewrite_part_flag in B by exact Hp.
  rewrite Hv in B. simpl in B. congruence.
Qed.

End LineProperties.

(** ** The states of a run *)

Lemma fold_halted {G} (step : state G -> string -> state G)
    (lines : list string) (st : state G) :
  (forall st l h, mode_of st = Halted h -> step st l = st) ->
  forall h, mode_of st = Halted h -> fold_left step lines st = st.
Proof.
  intros Hstep h. induction lines as [|l lines IH]; intros H; simpl.
  - reflexivity.
  - rewrite (Hstep st l h H). exact (IH H).
Qed.

Lemma last_cons {A} (xs : list A) :
  forall x d, last (x :: xs) d = last xs x.
Proof.
  induction xs as [|y xs IH]; intros x d; [reflexivity|].
  change (last (x :: y :: xs) d) with (last (y :: xs) d).
  now rewrite !IH.
Qed.

(** ** filter_reverse_reads: the collection of a group *)

Module ReverseFacts.
Import FilterReverseReads.

Lemma reverse_step_halted (file : string) (st : state group_state) (l : string)
    (h : halt) :
  mode_of st = Halted h -> step file st l = st.
Proof. unfold step. now intros ->. Qed.

Lemma reverse_process_halted (file : string) (lines : list string)
    (st : state group_state) (h : halt) :
  mode_of st = Halted h -> process file st lines = st.
Proof. apply fold_halted. apply reverse_step_halted. Qed.

(** A line that the filter keeps has a FLAG, and [primary_flag] tells
    whether the line is marked as primary. *)
Lemma forward_primary_flag (line : string) :
  forward line = true ->
  forward_flag line = ([], Some true) /\
  primary_flag line = ([], Some (marked_primary line)) /\
  exists f v, nth_error (getline_parts line) 1 = Some f /\ stoull f = Some v /\
              flag_value line = Some v.
Proof.
  unfold forward, forward_flag, primary_flag, marked_primary, flag_value,
    flag_field.
  rewrite !check_flag_columns.
  assert (P : forall a f b rest, columns line = a :: f :: b :: rest ->
                nth_error (getline_parts line) 1 = Some f).
  { intros a f b rest C.
    destruct (columns_getline_parts line) as [E | E]; rewrite C in E.
    - now rewrite <- E.
    - destruct (getline_parts line) as [|a' [|f' rest']]; simpl in E;
        try discriminate.
      now injection E as -> -> _. }
  destruct (columns line) as [|a [|f [|b rest]]]; simpl; try discriminate.
  specialize (P a f b rest eq_refl).
  destruct (stoull f) as [v|] eqn:V; simpl; [|discriminate].
  destruct (Z.land v 16 =? 0); [|discriminate]. intros _.
  repeat split. exists f, v. auto.
Qed.

Lemma sound_empty : sound empty_group.
Proof. split; [constructor | left; split; [reflexivity | intros s []]]. Qed.

Lemma reverse_collect_spec (line : string) (g : group_state) (ds : list diag)
    (g' : group_state) :
  collect line g = (ds, Some g') ->
  Z.of_nat (List.length (group g)) < SIZE_MAX ->
  sound g ->
  group g' = group g ++ filter forward [line] /\
  modification g' = (modification g || negb (forward line))%bool /\
  sound g'.
Proof.
  unfold collect. intros H L [F P].
  destruct (forward line) eqn:K.
  - destruct (forward_primary_flag line K) as (E1 & E2 & _).
    rewrite E1, E2 in H. injection H as <- <-. simpl. rewrite K. simpl.
    rewrite orb_false_r. repeat split; auto.
    + apply Forall_app. split; [exact F | now repeat constructor].
    + cbn [group primary].
      destruct (marked_primary line) eqn:M.
      * right. split; [lia|]. exists line. split; [|exact M].
        apply in_or_app. right. now left.
      * destruct P as [[P1 P2] | [P1 (s & S1 & S2)]].
        -- left. split; [exact P1|]. intros s Hs.
           apply in_app_or in Hs as [Hs | [<- | []]]; auto.
        -- right. split; [exact P1|]. exists s. split; [|exact S2].
           apply in_or_app. now left.
  - pose proof K as K'. unfold forward in K'.
    destruct (forward_flag line) as [ds0 [[|]|]]; simpl in K';
      try discriminate.
    injection H as <- <-. simpl. rewrite K. simpl.
    rewrite orb_true_r, app_nil_r. repeat split; auto.
Qed.

(** Only a FLAG that is not a number stops the collection. *)
Lemma reverse_collect_throws (line : string) (g : group_state) (ds : list diag) :
  collect line g = (ds, None) -> snd (forward_flag line) = None.
Proof.
  unfold collect. destruct (forward line) eqn:K.
  - destruct (forward_primary_flag line K) as (E1 & E2 & _).
    rewrite E1, E2. discriminate.
  - unfold forward in K.
    destruct (forward_flag line) as [ds0 [[|]|]]; simpl in *;
      try discriminate. reflexivity.
Qed.

Section Loop.
Variable file : string.

(** From the collection of one line of a group to the end of the [for]
    loop, over the lines [conts] that the loop still has to read. *)
Lemma reverse_collect_loop (conts : list string) :
  forall (line : string) (st : state group_state) (i count : Z)
         (g : group_state),
  i + Z.of_nat (List.length conts) = count ->
  count <= SIZE_MAX ->
  Z.of_nat (List.length (group g)) < i ->
  sound g ->
  let st' := process file (collect_and_test st line i count g) conts in
  (mode_of st' = Halted Uncaught /\ out st' = out st /\
   exists l, In l (line :: conts) /\ snd (forward_flag l) = None) \/
  exists st0 g',
    st' = finish_group st0 (last conts line) g' /\
    out st0 = out st /\
    group g' = group g ++ filter forward (line :: conts) /\
    modification g' =
      (modification g || negb (forallb forward (line :: conts)))%bool /\
    sound g'.
Proof.
  induction conts as [|l conts IH]; intros line st i count g Hi Hc Hg Hs;
    unfold collect_and_test; destruct (collect line g) as [ds [g1|]] eqn:C.
  - simpl in Hi. replace (i <? count) with false by (symmetry; apply Z.ltb_ge; lia).
    destruct (reverse_collect_spec _ _ _ _ C ltac:(lia) Hs) as (A & B & S).
    right. exists (warn st ds), g1. simpl. rewrite andb_true_r.
    split; [reflexivity|]. split; [reflexivity|].
    split; [exact A|]. split; [exact B | exact S].
  - left. simpl. repeat split.
    exists line. split; [now left | exact (reverse_collect_throws _ _ _ C)].
  - replace (i <? count) with true
      by (symmetry; apply Z.ltb_lt; simpl List.length in Hi; lia).
    destruct (reverse_collect_spec _ _ _ _ C ltac:(lia) Hs) as (A & B & S).
    cbv zeta. unfold process. cbn [fold_left].
    change (step file (set_mode (warn st ds) (InGroup i count g1)) l)
      with (collect_and_test (set_mode (warn st ds) (InGroup i count g1))
              l (i + 1) count g1).
    specialize (IH l (set_mode (warn st ds) (InGroup i count g1)) (i + 1)
                  count g1).
    cbv zeta in IH. unfold process in IH.
    destruct IH as [(M & O & x & X1 & X2) | (st0 & g' & E & O & A' & B' & S')].
    + simpl List.length in Hi. lia.
    + exact Hc.
    + rewrite A, length_app. simpl. destruct (forward line); simpl; lia.
    + exact S.
    + left. split; [exact M | split; [exact O|]].
      exists x. split; [now right | exact X2].
    + right. exists st0, g'. split; [|split; [exact O|split; [|split]]].
      * rewrite E. now rewrite last_cons.
      * rewrite A', A. simpl. destruct (forward line); simpl;
          now rewrite <- ?app_assoc.
      * rewrite B', B. simpl. destruct (forward line), (forward l); simpl;
          now rewrite ?orb_true_r, ?orb_false_r.
      * exact S'.
  - left. unfold process.
    rewrite (fold_halted _ _ _ (reverse_step_halted file) Uncaught) by reflexivity.
    simpl. repeat split.
    exists line. split; [now left | exact (reverse_collect_throws _ _ _ C)].
Qed.

(** The first line of a group, read by the [while] loop. *)
Lemma reverse_step_first (st : state group_state) (first : string) (count : Z) :
  mode_of st = Top -> is_empty first = false -> is_header first = false ->
  read_count first = Declared count -> count <> 1 ->
  step file st first = collect_and_test st first 1 count empty_group.
Proof.
  intros M E H R C. unfold step. rewrite M, E, H, R.
  apply Z.eqb_neq in C. now rewrite C.
Qed.

(** A group of [count] lines, from its first line to the end of the [for]
    loop: the run stops on an exception without writing anything, or it
    reaches [finish_group] with the kept lines in their order. *)
Lemma reverse_group_collected (st : state group_state) (first : string)
    (conts : list string) (count : Z) :
  mode_of st = Top -> is_empty first = false -> is_header first = false ->
  read_count first = Declared count -> count <> 1 ->
  Z.of_nat (List.length (first :: conts)) = count ->
  let st' := process file st (first :: conts) in
  (mode_of st' = Halted Uncaught /\ out st' = out st /\
   exists l, In l (first :: conts) /\ snd (forward_flag l) = None) \/
  exists st0 g,
    st' = finish_group st0 (last conts first) g /\
    out st0 = out st /\
    group g = filter forward (first :: conts) /\
    modification g = negb (forallb forward (first :: conts)) /\
    sound g.
Proof.
  intros M E H R C L. unfold process. simpl fold_left.
  rewrite (reverse_step_first st first count M E H R C).
  pose proof (read_count_range _ _ R) as Rg.
  destruct (reverse_collect_loop conts first st 1 count empty_group) as [X | X].
  - simpl List.length in L. lia.
  - lia.
  - simpl. lia.
  - apply sound_empty.
  - now left.
  - right. destruct X as (st0 & g & X1 & X2 & X3 & X4 & X5).
    exists st0, g. split; [exact X1|]. split; [exact X2|].
    split; [exact X3|]. split; [exact X4 | exact X5].
Qed.

End Loop.
End ReverseFacts.

(** ** select_transcripts: the collection of a group *)

Module SelectFacts.
Import SelectTranscripts.

Lemma select_step_halted (ids : list string) (file : string)
    (st : state group_state) (l : string) (h : halt) :
  mode_of st = Halted h -> step ids file st l = st.
Proof. unfold step. now intros ->. Qed.

Lemma select_process_halted (ids : list string) (file : string)
    (lines : list string) (st : state group_state) (h : halt) :
  mode_of st = Halted h -> process ids file st lines = st.
Proof. apply fold_halted. apply select_step_halted. Qed.

Section Loop.
Variables (ids : list string) (file : string).

Lemma select_collect_spec (line : string) (g : group_state) (ds : list diag)
    (g' : group_state) :
  collect ids line g = (ds, Some g') ->
  group g' = group g ++ filter (selected ids) [line].
Proof.
  unfold collect, selected. simpl.
  destruct (extract_transcript_id line) as [ds0 id]. simpl.
  destruct (listed ids id).
  - destruct (primary_flag line) as [ds1 [p|]]; [|discriminate].
    now intros [= <- <-].
  - intros [= <- <-]. now rewrite app_nil_r.
Qed.

(** Only the FLAG of a kept line, when it is not a number, stops the
    collection. *)
Lemma select_collect_throws (line : string) (g : group_state) (ds : list diag) :
  collect ids line g = (ds, None) ->
  selected ids line = true /\ snd (primary_flag line) = None.
Proof.
  unfold collect, selected.
  destruct (extract_transcript_id line) as [ds0 id]. simpl.
  destruct (listed ids id); [|discriminate].
  destruct (primary_flag line) as [ds1 [p|]]; [discriminate|]. now split.
Qed.

Lemma select_collect_loop (conts : list string) :
  forall (line : string) (st : state group_state) (i count : Z)
         (g : group_state),
  i + Z.of_nat (List.length conts) = count ->
  let st' := process ids file (collect_and_test ids st line i count g) conts in
  (mode_of st' = Halted Uncaught /\ out st' = out st /\
   exists l, In l (line :: conts) /\ selected ids l = true /\
             snd (primary_flag l) = None) \/
  exists st0 g',
    st' = finish_group st0 (last conts line) count g' /\
    out st0 = out st /\
    group g' = group g ++ filter (selected ids) (line :: conts).
Proof.
  induction conts as [|l conts IH]; intros line st i count g Hi;
    unfold collect_and_test; destruct (collect ids line g) as [ds [g1|]] eqn:C.
  - simpl in Hi.
    replace (i <? count) with false by (symmetry; apply Z.ltb_ge; lia).
    right. exists (warn st ds), g1. simpl.
    split; [reflexivity|]. split; [reflexivity|].
    exact (select_collect_spec _ _ _ _ C).
  - left. simpl. repeat split.
    exists line. split; [now left | exact (select_collect_throws _ _ _ C)].
  - replace (i <? count) with true
      by (symmetry; apply Z.ltb_lt; simpl List.length in Hi; lia).
    pose proof (select_collect_spec _ _ _ _ C) as A.
    cbv zeta. unfold process. cbn [fold_left].
    change (step ids file (set_mode (warn st ds) (InGroup i count g1)) l)
      with (collect_and_test ids (set_mode (warn st ds) (InGroup i count g1))
              l (i + 1) count g1).
    specialize (IH l (set_mode (warn st ds) (InGroup i count g1)) (i + 1)
                  count g1).
    cbv zeta in IH. unfold process in IH.
    destruct IH as [(M & O & x & X1 & X2) | (st0 & g' & E & O & A')].
    + simpl List.length in Hi. lia.
    + left. split; [exact M | split; [exact O|]].
      exists x. split; [now right | exact X2].
    + right. exists st0, g'. split; [|split; [exact O|]].
      * rewrite E. now rewrite last_cons.
      * rewrite A', A. simpl. destruct (selected ids line); simpl;
          now rewrite <- ?app_assoc.
  - left. unfold process.
    rewrite (fold_halted _ _ _ (select_step_halted ids file) Uncaught) by reflexivity.
    simpl. repeat split.
    exists line. split; [now left | exact (select_collect_throws _ _ _ C)].
Qed.

Lemma select_step_first (st : state group_state) (first : string) (count : Z) :
  mode_of st = Top -> is_empty first = false -> is_header first = false ->
  read_count first = Declared count -> count <> 1 ->
  step ids file st first = collect_and_test ids st first 1 count empty_group.
Proof.
  intros M E H R C. unfold step. rewrite M, E, H, R.
  apply Z.eqb_neq in C. now rewrite C.
Qed.

(** A group of [count] lines, from its first line to the end of the [for]
    loop. *)
Lemma select_group_collected (st : state group_state) (first : string)
    (conts : list string) (count : Z) :
  mode_of st = Top -> is_empty first = false -> is_header first = false ->
  read_count first = Declared count -> count <> 1 ->
  Z.of_nat (List.length (first :: conts)) = count ->
  let st' := process ids file st (first :: conts) in
  (mode_of st' = Halted Uncaught /\ out st' = out st /\
   exists l, In l (first :: conts) /\ selected ids l = true /\
             snd (primary_flag l) = None) \/
  exists st0 g,
    st' = finish_group st0 (last conts first) count g /\
    out st0 = out st /\
    group g = filter (selected ids) (first :: conts).
Proof.
  intros M E H R C L. unfold process. cbn [fold_left].
  rewrite (select_step_first st first count M E H R C).
  destruct (select_collect_loop conts first st 1 count empty_group) as [X | X].
  - simpl List.length in L. lia.
  - now left.
  - right. exact X.
Qed.

End Loop.
End SelectFacts.

(** ** filter_ambiguous_genes: the collection of a group *)

Module AmbiguousFacts.
Import FilterAmbiguousGenes.

Lemma ambiguous_step_halted (tg : gene_map) (ann file : string)
    (st : state group_state) (l : string) (h : halt) :
  mode_of st = Halted h -> step tg ann file st l = st.
Proof. unfold step. now intros ->. Qed.

Lemma ambiguous_process_halted (tg : gene_map) (ann file : string)
    (lines : list string) (st : state group_state) (h : halt) :
  mode_of st = Halted h -> process tg ann file st lines = st.
Proof. apply fold_halted. apply ambiguous_step_halted. Qed.

Section Loop.
Variables (tg : gene_map) (ann file : string).

(** The body of the [for] loop for a line that resolves to a gene. *)
Lemma step_known (st : state group_state) (i count : Z) (g : group_state)
    (l gene : string) :
  mode_of st = InGroup i count g -> gene_of tg l = Some gene ->
  step tg ann file st l =
  test (warn st (fst (extract_transcript_id l))) (i + 1) count
    (mkGroup (if String.eqb (first_gene g) gene then group g ++ [l] else [])
       (first_gene g)).
Proof.
  intros M G. unfold step. rewrite M. unfold collect.
  unfold gene_of in G. destruct (extract_transcript_id l) as [ds id].
  simpl in G |- *. rewrite G. now destruct (String.eqb (first_gene g) gene).
Qed.

(** The body of the [for] loop for a line of an unknown transcript. *)
Lemma step_unknown (st : state group_state) (i count : Z) (g : group_state)
    (l : string) :
  mode_of st = InGroup i count g -> gene_of tg l = None ->
  mode_of (step tg ann file st l) = Halted (Returned 7) /\
  out (step tg ann file st l) = out st.
Proof.
  intros M G. unfold step. rewrite M. unfold collect.
  unfold gene_of in G. destruct (extract_transcript_id l) as [ds id].
  simpl in G |- *. rewrite G. now split.
Qed.

(** After the loop test of index [i], over the lines [conts] that the loop
    still has to read, all of which resolve to a gene: the group is written
    exactly when it holds every line read so far and every line of [conts]
    resolves to the gene of the first line. *)
Lemma test_loop (conts : list string) :
  forall (st : state group_state) (i count : Z) (g : group_state),
  i + Z.of_nat (List.length conts) = count ->
  Z.of_nat (List.length (group g)) <= i ->
  Forall (fun l => gene_of tg l <> None) conts ->
  let st' := process tg ann file (test st i count g) conts in
  mode_of st' = Top /\
  out st' = out st ++
    (if ((Z.of_nat (List.length (group g)) =? i)
         && forallb (same_gene tg (first_gene g)) conts)%bool
     then group g ++ conts else []).
Proof.
  induction conts as [|l conts IH]; intros st i count g Hi Hg F; unfold test.
  - simpl in Hi. replace (i <? count) with false
      by (symmetry; apply Z.ltb_ge; lia).
    simpl. unfold finish_group. subst count. rewrite Z.add_0_r.
    rewrite andb_true_r.
    destruct (Z.of_nat (List.length (group g)) =? i); simpl;
      now rewrite ?app_nil_r.
  - replace (i <? count) with true
      by (symmetry; apply Z.ltb_lt; simpl List.length in Hi; lia).
    apply Forall_cons_iff in F as [Fl Fc].
    destruct (gene_of tg l) as [gene|] eqn:G; [clear Fl | congruence].
    cbv zeta. unfold process. cbn [fold_left].
    rewrite (step_known (set_mode st (InGroup i count g)) i count g l gene
               eq_refl G).
    cbn [forallb]. unfold same_gene at 1. rewrite G.
    match goal with
    | |- context [test ?s (i + 1) count ?g2] =>
        specialize (IH s (i + 1) count g2)
    end.
    cbv zeta in IH. unfold process in IH.
    destruct IH as [M O].
    + simpl List.length in Hi. lia.
    + cbn [group]. destruct (String.eqb (first_gene g) gene);
        [rewrite length_app|]; simpl; lia.
    + exact Fc.
    + split; [exact M|]. rewrite O. cbn [group first_gene out warn set_mode].
      destruct (String.eqb (first_gene g) gene); cbn [andb].
      * rewrite length_app. cbn [List.length].
        replace (Z.of_nat (List.length (group g) + 1) =? i + 1)
          with (Z.of_nat (List.length (group g)) =? i).
        2:{ destruct (Z.eqb_spec (Z.of_nat (List.length (group g))) i);
              symmetry; [apply Z.eqb_eq | apply Z.eqb_neq]; lia. }
        now rewrite <- app_assoc.
      * replace (Z.of_nat (List.length (@nil string)) =? i + 1) with false
          by (symmetry; apply Z.eqb_neq; simpl; lia).
        now rewrite andb_false_r.
Qed.

(** An unknown transcript among the lines that the loop reads stops the
    run with the code 7, and nothing is written. *)
Lemma test_loop_unknown (conts : list string) :
  forall (st : state group_state) (i count : Z) (g : group_state),
  i + Z.of_nat (List.length conts) <= count ->
  Exists (fun l => gene_of tg l = None) conts ->
  let st' := process tg ann file (test st i count g) conts in
  mode_of st' = Halted (Returned 7) /\ out st' = out st.
Proof.
  induction conts as [|l conts IH]; intros st i count g Hi X; unfold test;
    [inversion X|].
  replace (i <? count) with true
    by (symmetry; apply Z.ltb_lt; simpl List.length in Hi; lia).
  cbv zeta. unfold process. cbn [fold_left].
  destruct (gene_of tg l) as [gene|] eqn:G.
  - assert (Xc : Exists (fun l => gene_of tg l = None) conts).
    { apply Exists_cons in X as [Xl | Xc']; [congruence | exact Xc']. }
    rewrite (step_known (set_mode st (InGroup i count g)) i count g l gene
               eq_refl G).
    match goal with
    | |- context [test ?s (i + 1) count ?g2] =>
        apply (IH s (i + 1) count g2)
    end; [simpl List.length in Hi; lia | exact Xc].
  - destruct (step_unknown (set_mode st (InGroup i count g)) i count g l
                eq_refl G) as [M O].
    rewrite (fold_halted _ _ _ (ambiguous_step_halted tg ann file) (Returned 7) M).
    split; [exact M | exact O].
Qed.

End Loop.
End AmbiguousFacts.

(** ** The tags and the mapping quality of a rewritten group *)

Lemma substring_all (t : string) : String.substring 0 (String.length t) t = t.
Proof. induction t as [|c t IH]; simpl; [reflexivity | now rewrite IH]. Qed.

Lemma substr_from_key (key t : string) :
  substr_from (key ++ t) (String.length key) = t.
Proof.
  unfold substr_from. induction key as [|c key IH]; simpl.
  - rewrite Nat.sub_0_r. apply substring_all.
  - exact IH.
Qed.

(** The tag that is written for a number reads back as the number. *)
Lemma tag_value_written (key : string) (n : Z) :
  String.length key = 5%nat -> 0 <= n <= SIZE_MAX ->
  tag_value (key ++ to_string n) = Some n.
Proof.
  intros L Hn. unfold tag_value. rewrite <- L, substr_from_key.
  now apply stoull_to_string.
Qed.

Lemma columns_cases (s : string) (c : nat) (p : string) :
  nth_error (columns s) c = Some p ->
  nth_error (getline_parts s) c = Some p \/
  (p = EmptyString /\ c = List.length (getline_parts s)).
Proof.
  intros H. destruct (columns_getline_parts s) as [E | E]; rewrite E in H;
    [now left|].
  destruct (Nat.lt_ge_cases c (List.length (getline_parts s))) as [L | L].
  - left. now rewrite nth_error_app1 in H.
  - right. rewrite nth_error_app2 in H by exact L.
    destruct (c - List.length (getline_parts s))%nat as [|n] eqn:D; simpl in H.
    + split; [congruence | lia].
    + destruct n; discriminate.
Qed.

Lemma columns_length (s : string) :
  (List.length (columns s) <= List.length (getline_parts s) + 1)%nat.
Proof.
  destruct (columns_getline_parts s) as [-> | ->];
    [|rewrite length_app; simpl]; lia.
Qed.

(** The columns of a written line are as many as the parts of the line
    read, but for the empty line. *)
Lemma rewrite_line_length (size m primary i : Z) (s o : string) :
  rewrite_line size (to_string m) primary i s = Some o ->
  (getline_parts s = [] /\ columns o = [EmptyString]) \/
  List.length (columns o) = List.length (getline_parts s).
Proof.
  unfold rewrite_line.
  destruct (rewrite_parts size (to_string m) primary i 0 (getline_parts s))
    as [ps'|] eqn:R; [|discriminate].
  intros [= <-]. destruct (rewrite_parts_nth _ _ _ _ _ _ _ R) as [L _].
  destruct ps' as [|q qs].
  - left. split; [|reflexivity]. now destruct (getline_parts s).
  - right. rewrite columns_join_tabs;
      [exact L | discriminate
      |exact (rewrite_parts_no_tab _ _ _ _ _ _ _ R (getline_parts_no_tab s))].
Qed.

Section Rewritten.
Variables (group emitted : list string) (m primary : Z).
Hypothesis lines_written :
  forall n o, nth_error emitted n = Some o ->
    exists s, nth_error group n = Some s /\
      rewrite_line (Z.of_nat (List.length group)) (to_string m) primary
        (Z.of_nat n) s = Some o.

Lemma rewritten_renumbered :
  Z.of_nat (List.length group) <= SIZE_MAX -> renumbered group emitted.
Proof.
  intros Hk i o Ho. destruct (lines_written i o Ho) as (s & Hs & W).
  assert (Hi : (i < List.length group)%nat)
    by (apply nth_error_Some; congruence).
  exists s. split; [exact Hs|]. split; [|split].
  - intros f Hf N. rewrite (written_NH _ _ _ _ _ _ W f Hf N).
    split; [reflexivity|]. apply tag_value_written; [reflexivity | lia].
  - intros f Hf N. rewrite (written_HI _ _ _ _ _ _ W f Hf N).
    split; [reflexivity|]. apply tag_value_written; [reflexivity | lia].
  - intros c p Hc C1 C4.
    destruct (columns_cases s c p Hc) as [P | [-> ->]].
    + left. destruct (is_NH p) eqn:N; [|destruct (is_HI p) eqn:H].
      * apply (written_keeps_NH _ _ _ _ _ _ W c p); auto.
      * apply (written_keeps_HI _ _ _ _ _ _ W c p); auto.
      * apply (written_keeps_other _ _ _ _ _ _ W c p); auto.
    + destruct (rewrite_line_length _ _ _ _ _ _ W) as [[E1 E2] | L].
      * left. rewrite E1, E2. reflexivity.
      * right. split; [reflexivity|]. apply nth_error_None. lia.
Qed.

Lemma rewritten_requalified :
  m = mapq_score (Z.of_nat (List.length group)) -> requalified group emitted.
Proof.
  intros -> i o Ho. destruct (lines_written i o Ho) as (s & Hs & W).
  exists s. split; [exact Hs|]. split.
  - intros f Hf. exact (written_mapq_only _ _ _ _ _ _ W f Hf).
  - intros L. pose proof (columns_length s) as L'.
    destruct (nth_error (getline_parts s) 4) as [p|] eqn:P.
    + exact (written_mapq _ _ _ _ _ _ W p P).
    + apply nth_error_None in P. lia.
Qed.

End Rewritten.

(** What the rewriting block writes, for the claims on the tags and on the
    mapping quality. *)
Lemma after_rewrite_lines {G} (st : state G) (line : string)
    (group : list string) (primary : Z) :
  Z.of_nat (List.length group) <= SIZE_MAX ->
  exists emitted,
    out (after_rewrite st line group primary) = out st ++ emitted /\
    (mode_of (after_rewrite st line group primary) = Top ->
     List.length emitted = List.length group) /\
    renumbered group emitted /\ requalified group emitted.
Proof.
  intros Hk.
  destruct (after_rewrite_spec st line group primary)
    as (emitted & ds & O & _ & M & W).
  exists emitted. split; [exact O|]. split; [|split].
  - destruct M as [[_ L] | [h ->]]; [auto | discriminate].
  - now apply (rewritten_renumbered group emitted _ _ W).
  - now apply (rewritten_requalified group emitted _ _ W).
Qed.

(** ** Reduced groups *)

Lemma filter_shorter {A} (f : A -> bool) (l : list A) :
  (List.length (filter f l) < List.length l)%nat -> forallb f l = false.
Proof.
  induction l as [|a l IH]; simpl; [lia|].
  destruct (f a); simpl; [|reflexivity]. intros H. apply IH. lia.
Qed.

Lemma filter_all {A} (f : A -> bool) (l : list A) :
  forallb f l = true -> filter f l = l.
Proof.
  induction l as [|a l IH]; simpl; [reflexivity|].
  destruct (f a); simpl; [|discriminate]. intros H. now rewrite (IH H).
Qed.

Lemma renumbered_nil (survivors : list string) : renumbered survivors [].
Proof. intros [|i] o H; discriminate H. Qed.

Lemma requalified_nil (survivors : list string) : requalified survivors [].
Proof. intros [|i] o H; discriminate H. Qed.

(** A reduced group of the reverse-strand filter goes through the rewriting
    block, unless an exception stops the run before anything is written. *)
Lemma reverse_group_reduced (file : string) (st : state FilterReverseReads.group_state)
    (first : string) (conts : list string) (count : Z) :
  mode_of st = Top -> is_empty first = false -> is_header first = false ->
  read_count first = Declared count ->
  Z.of_nat (List.length (first :: conts)) = count ->
  (1 <= List.length (filter forward (first :: conts))
     < List.length (first :: conts))%nat ->
  let st' := FilterReverseReads.process file st (first :: conts) in
  (mode_of st' = Halted Uncaught /\ out st' = out st) \/
  exists st0 g,
    st' = after_rewrite st0 (last conts first) (FilterReverseReads.group g)
            (FilterReverseReads.primary g) /\
    out st0 = out st /\
    FilterReverseReads.group g = filter forward (first :: conts) /\
    sound g.
Proof.
  intros M E H R L K.
  assert (C : count <> 1) by (simpl List.length in *; lia).
  destruct (ReverseFacts.reverse_group_collected file st first conts count M E H R C L)
    as [(X1 & X2 & _) | (st0 & g & X1 & X2 & X3 & X4 & X5)].
  - left. now split.
  - right. exists st0, g. split; [|split; [exact X2 | split; [exact X3 | exact X5]]].
    cbv zeta. rewrite X1. unfold FilterReverseReads.finish_group.
    rewrite X4, (filter_shorter forward (first :: conts)) by lia.
    reflexivity.
Qed.

(** The same for the allow-list filter. *)
Lemma select_group_reduced (ids : list string) (file : string)
    (st : state SelectTranscripts.group_state)
    (first : string) (conts : list string) (count : Z) :
  mode_of st = Top -> is_empty first = false -> is_header first = false ->
  read_count first = Declared count ->
  Z.of_nat (List.length (first :: conts)) = count ->
  (1 <= List.length (filter (selected ids) (first :: conts))
     < List.length (first :: conts))%nat ->
  let st' := SelectTranscripts.process ids file st (first :: conts) in
  (mode_of st' = Halted Uncaught /\ out st' = out st) \/
  exists st0 g,
    st' = after_rewrite st0 (last conts first) (SelectTranscripts.group g)
            (SelectTranscripts.primary g) /\
    out st0 = out st /\
    SelectTranscripts.group g = filter (selected ids) (first :: conts).
Proof.
  intros M E H R L K.
  assert (C : count <> 1) by (simpl List.length in *; lia).
  destruct (SelectFacts.select_group_collected ids file st first conts count M E H R C L)
    as [(X1 & X2 & _) | (st0 & g & X1 & X2 & X3)].
  - left. now split.
  - right. exists st0, g. split; [|split; [exact X2 | exact X3]].
    cbv zeta. rewrite X1. unfold SelectTranscripts.finish_group.
    replace (Z.of_nat (List.length (SelectTranscripts.group g)) =? count)
      with false; [reflexivity|].
    symmetry. apply Z.eqb_neq. rewrite X3. lia.
Qed.

(** C1. In a group of N records that the reverse-strand filter or the
    allow-list filter reduces to k survivors, with 1 <= k < N, every line
    written has NH:i:k for its NH fields, the line written at the place i
    (from 1) has HI:i:i for its HI fields, and it is the i-th survivor in the
    order of the input: its other fields, outside the FLAG and MAPQ
    columns, are those of that survivor.  When the group is written (the run
    is not stopped), k lines are written. *)
Theorem reduced_group_is_renumbered
    (file : string) (ids : list string)
    (first : string) (conts : list string) (count : Z) :
  is_empty first = false -> is_header first = false ->
  read_count first = Declared count ->
  Z.of_nat (List.length (first :: conts)) = count ->
  (forall st : state FilterReverseReads.group_state,
     mode_of st = Top ->
     (1 <= List.length (filter forward (first :: conts))
        < List.length (first :: conts))%nat ->
     let st' := FilterReverseReads.process file st (first :: conts) in
     exists emitted,
       out st' = out st ++ emitted /\
       (mode_of st' = Top ->
        List.length emitted = List.length (filter forward (first :: conts))) /\
       renumbered (filter forward (first :: conts)) emitted) /\
  (forall st : state SelectTranscripts.group_state,
     mode_of st = Top ->
     (1 <= List.length (filter (selected ids) (first :: conts))
        < List.length (first :: conts))%nat ->
     let st' := SelectTranscripts.process ids file st (first :: conts) in
     exists emitted,
       out st' = out st ++ emitted /\
       (mode_of st' = Top ->
        List.length emitted =
        List.length (filter (selected ids) (first :: conts))) /\
       renumbered (filter (selected ids) (first :: conts)) emitted).
Proof.
  intros E H R L. pose proof (read_count_range _ _ R) as Rg. split.
  - intros st M K.
    destruct (reverse_group_reduced file st first conts count M E H R L K)
      as [[X1 X2] | (st0 & g & X1 & X2 & X3 & _)]; cbv zeta.
    + exists []. rewrite X1, X2, app_nil_r.
      split; [reflexivity | split; [discriminate | apply renumbered_nil]].
    + rewrite X1, <- X2, <- X3.
      destruct (after_rewrite_lines st0 (last conts first)
                  (FilterReverseReads.group g) (FilterReverseReads.primary g))
        as (emitted & A & B & C & _); [rewrite X3; lia|].
      exists emitted. auto.
  - intros st M K.
    destruct (select_group_reduced ids file st first conts count M E H R L K)
      as [[X1 X2] | (st0 & g & X1 & X2 & X3)]; cbv zeta.
    + exists []. rewrite X1, X2, app_nil_r.
      split; [reflexivity | split; [discriminate | apply renumbered_nil]].
    + rewrite X1, <- X2, <- X3.
      destruct (after_rewrite_lines st0 (last conts first)
                  (SelectTranscripts.group g) (SelectTranscripts.primary g))
        as (emitted & A & B & C & _); [rewrite X3; lia|].
      exists emitted. auto.
Qed.

(** ** The mapping quality *)

Section MappingQuality.
#[local] Open Scope R_scope.

Lemma ln_10_pos : 0 < ln 10.
Proof. rewrite <- ln_1. apply ln_increasing; lra. Qed.

Lemma ln_le_mono (x y : R) : 0 < x -> x <= y -> ln x <= ln y.
Proof.
  intros Hx [H | ->]; [left; now apply ln_increasing | right; reflexivity].
Qed.

(** -10 log10(1 - 1/k) is 10 (ln k - ln (k-1)) / ln 10. *)
Lemma neg10_log10_eq (k : Z) :
  (2 <= k)%Z ->
  neg10_log10 k = 10 * (ln (IZR k) - ln (IZR (k - 1))) * / ln 10.
Proof.
  intros Hk. unfold neg10_log10.
  assert (Hb : 0 < IZR k) by (apply IZR_lt; lia).
  assert (Ha : 0 < IZR (k - 1)) by (apply IZR_lt; lia).
  replace (1 - 1 / IZR k) with (IZR (k - 1) * / IZR k)
    by (rewrite minus_IZR; field; lra).
  rewrite ln_mult, ln_Rinv; [|assumption|assumption|now apply Rinv_0_lt_compat].
  unfold Rdiv. ring.
Qed.

(** The logarithm of 10^m (k-1)^10 and of k^10. *)
Lemma ln_power_sides (m : nat) (k : Z) :
  (2 <= k)%Z ->
  ln (IZR (10 ^ Z.of_nat m * (k - 1) ^ Z.of_nat 10)) =
    INR m * ln 10 + 10 * ln (IZR (k - 1)) /\
  ln (IZR (k ^ Z.of_nat 10)) = 10 * ln (IZR k).
Proof.
  intros Hk.
  assert (Hb : 0 < IZR k) by (apply IZR_lt; lia).
  assert (Ha : 0 < IZR (k - 1)) by (apply IZR_lt; lia).
  rewrite mult_IZR, <- !pow_IZR.
  rewrite ln_mult by (apply pow_lt; lra).
  rewrite !ln_pow by lra.
  replace (INR 10) with 10 by (simpl; lra). split; reflexivity.
Qed.

Lemma neg10_log10_lower (m : nat) (k : Z) :
  (2 <= k)%Z ->
  (10 ^ Z.of_nat m * (k - 1) ^ Z.of_nat 10 <= k ^ Z.of_nat 10)%Z ->
  INR m <= neg10_log10 k.
Proof.
  intros Hk H. rewrite (neg10_log10_eq k Hk).
  destruct (ln_power_sides m k Hk) as [E1 E2].
  assert (P : 0 < IZR (10 ^ Z.of_nat m * (k - 1) ^ Z.of_nat 10)).
  { apply IZR_lt. apply Z.mul_pos_pos; apply Z.pow_pos_nonneg; lia. }
  pose proof (ln_le_mono _ _ P (IZR_le _ _ H)) as L.
  rewrite E1, E2 in L. pose proof ln_10_pos as T.
  replace (INR m) with (INR m * ln 10 * / ln 10) by (field; lra).
  apply Rmult_le_compat_r; [left; now apply Rinv_0_lt_compat | lra].
Qed.

Lemma neg10_log10_upper (m : nat) (k : Z) :
  (2 <= k)%Z ->
  (k ^ Z.of_nat 10 < 10 ^ Z.of_nat m * (k - 1) ^ Z.of_nat 10)%Z ->
  neg10_log10 k < INR m.
Proof.
  intros Hk H. rewrite (neg10_log10_eq k Hk).
  destruct (ln_power_sides m k Hk) as [E1 E2].
  assert (P : 0 < IZR (k ^ Z.of_nat 10)).
  { apply IZR_lt. apply Z.pow_pos_nonneg; lia. }
  pose proof (ln_increasing _ _ P (IZR_lt _ _ H)) as L.
  rewrite E1, E2 in L. pose proof ln_10_pos as T.
  replace (INR m) with (INR m * ln 10 * / ln 10) by (field; lra).
  apply Rmult_lt_compat_r; [now apply Rinv_0_lt_compat | lra].
Qed.

(** The value that the filters write is the integer part of
    -10 log10(1 - 1/k): the cast truncates. *)
Lemma mapq_truncates (k : Z) :
  (2 <= k)%Z ->
  IZR (mapq_score k) <= neg10_log10 k < IZR (mapq_score k) + 1.
Proof.
  intros Hk. unfold mapq_score.
  replace (k <=? 1)%Z with false by (symmetry; apply Z.leb_gt; lia).
  unfold neg10_log10_trunc.
  assert (A : (0 < (k - 1) ^ 10)%Z) by (apply Z.pow_pos_nonneg; lia).
  assert (B : (k ^ 10 <= 1024 * (k - 1) ^ 10)%Z).
  { change 1024%Z with (2 ^ 10)%Z. rewrite <- Z.pow_mul_l.
    apply Z.pow_le_mono_l. lia. }
  assert (C : ((k - 1) ^ 10 <= k ^ 10)%Z) by (apply Z.pow_le_mono_l; lia).
  destruct (1000 * (k - 1) ^ 10 <=? k ^ 10)%Z eqn:T3;
    [|destruct (100 * (k - 1) ^ 10 <=? k ^ 10)%Z eqn:T2;
      [|destruct (10 * (k - 1) ^ 10 <=? k ^ 10)%Z eqn:T1]];
    rewrite ?Z.leb_le, ?Z.leb_gt in *.
  - split.
    + replace 3 with (INR 3) by (simpl; lra).
      apply (neg10_log10_lower 3 k Hk). exact T3.
    + replace (3 + 1) with (INR 4) by (simpl; lra).
      apply (neg10_log10_upper 4 k Hk).
      change (10 ^ Z.of_nat 4)%Z with 10000%Z. change (Z.of_nat 10) with 10%Z.
      lia.
  - split.
    + replace 2 with (INR 2) by (simpl; lra).
      apply (neg10_log10_lower 2 k Hk). exact T2.
    + replace (2 + 1) with (INR 3) by (simpl; lra).
      apply (neg10_log10_upper 3 k Hk). exact T3.
  - split.
    + replace 1 with (INR 1) by (simpl; lra).
      apply (neg10_log10_lower 1 k Hk). exact T1.
    + replace (1 + 1) with (INR 2) by (simpl; lra).
      apply (neg10_log10_upper 2 k Hk). exact T2.
  - split.
    + change 0 with (INR 0).
      apply (neg10_log10_lower 0 k Hk).
      change (10 ^ Z.of_nat 0)%Z with 1%Z. change (Z.of_nat 10) with 10%Z. lia.
    + replace (0 + 1) with (INR 1) by (simpl; lra).
      apply (neg10_log10_upper 1 k Hk). exact T1.
Qed.

End MappingQuality.

(** For three survivors the real value is above 1.5 and the value written
    is 1: the cast does not round to the nearest integer. *)
Lemma mapq_not_rounded :
  mapq_score 3 = 1 /\ (3 / 2 < neg10_log10 3)%R.
Proof.
  split; [reflexivity|].
  rewrite (neg10_log10_eq 3 ltac:(lia)).
  change (IZR (3 - 1)) with 2%R.
  assert (L : (ln (10 ^ 3 * 2 ^ 20) < ln (3 ^ 20))%R).
  { apply ln_increasing.
    - apply Rmult_lt_0_compat; apply pow_lt; lra.
    - rewrite !pow_IZR, <- mult_IZR. apply IZR_lt. reflexivity. }
  rewrite ln_mult in L by (apply pow_lt; lra).
  rewrite !ln_pow in L by lra.
  replace (INR 3) with 3%R in L by (simpl; lra).
  replace (INR 20) with 20%R in L by (simpl; lra).
  pose proof ln_10_pos as T.
  replace (3 / 2)%R with (3 / 2 * ln 10 * / ln 10)%R by (field; lra).
  apply Rmult_lt_compat_r; [now apply Rinv_0_lt_compat | lra].
Qed.

(** C3. In a group that the reverse-strand filter or the allow-list filter
    reduces to k survivors, every line written has one and the same value
    in its fifth column: the text of [mapq_score k], which is 255 for
    k <= 1 and the integer part of -10 log10(1 - 1/k) otherwise (the cast
    truncates: 3 for k = 2, 1 for k = 4, and 1 for k = 3 where the real
    value is above 1.5). *)
Theorem reduced_group_mapping_quality
    (file : string) (ids : list string)
    (first : string) (conts : list string) (count : Z) :
  is_empty first = false -> is_header first = false ->
  read_count first = Declared count ->
  Z.of_nat (List.length (first :: conts)) = count ->
  (forall st : state FilterReverseReads.group_state,
     mode_of st = Top ->
     (1 <= List.length (filter forward (first :: conts))
        < List.length (first :: conts))%nat ->
     let st' := FilterReverseReads.process file st (first :: conts) in
     exists emitted,
       out st' = out st ++ emitted /\
       (mode_of st' = Top ->
        List.length emitted = List.length (filter forward (first :: conts))) /\
       requalified (filter forward (first :: conts)) emitted) /\
  (forall st : state SelectTranscripts.group_state,
     mode_of st = Top ->
     (1 <= List.length (filter (selected ids) (first :: conts))
        < List.length (first :: conts))%nat ->
     let st' := SelectTranscripts.process ids file st (first :: conts) in
     exists emitted,
       out st' = out st ++ emitted /\
       (mode_of st' = Top ->
        List.length emitted =
        List.length (filter (selected ids) (first :: conts))) /\
       requalified (filter (selected ids) (first :: conts)) emitted) /\
  (forall k, k <= 1 -> mapq_score k = 255) /\
  (forall k, 2 <= k ->
     (IZR (mapq_score k) <= neg10_log10 k < IZR (mapq_score k) + 1)%R) /\
  mapq_score 2 = 3 /\ mapq_score 4 = 1 /\
  (mapq_score 3 = 1 /\ (3 / 2 < neg10_log10 3)%R).
Proof.
  intros E H R L. pose proof (read_count_range _ _ R) as Rg.
  split; [|split; [|split; [|split; [|split; [|split]]]]].
  - intros st M K.
    destruct (reverse_group_reduced file st first conts count M E H R L K)
      as [[X1 X2] | (st0 & g & X1 & X2 & X3 & _)]; cbv zeta.
    + exists []. rewrite X1, X2, app_nil_r.
      split; [reflexivity | split; [discriminate | apply requalified_nil]].
    + rewrite X1, <- X2, <- X3.
      destruct (after_rewrite_lines st0 (last conts first)
                  (FilterReverseReads.group g) (FilterReverseReads.primary g))
        as (emitted & A & B & _ & C); [rewrite X3; lia|].
      exists emitted. auto.
  - intros st M K.
    destruct (select_group_reduced ids file st first conts count M E H R L K)
      as [[X1 X2] | (st0 & g & X1 & X2 & X3)]; cbv zeta.
    + exists []. rewrite X1, X2, app_nil_r.
      split; [reflexivity | split; [discriminate | apply requalified_nil]].
    + rewrite X1, <- X2, <- X3.
      destruct (after_rewrite_lines st0 (last conts first)
                  (SelectTranscripts.group g) (SelectTranscripts.primary g))
        as (emitted & A & B & _ & C); [rewrite X3; lia|].
      exists emitted. auto.
  - intros k Hk. unfold mapq_score.
    now replace (k <=? 1) with true by (symmetry; apply Z.leb_le; lia).
  - exact mapq_truncates.
  - reflexivity.
  - reflexivity.
  - exact mapq_not_rounded.
Qed.

(** ** Full groups *)

(** C6. A group of N > 1 records that the per-record filter keeps whole is
    written as it was read, line for line: the N lines of the input, in
    their order, and nothing else.  (For the allow-list filter the FLAG of
    every line is taken to be a number, or absent: [std::stoull] stops the
    run on any other FLAG.) *)
Theorem full_group_is_copied
    (file : string) (ids : list string)
    (first : string) (conts : list string) (count : Z) :
  is_empty first = false -> is_header first = false ->
  read_count first = Declared count -> 1 < count ->
  Z.of_nat (List.length (first :: conts)) = count ->
  (forall st : state FilterReverseReads.group_state,
     mode_of st = Top ->
     forallb forward (first :: conts) = true ->
     let st' := FilterReverseReads.process file st (first :: conts) in
     mode_of st' = Top /\ out st' = out st ++ first :: conts) /\
  (forall st : state SelectTranscripts.group_state,
     mode_of st = Top ->
     forallb (selected ids) (first :: conts) = true ->
     Forall (fun l => snd (SelectTranscripts.primary_flag l) <> None)
       (first :: conts) ->
     let st' := SelectTranscripts.process ids file st (first :: conts) in
     mode_of st' = Top /\ out st' = out st ++ first :: conts).
Proof.
  intros E H R C L. split.
  - intros st M K.
    destruct (ReverseFacts.reverse_group_collected file st first conts count M E H R
                ltac:(lia) L)
      as [(_ & _ & l & X1 & X2) | (st0 & g & X1 & X2 & X3 & X4 & _)].
    + rewrite forallb_forall in K. specialize (K l X1).
      destruct (ReverseFacts.forward_primary_flag l K) as [F _].
      rewrite F in X2. discriminate X2.
    + cbv zeta. rewrite X1. unfold FilterReverseReads.finish_group.
      rewrite X4, K, X3, (filter_all _ _ K). simpl. now rewrite X2.
  - intros st M K F.
    destruct (SelectFacts.select_group_collected ids file st first conts count M E H R
                ltac:(lia) L)
      as [(_ & _ & l & X1 & _ & X2) | (st0 & g & X1 & X2 & X3)].
    + rewrite Forall_forall in F. now destruct (F l X1).
    + cbv zeta. rewrite X1. unfold SelectTranscripts.finish_group.
      rewrite X3, (filter_all _ _ K), L, Z.eqb_refl. simpl. now rewrite X2.
Qed.

(** ** The primary alignment of a reduced group *)



Lemma lxor_256_range (v : Z) :
  0 <= v <= SIZE_MAX -> 0 <= Z.lxor v 256 <= SIZE_MAX.
Proof.
  intros [L U].
  assert (N : 0 <= Z.lxor v 256) by (apply Z.lxor_nonneg; lia).
  split; [exact N|].
  destruct (Z.eq_dec (Z.lxor v 256) 0) as [-> | NZ]; [unfold SIZE_MAX; lia|].
  assert (Z.lxor v 256 < 2 ^ 64); [|unfold SIZE_MAX; lia].
  apply Z.log2_lt_pow2; [lia|].
  pose proof (Z.log2_lxor v 256 L ltac:(lia)) as M.
  change (Z.log2 256) with 8 in M.
  destruct (Z.eq_dec v 0) as [-> | VZ]; [reflexivity|].
  assert (Z.log2 v < 64) by (apply Z.log2_lt_pow2; unfold SIZE_MAX in U; lia).
  lia.
Qed.

(** The FLAG of a line as the filter reads it. *)
Lemma forward_flag_field (s : string) :
  forward s = true ->
  exists f v, nth_error (getline_parts s) 1 = Some f /\
              flag_field s = Some f /\ stoull f = Some v /\
              marked_primary s = (Z.land v 256 =? 0).
Proof.
  intros K.
  destruct (ReverseFacts.forward_primary_flag s K) as (_ & _ & f & v & A & B & C).
  exists f, v. split; [exact A|]. split; [|split; [exact B|]].
  - exact (getline_part_column s 1 f A).
  - unfold marked_primary. now rewrite C.
Qed.

Lemma forward_has_flag (s : string) : forward s = true -> has_flag s.
Proof.
  intros K. destruct (forward_flag_field s K) as (f & v & A & B & C & _).
  now exists f, v.
Qed.


Section Flags.
Variables (size m primary : Z).

(** The lines that are not made primary keep their FLAG. *)
Lemma rewrite_lines_keep_flags (rest : list string) :
  forall i : Z,
  Forall has_flag rest ->
  (forall n, (n < List.length rest)%nat -> primary <> i + Z.of_nat n) ->
  exists ls,
    rewrite_lines size (to_string m) primary i rest = (ls, true) /\
    map flag_field ls = map flag_field rest.
Proof.
  induction rest as [|s rest IH]; intros i F P; simpl; [now exists []|].
  apply Forall_cons_iff in F as [Fs Fr].
  destruct Fs as (f & v & A & B & C).
  assert (Pi : primary <> i).
  { specialize (P 0%nat ltac:(simpl; lia)). simpl in P. lia. }
  unfold rewrite_line at 1.
  destruct (rewrite_parts_total size m primary i (getline_parts s) 0)
    as [ps' R]; [intros; contradiction|].
  rewrite R. cbn [option_map].
  destruct (IH (i + 1) Fr) as (ls & L1 & L2).
  { intros n Hn. specialize (P (S n) ltac:(simpl; lia)). lia. }
  rewrite L1. exists (join_tabs ps' :: ls). split; [reflexivity|].
  cbn [map]. rewrite L2. f_equal. rewrite B.
  apply (written_keeps_flag size m primary i s (join_tabs ps')) with (v := v);
    auto.
  unfold rewrite_line. now rewrite R.
Qed.

End Flags.

(** The rewriting block, for a group in which a line is marked as primary:
    every line is written, with its FLAG. *)
Lemma rewrite_group_keeps_primary (line : string) (group : list string)
    (primary : Z) :
  Forall has_flag group ->
  Z.of_nat (List.length group) <= SIZE_MAX ->
  primary <> SIZE_MAX ->
  exists ls,
    rewrite_group line group primary = ([], ls, None) /\
    map flag_field ls = map flag_field group.
Proof.
  intros F L P. unfold rewrite_group.
  replace (primary =? SIZE_MAX) with false by (symmetry; now apply Z.eqb_neq).
  destruct (rewrite_lines_keep_flags (Z.of_nat (List.length group))
              (mapq_score (Z.of_nat (List.length group))) SIZE_MAX group 0 F)
    as (ls & R1 & R2); [intros n Hn; lia|].
  rewrite R1. now exists ls.
Qed.

(** The rewriting block, for a group in which no line is marked as
    primary: the run stops with the code 12 or 11 when
    a line has too few columns for a CIGAR; otherwise the first line is
    written with the bit 256 of its FLAG flipped, the other lines with their
    FLAG, and a message is printed for every CIGAR that differs from the
    first one. *)
Lemma rewrite_group_new_primary (line : string) (group : list string) :
  Forall has_flag group ->
  Z.of_nat (List.length group) <= SIZE_MAX ->
  match cigars_of group with
  | inl code =>
      rewrite_group line group SIZE_MAX =
      ([NotEnoughColumns line], [], Some (Returned code))
  | inr cigars =>
      match group with
      | [] => rewrite_group line group SIZE_MAX = ([], [], None)
      | s0 :: rest =>
          exists o ls v,
            rewrite_group line group SIZE_MAX =
            (cigar_warnings line cigars, o :: ls, None) /\
            flag_value s0 = Some v /\
            flag_field o = Some (to_string (Z.lxor v 256)) /\
            map flag_field ls = map flag_field rest
      end
  end.
Proof.
  intros F L. unfold rewrite_group. rewrite Z.eqb_refl.
  destruct (cigars_of group) as [code | cigars] eqn:C; [reflexivity|].
  destruct group as [|s0 rest].
  - simpl in C. injection C as <-. reflexivity.
  - apply Forall_cons_iff in F as [F0 Fr].
    destruct F0 as (f & v & A & B & V).
    cbn [rewrite_lines]. unfold rewrite_line at 1.
    destruct (rewrite_parts_total (Z.of_nat (List.length (s0 :: rest)))
                (mapq_score (Z.of_nat (List.length (s0 :: rest)))) 0 0
                (getline_parts s0) 0) as [ps' R].
    { intros c p Hp Hc _. replace c with 1%nat in Hp by lia. congruence. }
    rewrite R. cbn [option_map].
    destruct (rewrite_lines_keep_flags (Z.of_nat (List.length (s0 :: rest)))
                (mapq_score (Z.of_nat (List.length (s0 :: rest)))) 0 rest
                (0 + 1) Fr) as (ls & R1 & R2); [intros n Hn; lia|].
    rewrite R1. exists (join_tabs ps'), ls, v.
    split; [reflexivity|]. split; [|split; [|exact R2]].
    + unfold flag_value. now rewrite B.
    + unfold flag_field.
      apply (written_new_flag (Z.of_nat (List.length (s0 :: rest)))
               (mapq_score (Z.of_nat (List.length (s0 :: rest)))) 0 0
               s0 (join_tabs ps')) with (f := f); auto.
      unfold rewrite_line. now rewrite R.
Qed.



(** [primary] is [(size_t)-1] exactly when no line of a sound group is
    marked as primary. *)
Lemma sound_primary (g : FilterReverseReads.group_state) :
  sound g ->
  (FilterReverseReads.primary g =? SIZE_MAX) =
  negb (existsb marked_primary (FilterReverseReads.group g)).
Proof.
  intros [_ [[P1 P2] | [P1 (s & S1 & S2)]]].
  - rewrite P1, Z.eqb_refl. symmetry. apply negb_true_iff.
    destruct (existsb marked_primary (FilterReverseReads.group g)) eqn:X;
      [|reflexivity].
    apply existsb_exists in X as (s & S1 & S2). rewrite (P2 s S1) in S2.
    discriminate.
  - apply Z.eqb_neq in P1. rewrite P1. symmetry. apply negb_false_iff.
    apply existsb_exists. now exists s.
Qed.

(** ** The groups of the allow-list filter and their primary line *)




Module SelectSound.
Import SelectTranscripts.

Section Loop.
Variables (ids : list string) (file : string).





End Loop.
End SelectSound.

(** ** The rewriting block on a group with its primary line settled *)


(** The rewriting block, on the lines kept of a reduced group when their
    FLAG can be read and [primary] is what the collection has left: the
    run stops with the code 12 or 11 when no line is marked as primary and
    a line has too few columns for a CIGAR; otherwise every line is
    written, with its NH, HI, MAPQ and FLAG fields settled. *)
Lemma group_is_rewritten {G} (st0 : state G) (line : string)
    (group : list string) (primary : Z) :
  Forall has_flag group ->
  Z.of_nat (List.length group) <= SIZE_MAX ->
  (primary =? SIZE_MAX) = negb (existsb marked_primary group) ->
  group <> [] ->
  let st' := after_rewrite st0 line group primary in
  match (if existsb marked_primary group then inr [] else cigars_of group) with
  | inl code => mode_of st' = Halted (Returned code) /\ out st' = out st0
  | inr cigars =>
      mode_of st' = Top /\
      err st' = err st0 ++ (if existsb marked_primary group then []
                            else cigar_warnings line cigars) /\
      exists emitted,
        out st' = out st0 ++ emitted /\
        List.length emitted = List.length group /\
        renumbered group emitted /\ requalified group emitted /\
        reflagged group emitted
  end.
Proof.
  intros F L P NE. cbv zeta.
  destruct (after_rewrite_lines st0 line group primary L)
    as (emitted & O & Len & RN & RQ).
  unfold reflagged. unfold after_rewrite in *.
  destruct (existsb marked_primary group) eqn:X; cbn [negb] in P.
  - apply Z.eqb_neq in P.
    destruct (rewrite_group_keeps_primary line group primary F L P)
      as (ls & G1 & G2).
    rewrite G1 in *. cbn [mode_of set_mode out emit warn err] in *.
    apply app_inv_head in O. subst ls.
    split; [reflexivity|]. split; [reflexivity|].
    exists emitted. split; [reflexivity|]. split; [now apply Len|]. auto.
  - apply Z.eqb_eq in P. subst primary.
    pose proof (rewrite_group_new_primary line group F L) as N.
    destruct (cigars_of group) as [code | cigars].
    + rewrite N. cbn [mode_of set_mode out emit warn]. rewrite app_nil_r.
      now split.
    + destruct group as [|s0 rest]; [now contradiction NE|].
      destruct N as (o & ls & v & G1 & G2 & G3 & G4).
      rewrite G1 in *. cbn [mode_of set_mode out emit warn err] in *.
      apply app_inv_head in O. subst emitted.
      split; [reflexivity|]. split; [reflexivity|].
      exists (o :: ls). split; [reflexivity|]. split; [now apply Len|].
      split; [exact RN|]. split; [exact RQ|].
      now exists s0, rest, o, ls, v.
Qed.

(** A reduced group of the reverse-strand filter, the FLAG of every line
    being a number. *)
Lemma reverse_group_rewritten (file : string)
    (st : state FilterReverseReads.group_state)
    (first : string) (conts : list string) (count : Z) :
  mode_of st = Top -> is_empty first = false -> is_header first = false ->
  read_count first = Declared count ->
  Z.of_nat (List.length (first :: conts)) = count ->
  (1 <= List.length (filter forward (first :: conts))
     < List.length (first :: conts))%nat ->
  Forall (fun l => snd (FilterReverseReads.forward_flag l) <> None)
    (first :: conts) ->
  exists st0,
    out st0 = out st /\
    Forall has_flag (filter forward (first :: conts)) /\
    exists primary,
      (primary =? SIZE_MAX)
      = negb (existsb marked_primary (filter forward (first :: conts))) /\
      FilterReverseReads.process file st (first :: conts)
      = after_rewrite st0 (last conts first)
          (filter forward (first :: conts)) primary.
Proof.
  intros M E H R L K F.
  assert (C : count <> 1) by (simpl List.length in *; lia).
  pose proof (read_count_range _ _ R) as Rg.
  destruct (ReverseFacts.reverse_group_collected file st first conts count
              M E H R C L)
    as [(_ & _ & l & I1 & I2) | (st0 & g & X1 & X2 & X3 & X4 & X5)].
  { rewrite Forall_forall in F. now destruct (F l I1). }
  exists st0. split; [exact X2|].
  pose proof (sound_primary g X5) as SP. destruct X5 as [FW _].
  rewrite X3 in SP, FW. split.
  - apply (Forall_impl _ forward_has_flag FW).
  - exists (FilterReverseReads.primary g). split; [exact SP|].
    cbv zeta in X1. rewrite X1. unfold FilterReverseReads.finish_group.
    rewrite X4, (filter_shorter forward (first :: conts)) by lia.
    cbn [negb]. now rewrite X3.
Qed.




(** ** Whole groups of the gene-ambiguity filter *)

Lemma ambiguous_first (tg : FilterAmbiguousGenes.gene_map) (ann file : string)
    (st : state FilterAmbiguousGenes.group_state) (first : string) (count : Z) :
  mode_of st = Top -> is_empty first = false -> is_header first = false ->
  read_count first = Declared count -> count <> 1 ->
  match gene_of tg first with
  | Some gene =>
      exists ds,
        FilterAmbiguousGenes.step tg ann file st first =
        FilterAmbiguousGenes.test (warn st ds) 1 count
          (FilterAmbiguousGenes.mkGroup [first] gene)
  | None =>
      mode_of (FilterAmbiguousGenes.step tg ann file st first) =
        Halted (Returned 6) /\
      out (FilterAmbiguousGenes.step tg ann file st first) = out st
  end.
Proof.
  intros M E H R C. unfold FilterAmbiguousGenes.step. rewrite M, E, H, R.
  apply Z.eqb_neq in C. rewrite C. unfold gene_of.
  destruct (FilterAmbiguousGenes.extract_transcript_id first) as [ds id].
  simpl. destruct (FilterAmbiguousGenes.map_find id tg); [now exists ds|].
  now split.
Qed.

(** C4. A group of N > 1 records of the gene-ambiguity filter, every record
    of which resolves to a gene, is written whole and unchanged when all
    its records resolve to the same gene, and not at all when two of its
    records resolve to different genes: nothing else is ever written for
    it. *)
Theorem ambiguous_group_all_or_nothing
    (tg : FilterAmbiguousGenes.gene_map) (ann file : string)
    (st : state FilterAmbiguousGenes.group_state)
    (first : string) (conts : list string) (count : Z) :
  mode_of st = Top ->
  is_empty first = false -> is_header first = false ->
  read_count first = Declared count -> 1 < count ->
  Z.of_nat (List.length (first :: conts)) = count ->
  Forall (fun l => gene_of tg l <> None) (first :: conts) ->
  let st' := FilterAmbiguousGenes.process tg ann file st (first :: conts) in
  mode_of st' = Top /\
  ((forall l, In l conts -> gene_of tg l = gene_of tg first) ->
   out st' = out st ++ first :: conts) /\
  ((exists l1 l2, In l1 (first :: conts) /\ In l2 (first :: conts) /\
                  gene_of tg l1 <> gene_of tg l2) ->
   out st' = out st) /\
  (out st' = out st \/ out st' = out st ++ first :: conts).
Proof.
  intros M E H R C L F. apply Forall_cons_iff in F as [F1 Fc].
  pose proof (ambiguous_first tg ann file st first count M E H R ltac:(lia))
    as S.
  destruct (gene_of tg first) as [gene|] eqn:G; [clear F1 | congruence].
  destruct S as [ds S]. cbv zeta.
  unfold FilterAmbiguousGenes.process. cbn [fold_left]. rewrite S.
  destruct (AmbiguousFacts.test_loop tg ann file conts (warn st ds) 1 count
              (FilterAmbiguousGenes.mkGroup [first] gene))
    as [T1 T2]; [simpl List.length in L; lia | simpl; lia | exact Fc |].
  unfold FilterAmbiguousGenes.process in T1, T2.
  rewrite T2. cbn [FilterAmbiguousGenes.group FilterAmbiguousGenes.first_gene
                   List.length out warn]. rewrite Z.eqb_refl. cbn [andb app].
  split; [exact T1|].
  destruct (forallb (same_gene tg gene) conts) eqn:A.
  - split; [reflexivity|]. split; [|now right].
    intros (l1 & l2 & I1 & I2 & D). exfalso. apply D.
    rewrite forallb_forall in A.
    assert (Q : forall l, In l (first :: conts) -> gene_of tg l = Some gene).
    { intros l [<- | I]; [exact G|]. specialize (A l I).
      unfold same_gene in A. destruct (gene_of tg l) as [g'|]; [|discriminate].
      apply String.eqb_eq in A. now subst. }
    now rewrite (Q l1 I1), (Q l2 I2).
  - split; [|split; [now rewrite app_nil_r | left; now rewrite app_nil_r]].
    intros Q. exfalso.
    assert (A' : forallb (same_gene tg gene) conts = true).
    { apply forallb_forall. intros l I. unfold same_gene.
      rewrite (Q l I). apply String.eqb_refl. }
    congruence.
Qed.

(** C8, as the code has it.  In the gene-ambiguity filter a record of a
    group of declared size other than 1 (0 as well as 2 or more) whose
    transcript is not in the table stops the run: with the code 6 when it is
    the first record of the group, whatever the size declared, and with the
    code 7 when it is one of the following records of the group; nothing of
    the group is written and no line after the record is processed.  (A
    record that declares the size 1 is written without any lookup.) *)
Theorem unknown_transcript_in_group_aborts
    (tg : FilterAmbiguousGenes.gene_map) (ann file : string)
    (st : state FilterAmbiguousGenes.group_state)
    (first : string) (conts post : list string) (count : Z) :
  mode_of st = Top ->
  is_empty first = false -> is_header first = false ->
  read_count first = Declared count -> count <> 1 ->
  (gene_of tg first = None \/
   Z.of_nat (List.length (first :: conts)) <= count) ->
  Exists (fun l => gene_of tg l = None) (first :: conts) ->
  let st' :=
    FilterAmbiguousGenes.process tg ann file st (first :: conts ++ post) in
  st' = FilterAmbiguousGenes.process tg ann file st (first :: conts) /\
  out st' = out st /\
  mode_of st' =
    Halted (Returned (match gene_of tg first with Some _ => 7 | None => 6 end)).
Proof.
  intros M E H R C L X.
  assert (P : out (FilterAmbiguousGenes.process tg ann file st (first :: conts))
              = out st /\
              mode_of (FilterAmbiguousGenes.process tg ann file st (first :: conts))
              = Halted (Returned (match gene_of tg first with Some _ => 7 | None => 6 end))).
  { pose proof (ambiguous_first tg ann file st first count M E H R C) as S.
    unfold FilterAmbiguousGenes.process. cbn [fold_left].
    destruct (gene_of tg first) as [gene|] eqn:G.
    - destruct S as [ds S]. rewrite S.
      destruct L as [L | L]; [discriminate L|].
      apply Exists_cons in X as [X | X]; [congruence|].
      destruct (AmbiguousFacts.test_loop_unknown tg ann file conts (warn st ds)
                  1 count (FilterAmbiguousGenes.mkGroup [first] gene))
        as [T1 T2]; [simpl List.length in L; lia | exact X |].
      unfold FilterAmbiguousGenes.process in T1, T2. now split.
    - destruct S as [S1 S2].
      rewrite (fold_halted _ _ _ (AmbiguousFacts.ambiguous_step_halted tg ann file)
                 (Returned 6) S1).
      now split. }
  destruct P as [P1 P2]. cbv zeta.
  assert (Q : FilterAmbiguousGenes.process tg ann file st (first :: conts ++ post)
              = FilterAmbiguousGenes.process tg ann file st (first :: conts)).
  { change (first :: conts ++ post) with ((first :: conts) ++ post).
    unfold FilterAmbiguousGenes.process at 1. rewrite fold_left_app.
    exact (AmbiguousFacts.ambiguous_process_halted tg ann file post _ _ P2). }
  rewrite Q. auto.
Qed.

(** ** Groups cut by the end of the input *)

Lemma at_eof_in_group {G} (file : string) (st : state G) (i count : Z) (g : G) :
  mode_of st = InGroup i count g ->
  mode_of (at_eof file st) = Halted (Returned 17) /\
  out (at_eof file st) = out st.
Proof. unfold at_eof. intros ->. now split. Qed.

Lemma at_eof_halted {G} (file : string) (st : state G) (h : halt) :
  mode_of st = Halted h -> at_eof file st = st.
Proof. unfold at_eof. now intros ->. Qed.

(** The [for] loop of the reverse-strand filter when the input is too
    short: nothing is written, and the loop is still waiting for a line
    unless a FLAG stopped the run. *)
Lemma reverse_short_loop (file : string) (rest : list string) :
  forall (line : string) (st : state FilterReverseReads.group_state)
         (i count : Z) (g : FilterReverseReads.group_state),
  i + Z.of_nat (List.length rest) < count ->
  let st' :=
    FilterReverseReads.process file
      (FilterReverseReads.collect_and_test st line i count g) rest in
  out st' = out st /\
  ((exists i' g', mode_of st' = InGroup i' count g') \/
   (mode_of st' = Halted Uncaught /\
    exists l, In l (line :: rest) /\
              snd (FilterReverseReads.forward_flag l) = None)).
Proof.
  induction rest as [|l rest IH]; intros line st i count g Hi;
    unfold FilterReverseReads.collect_and_test;
    destruct (FilterReverseReads.collect line g) as [ds [g1|]] eqn:C.
  - simpl in Hi. replace (i <? count) with true
      by (symmetry; apply Z.ltb_lt; lia).
    simpl. split; [reflexivity|]. left. now exists i, g1.
  - simpl. split; [reflexivity|]. right. split; [reflexivity|].
    exists line. split; [now left | exact (ReverseFacts.reverse_collect_throws _ _ _ C)].
  - replace (i <? count) with true
      by (symmetry; apply Z.ltb_lt; simpl List.length in Hi; lia).
    cbv zeta. unfold FilterReverseReads.process. cbn [fold_left].
    change (FilterReverseReads.step file
              (set_mode (warn st ds) (InGroup i count g1)) l)
      with (FilterReverseReads.collect_and_test
              (set_mode (warn st ds) (InGroup i count g1)) l (i + 1) count g1).
    specialize (IH l (set_mode (warn st ds) (InGroup i count g1)) (i + 1)
                  count g1 ltac:(simpl List.length in Hi; lia)).
    cbv zeta in IH. unfold FilterReverseReads.process in IH.
    destruct IH as [O [N | [N (x & X1 & X2)]]]; (split; [exact O|]).
    + now left.
    + right. split; [exact N|]. exists x. split; [now right | exact X2].
  - cbv zeta. unfold FilterReverseReads.process.
    rewrite (fold_halted _ _ _ (ReverseFacts.reverse_step_halted file) Uncaught)
      by reflexivity.
    simpl. split; [reflexivity|]. right. split; [reflexivity|].
    exists line. split; [now left | exact (ReverseFacts.reverse_collect_throws _ _ _ C)].
Qed.

Lemma select_short_loop (ids : list string) (file : string)
    (rest : list string) :
  forall (line : string) (st : state SelectTranscripts.group_state)
         (i count : Z) (g : SelectTranscripts.group_state),
  i + Z.of_nat (List.length rest) < count ->
  let st' :=
    SelectTranscripts.process ids file
      (SelectTranscripts.collect_and_test ids st line i count g) rest in
  out st' = out st /\
  ((exists i' g', mode_of st' = InGroup i' count g') \/
   (mode_of st' = Halted Uncaught /\
    exists l, In l (line :: rest) /\
              snd (SelectTranscripts.primary_flag l) = None)).
Proof.
  induction rest as [|l rest IH]; intros line st i count g Hi;
    unfold SelectTranscripts.collect_and_test;
    destruct (SelectTranscripts.collect ids line g) as [ds [g1|]] eqn:C.
  - simpl in Hi. replace (i <? count) with true
      by (symmetry; apply Z.ltb_lt; lia).
    simpl. split; [reflexivity|]. left. now exists i, g1.
  - simpl. split; [reflexivity|]. right. split; [reflexivity|].
    exists line. split; [now left|].
    exact (proj2 (SelectFacts.select_collect_throws ids _ _ _ C)).
  - replace (i <? count) with true
      by (symmetry; apply Z.ltb_lt; simpl List.length in Hi; lia).
    cbv zeta. unfold SelectTranscripts.process. cbn [fold_left].
    change (SelectTranscripts.step ids file
              (set_mode (warn st ds) (InGroup i count g1)) l)
      with (SelectTranscripts.collect_and_test ids
              (set_mode (warn st ds) (InGroup i count g1)) l (i + 1) count g1).
    specialize (IH l (set_mode (warn st ds) (InGroup i count g1)) (i + 1)
                  count g1 ltac:(simpl List.length in Hi; lia)).
    cbv zeta in IH. unfold SelectTranscripts.process in IH.
    destruct IH as [O [N | [N (x & X1 & X2)]]]; (split; [exact O|]).
    + now left.
    + right. split; [exact N|]. exists x. split; [now right | exact X2].
  - cbv zeta. unfold SelectTranscripts.process.
    rewrite (fold_halted _ _ _ (SelectFacts.select_step_halted ids file) Uncaught)
      by reflexivity.
    simpl. split; [reflexivity|]. right. split; [reflexivity|].
    exists line. split; [now left|].
    exact (proj2 (SelectFacts.select_collect_throws ids _ _ _ C)).
Qed.

Lemma ambiguous_short_loop (tg : FilterAmbiguousGenes.gene_map)
    (ann file : string) (rest : list string) :
  forall (st : state FilterAmbiguousGenes.group_state) (i count : Z)
         (g : FilterAmbiguousGenes.group_state),
  i + Z.of_nat (List.length rest) < count ->
  let st' :=
    FilterAmbiguousGenes.process tg ann file
      (FilterAmbiguousGenes.test st i count g) rest in
  out st' = out st /\
  ((exists i' g', mode_of st' = InGroup i' count g') \/
   (mode_of st' = Halted (Returned 7) /\
    exists l, In l rest /\ gene_of tg l = None)).
Proof.
  induction rest as [|l rest IH]; intros st i count g Hi;
    unfold FilterAmbiguousGenes.test;
    (replace (i <? count) with true
       by (symmetry; apply Z.ltb_lt; simpl List.length in Hi; lia)).
  - simpl. split; [reflexivity|]. left. now exists i, g.
  - cbv zeta. unfold FilterAmbiguousGenes.process. cbn [fold_left].
    destruct (gene_of tg l) as [gene|] eqn:G.
    + rewrite (AmbiguousFacts.step_known tg ann file
                 (set_mode st (InGroup i count g)) i count g l gene eq_refl G).
      match goal with
      | |- context [FilterAmbiguousGenes.test ?s (i + 1) count ?g2] =>
          specialize (IH s (i + 1) count g2
                        ltac:(simpl List.length in Hi; lia))
      end.
      cbv zeta in IH. unfold FilterAmbiguousGenes.process in IH.
      destruct IH as [O [N | [N (x & X1 & X2)]]]; (split; [exact O|]).
      * now left.
      * right. split; [exact N|]. exists x. split; [now right | exact X2].
    + destruct (AmbiguousFacts.step_unknown tg ann file
                  (set_mode st (InGroup i count g)) i count g l eq_refl G)
        as [N O].
      rewrite (fold_halted _ _ _ (AmbiguousFacts.ambiguous_step_halted tg ann file)
                 (Returned 7) N).
      split; [exact O|]. right. split; [exact N|].
      exists l. split; [now left | exact G].
Qed.

(** C5. When a record that is neither empty nor a header declares N > 1
    alignments and the input ends before N - 1 more lines are read, every
    tool stops with a code other than 0 and writes no line of the group:
    the code is 17, unless the run was stopped before the end of the input
    by the FLAG of a line that is not a number (reverse-strand and
    allow-list filters) or by an unknown transcript (codes 6 and 7 of the
    gene-ambiguity filter). *)
Theorem truncated_group_aborts
    (file : string) (ids : list string)
    (tg : FilterAmbiguousGenes.gene_map) (ann : string)
    (first : string) (rest : list string) (count : Z) :
  is_empty first = false -> is_header first = false ->
  read_count first = Declared count -> 1 < count ->
  Z.of_nat (List.length rest) < count - 1 ->
  (forall st : state FilterReverseReads.group_state,
     mode_of st = Top ->
     let st' := at_eof file (FilterReverseReads.process file st (first :: rest)) in
     out st' = out st /\
     (mode_of st' = Halted (Returned 17) \/
      (mode_of st' = Halted Uncaught /\
       exists l, In l (first :: rest) /\
                 snd (FilterReverseReads.forward_flag l) = None))) /\
  (forall st : state SelectTranscripts.group_state,
     mode_of st = Top ->
     let st' :=
       at_eof file (SelectTranscripts.process ids file st (first :: rest)) in
     out st' = out st /\
     (mode_of st' = Halted (Returned 17) \/
      (mode_of st' = Halted Uncaught /\
       exists l, In l (first :: rest) /\
                 snd (SelectTranscripts.primary_flag l) = None))) /\
  (forall st : state FilterAmbiguousGenes.group_state,
     mode_of st = Top ->
     let st' :=
       at_eof file
         (FilterAmbiguousGenes.process tg ann file st (first :: rest)) in
     out st' = out st /\
     (mode_of st' = Halted (Returned 17) \/
      (mode_of st' = Halted (Returned 6) /\ gene_of tg first = None) \/
      (mode_of st' = Halted (Returned 7) /\
       exists l, In l rest /\ gene_of tg l = None))).
Proof.
  intros E H R C L. split; [|split].
  - intros st M. cbv zeta.
    unfold FilterReverseReads.process. cbn [fold_left].
    rewrite (ReverseFacts.reverse_step_first file st first count M E H R ltac:(lia)).
    destruct (reverse_short_loop file rest first st 1 count
                FilterReverseReads.empty_group ltac:(lia))
      as [O [(i' & g' & N) | [N X]]];
      unfold FilterReverseReads.process in O, N.
    + destruct (at_eof_in_group file _ i' count g' N) as [A B].
      rewrite B. split; [exact O | now left].
    + rewrite (at_eof_halted file _ _ N). split; [exact O | right; now split].
  - intros st M. cbv zeta.
    unfold SelectTranscripts.process. cbn [fold_left].
    rewrite (SelectFacts.select_step_first ids file st first count M E H R ltac:(lia)).
    destruct (select_short_loop ids file rest first st 1 count
                SelectTranscripts.empty_group ltac:(lia))
      as [O [(i' & g' & N) | [N X]]];
      unfold SelectTranscripts.process in O, N.
    + destruct (at_eof_in_group file _ i' count g' N) as [A B].
      rewrite B. split; [exact O | now left].
    + rewrite (at_eof_halted file _ _ N). split; [exact O | right; now split].
  - intros st M. cbv zeta.
    pose proof (ambiguous_first tg ann file st first count M E H R ltac:(lia))
      as S.
    unfold FilterAmbiguousGenes.process. cbn [fold_left].
    destruct (gene_of tg first) as [gene|] eqn:G.
    + destruct S as [ds S]. rewrite S.
      destruct (ambiguous_short_loop tg ann file rest (warn st ds) 1 count
                  (FilterAmbiguousGenes.mkGroup [first] gene) ltac:(lia))
        as [O [(i' & g' & N) | [N X]]];
        unfold FilterAmbiguousGenes.process in O, N.
      * destruct (at_eof_in_group file _ i' count g' N) as [A B].
        rewrite B. split; [exact O | now left].
      * rewrite (at_eof_halted file _ _ N).
        split; [exact O | right; right; now split].
    + destruct S as [S1 S2].
      rewrite (fold_halted _ _ _ (AmbiguousFacts.ambiguous_step_halted tg ann file)
                 (Returned 6) S1).
      rewrite (at_eof_halted file _ _ S1).
      split; [exact S2 | right; left; now split].
Qed.

(** ** Header lines *)

(** C7, as the code has it.  A line that starts with [@] and is read by the
    main loop (the run is between two units of the input) is written
    unchanged by the reverse-strand and the gene-ambiguity filters, with no
    other effect.  The allow-list filter does the same for every header
    line but an [@SQ] line, which it writes only when the line has an SN
    field whose value is in the allow-list, and drops with a message when
    it has no SN field; in every case the run stays between two units. *)
Theorem header_line_passes
    (file : string) (ids : list string)
    (tg : FilterAmbiguousGenes.gene_map) (ann : string) (line : string) :
  is_header line = true ->
  (forall st : state FilterReverseReads.group_state,
     mode_of st = Top ->
     FilterReverseReads.step file st line = emit st [line]) /\
  (forall st : state FilterAmbiguousGenes.group_state,
     mode_of st = Top ->
     FilterAmbiguousGenes.step tg ann file st line = emit st [line]) /\
  (forall st : state SelectTranscripts.group_state,
     mode_of st = Top ->
     let st' := SelectTranscripts.step ids file st line in
     mode_of st' = Top /\
     (starts_with (String.append "@SQ" (String TAB EmptyString)) line = false ->
      st' = emit st [line]) /\
     (starts_with (String.append "@SQ" (String TAB EmptyString)) line = true ->
      out st' = out st ++
        match SelectTranscripts.sequence_name line with
        | Some name =>
            if SelectTranscripts.listed ids name then [line] else []
        | None => []
        end /\
      err st' = err st ++
        match SelectTranscripts.sequence_name line with
        | Some _ => []
        | None => [MissingSN line]
        end)).
Proof.
  intros H.
  assert (E : is_empty line = false) by (destruct line; [discriminate | reflexivity]).
  split; [|split].
  - intros st M. unfold FilterReverseReads.step. now rewrite M, E, H.
  - intros st M. unfold FilterAmbiguousGenes.step. now rewrite M, E, H.
  - intros st M. cbv zeta. unfold SelectTranscripts.step. rewrite M, E, H.
    destruct (starts_with (String.append "@SQ" (String TAB EmptyString)) line).
    + destruct (SelectTranscripts.sequence_name line) as [name|].
      * destruct (SelectTranscripts.listed ids name); simpl;
          rewrite ?app_nil_r; repeat split; auto; discriminate.
      * simpl. rewrite app_nil_r. repeat split; auto; discriminate.
    + simpl. repeat split; auto; discriminate.
Qed.

(** ** The command line *)

(** C9, as the code has it.  Every tool prints its usage text and returns 0,
    without touching a file, when it is called without arguments and also
    when the number of its arguments breaks the pairing of inputs and
    outputs (for the allow-list filter, whenever fewer than three arguments
    are given): no other code is returned for such a call. *)
Theorem bad_invocation_prints_usage
    (flushed : nat) (fs : files) (argv : list string) :
  (argc argv = 1 \/ argc argv mod 2 <> 1 ->
   FilterReverseReads.main flushed fs argv = mkRun fs true [] (Returned 0)) /\
  (argc argv = 1 \/ argc argv mod 2 <> 0 ->
   FilterAmbiguousGenes.main flushed fs argv = mkRun fs true [] (Returned 0)) /\
  (argc argv < 4 \/ argc argv mod 2 <> 0 ->
   SelectTranscripts.main flushed fs argv = mkRun fs true [] (Returned 0)).
Proof.
  split; [|split]; intros [A | A].
  - unfold FilterReverseReads.main. rewrite A. reflexivity.
  - unfold FilterReverseReads.main. apply Z.eqb_neq in A. rewrite A.
    now rewrite orb_true_r.
  - unfold FilterAmbiguousGenes.main. rewrite A. reflexivity.
  - unfold FilterAmbiguousGenes.main. apply Z.eqb_neq in A. rewrite A.
    now rewrite orb_true_r.
  - unfold SelectTranscripts.main. apply Z.ltb_lt in A. now rewrite A.
  - unfold SelectTranscripts.main. apply Z.eqb_neq in A. rewrite A.
    now rewrite orb_true_r.
Qed.

(** ** Lines without a FLAG in the reverse-strand filter *)

Lemma no_tab_no_tag (key line : string) :
  no_tab line -> rfind_str (String TAB key) line = None.
Proof.
  induction line as [|c line IH]; intros N; [reflexivity|].
  apply no_tab_inv in N as [C N]. cbn [rfind_str]. rewrite (IH N).
  cbn [String.prefix].
  destruct (ascii_dec TAB c) as [<- | _]; [discriminate C | reflexivity].
Qed.

Lemma single_column_no_tab (line : string) :
  (List.length (columns line) < 2)%nat -> no_tab line.
Proof.
  intros L. destruct (line_split line) as [[N _] | (x & r & _ & _ & C)];
    [exact N|].
  rewrite C in L. pose proof (columns_not_nil r).
  destruct (columns r); [contradiction | simpl in L; lia].
Qed.

(** The body of the [for] loop for a line that the filter drops. *)
Lemma reverse_step_dropped (file : string)
    (st : state FilterReverseReads.group_state) (i count : Z)
    (g : FilterReverseReads.group_state) (l : string) (ds : list diag) :
  mode_of st = InGroup i count g ->
  FilterReverseReads.forward_flag l = (ds, Some false) ->
  FilterReverseReads.step file st l =
  if i + 1 <? count
  then set_mode (warn st ds)
         (InGroup (i + 1) count
            (FilterReverseReads.mkGroup (FilterReverseReads.group g)
               (FilterReverseReads.primary g) true))
  else after_rewrite (warn st ds) l (FilterReverseReads.group g)
         (FilterReverseReads.primary g).
Proof.
  intros M F. unfold FilterReverseReads.step. rewrite M.
  unfold FilterReverseReads.collect_and_test, FilterReverseReads.collect.
  rewrite F. reflexivity.
Qed.

Lemma filter_drops {A} (f : A -> bool) (x : A) (l : list A) :
  In x l -> f x = false ->
  (List.length (filter f l) < List.length l)%nat.
Proof.
  induction l as [|a l IH]; intros I F; [contradiction|].
  pose proof (filter_length_le f l) as B. simpl.
  destruct I as [-> | I].
  - rewrite F. lia.
  - specialize (IH I F). destruct (f a); simpl; lia.
Qed.

(** C10. In the reverse-strand filter a line that is neither empty nor a
    header and has fewer than two columns gets [false] from [check_flag],
    as a record of the reverse strand does.  Read by the main loop it is
    dropped and the run goes on.  Read inside a group it is left out and
    sets [modification], exactly as a reverse-strand record does (only the
    message differs).  So a group with such a line is a reduced group, also
    when every other record of it is on the forward strand: the line is not
    among the lines written, and the other records kept are written with
    NH:i:k and HI:i:i for their tags, the recomputed MAPQ in their fifth
    column and their FLAG fields settled as for any reduced group (kept
    when a survivor is marked as primary, the bit 256 of the first one
    flipped otherwise), the FLAG of every record being a number; the run
    goes on, unless a new primary line is to be chosen and a survivor has
    too few columns for a CIGAR (code 12 or 11, nothing written). *)
Theorem short_line_counts_as_reverse (file : string) (line : string) :
  is_empty line = false -> is_header line = false ->
  (List.length (columns line) < 2)%nat ->
  (forall flag, check_flag line flag = ([NotEnoughColumns line], Some false)) /\
  forward line = false /\
  (forall st : state FilterReverseReads.group_state,
     mode_of st = Top ->
     out (FilterReverseReads.step file st line) = out st /\
     mode_of (FilterReverseReads.step file st line) = Top) /\
  (forall (st : state FilterReverseReads.group_state) i count g l ds,
     mode_of st = InGroup i count g ->
     l = line /\ ds = [NotEnoughColumns line] \/
     FilterReverseReads.forward_flag l = (ds, Some false) ->
     FilterReverseReads.step file st l =
     if i + 1 <? count
     then set_mode (warn st ds)
            (InGroup (i + 1) count
               (FilterReverseReads.mkGroup (FilterReverseReads.group g)
                  (FilterReverseReads.primary g) true))
     else after_rewrite (warn st ds) l (FilterReverseReads.group g)
            (FilterReverseReads.primary g)) /\
  (forall (st : state FilterReverseReads.group_state) first conts count,
     mode_of st = Top ->
     is_empty first = false -> is_header first = false ->
     read_count first = Declared count ->
     Z.of_nat (List.length (first :: conts)) = count ->
     In line conts ->
     (1 <= List.length (filter forward (first :: conts)))%nat ->
     Forall (fun l => snd (FilterReverseReads.forward_flag l) <> None)
       (first :: conts) ->
     let survivors := filter forward (first :: conts) in
     let st' := FilterReverseReads.process file st (first :: conts) in
     ~ In line survivors /\
     (List.length survivors < List.length (first :: conts))%nat /\
     match (if existsb marked_primary survivors then inr []
            else cigars_of survivors) with
     | inl code => mode_of st' = Halted (Returned code) /\ out st' = out st
     | inr _ =>
         mode_of st' = Top /\
         exists emitted,
           out st' = out st ++ emitted /\
           List.length emitted = List.length survivors /\
           renumbered survivors emitted /\
           requalified survivors emitted /\
           reflagged survivors emitted
     end).
Proof.
  intros E H L. pose proof (single_column_no_tab line L) as N.
  assert (F : forall flag,
             check_flag line flag = ([NotEnoughColumns line], Some false)).
  { intros flag. unfold check_flag. unfold no_tab in N. now rewrite N. }
  assert (K : forward line = false).
  { unfold forward, FilterReverseReads.forward_flag. now rewrite F. }
  split; [exact F|]. split; [exact K|]. split; [|split].
  - intros st M. unfold FilterReverseReads.step. rewrite M, E, H.
    unfold read_count. rewrite (no_tab_no_tag "NH:i:" line N). now split.
  - intros st i count g l ds M [[-> ->] | D].
    + apply (reverse_step_dropped file st i count g line _ M). apply F.
    + exact (reverse_step_dropped file st i count g l ds M D).
  - intros st first conts count M E1 H1 R1 L1 I K1 FF. cbv zeta.
    pose proof (read_count_range _ _ R1) as Rg.
    pose proof (filter_drops forward line (first :: conts) (or_intror I) K)
      as Sh.
    split; [|split; [exact Sh|]].
    { intros X. apply filter_In in X as [_ X]. congruence. }
    destruct (reverse_group_rewritten file st first conts count M E1 H1 R1 L1
                (conj K1 Sh) FF)
      as (st0 & O & HF & primary & SP & ->).
    pose proof (group_is_rewritten st0 (last conts first) _ primary HF
                  ltac:(lia) SP) as W.
    cbv zeta in W.
    destruct (if existsb marked_primary (filter forward (first :: conts))
              then inr [] else cigars_of (filter forward (first :: conts)))
      as [code | cigars].
    + destruct W as [W1 W2].
      * destruct (filter forward (first :: conts));
          [simpl in K1; lia | discriminate].
      * rewrite W2, O. now split.
    + destruct W as (W1 & _ & emitted & W2 & W3).
      * destruct (filter forward (first :: conts));
          [simpl in K1; lia | discriminate].
      * split; [exact W1|]. exists emitted. rewrite W2, O.
        split; [reflexivity | exact W3].
Qed.

(** ** The properties on sample inputs *)

Ltac each_line tac :=
  repeat first [apply Forall_nil | apply Forall_cons; [tac|]].

(** The sample group of three records, reduced to two by either filter, is
    written as two renumbered lines. *)
Lemma reduced_group_is_renumbered_witness :
  (exists emitted,
     out (FilterReverseReads.process "in.sam" initial
            (sample_first :: sample_conts)) = emitted /\
     List.length emitted = 2%nat /\
     renumbered (filter forward (sample_first :: sample_conts)) emitted) /\
  (exists emitted,
     out (SelectTranscripts.process sample_ids "in.sam" initial
            (sample_first :: sample_conts)) = emitted /\
     List.length emitted = 2%nat /\
     renumbered (filter (selected sample_ids) (sample_first :: sample_conts))
       emitted).
Proof.
  destruct (reduced_group_is_renumbered "in.sam" sample_ids sample_first
              sample_conts 3 eq_refl eq_refl eq_refl eq_refl) as [R S].
  split.
  - destruct (R initial eq_refl ltac:(vm_compute; lia)) as (e & A & B & C).
    exists e. split; [exact A | split; [|exact C]].
    rewrite (B eq_refl). vm_compute. reflexivity.
  - destruct (S initial eq_refl ltac:(vm_compute; lia)) as (e & A & B & C).
    exists e. split; [exact A | split; [|exact C]].
    rewrite (B eq_refl). vm_compute. reflexivity.
Defined.


(** The sample group, reduced to two survivors, gets the mapping quality 3
    in both filters. *)
Lemma reduced_group_mapping_quality_witness :
  (exists emitted,
     out (FilterReverseReads.process "in.sam" initial
            (sample_first :: sample_conts)) = emitted /\
     List.length emitted = 2%nat /\
     requalified (filter forward (sample_first :: sample_conts)) emitted) /\
  (exists emitted,
     out (SelectTranscripts.process sample_ids "in.sam" initial
            (sample_first :: sample_conts)) = emitted /\
     List.length emitted = 2%nat /\
     requalified (filter (selected sample_ids) (sample_first :: sample_conts))
       emitted) /\
  mapq_score 1 = 255 /\
  (IZR (mapq_score 2) <= neg10_log10 2 < IZR (mapq_score 2) + 1)%R.
Proof.
  destruct (reduced_group_mapping_quality "in.sam" sample_ids sample_first
              sample_conts 3 eq_refl eq_refl eq_refl eq_refl)
    as (R & S & Q1 & Q2 & _).
  split; [|split; [|split]].
  - destruct (R initial eq_refl ltac:(vm_compute; lia)) as (e & A & B & C).
    exists e. split; [exact A | split; [|exact C]].
    rewrite (B eq_refl). vm_compute. reflexivity.
  - destruct (S initial eq_refl ltac:(vm_compute; lia)) as (e & A & B & C).
    exists e. split; [exact A | split; [|exact C]].
    rewrite (B eq_refl). vm_compute. reflexivity.
  - apply Q1. lia.
  - apply Q2. lia.
Defined.

(** The sample group is written whole with a table of one gene, and not at
    all with a table of two genes. *)
Lemma ambiguous_group_all_or_nothing_witness :
  out (FilterAmbiguousGenes.process one_gene "genes.gtf" "in.sam" initial
         (sample_first :: sample_conts))
  = sample_first :: sample_conts /\
  out (FilterAmbiguousGenes.process sample_genes "genes.gtf" "in.sam" initial
         (sample_first :: sample_conts))
  = [].
Proof.
  split.
  - apply (ambiguous_group_all_or_nothing one_gene "genes.gtf" "in.sam" initial
             sample_first sample_conts 3 eq_refl eq_refl eq_refl eq_refl
             ltac:(lia) eq_refl
             ltac:(each_line ltac:(vm_compute; discriminate))).
    intros l [<- | [<- | []]]; reflexivity.
  - apply (ambiguous_group_all_or_nothing sample_genes "genes.gtf" "in.sam"
             initial sample_first sample_conts 3 eq_refl eq_refl eq_refl
             eq_refl ltac:(lia) eq_refl
             ltac:(each_line ltac:(vm_compute; discriminate))).
    exists sample_first, (sam "r1" "256" "t3" "3" "3").
    split; [now left|]. split; [right; right; now left|].
    vm_compute. discriminate.
Defined.

(** The sample group cut after its second line: the code 17 in every tool,
    and nothing written. *)
Lemma truncated_group_aborts_witness :
  (let st' := at_eof "in.sam"
                (FilterReverseReads.process "in.sam" initial
                   [sample_first; sam "r1" "16" "t2" "3" "2"]) in
   out st' = [] /\ mode_of st' = Halted (Returned 17)) /\
  (let st' := at_eof "in.sam"
                (SelectTranscripts.process sample_ids "in.sam" initial
                   [sample_first; sam "r1" "16" "t2" "3" "2"]) in
   out st' = [] /\ mode_of st' = Halted (Returned 17)) /\
  (let st' := at_eof "in.sam"
                (FilterAmbiguousGenes.process sample_genes "genes.gtf" "in.sam"
                   initial [sample_first; sam "r1" "16" "t2" "3" "2"]) in
   out st' = [] /\ mode_of st' = Halted (Returned 17)).
Proof.
  destruct (truncated_group_aborts "in.sam" sample_ids sample_genes "genes.gtf"
              sample_first [sam "r1" "16" "t2" "3" "2"] 3
              eq_refl eq_refl eq_refl ltac:(lia) ltac:(simpl; lia))
    as (R & S & A).
  split; [|split]; cbv zeta.
  - split; [exact (proj1 (R initial eq_refl)) | reflexivity].
  - split; [exact (proj1 (S initial eq_refl)) | reflexivity].
  - split; [exact (proj1 (A initial eq_refl)) | reflexivity].
Defined.

(** The pair of forward alignments, both of listed transcripts, is copied
    by both filters. *)
Lemma full_group_is_copied_witness :
  (let st' := FilterReverseReads.process "in.sam" initial
                (pair_first :: pair_conts) in
   mode_of st' = Top /\ out st' = pair_first :: pair_conts) /\
  (let st' := SelectTranscripts.process sample_ids "in.sam" initial
                (pair_first :: pair_conts) in
   mode_of st' = Top /\ out st' = pair_first :: pair_conts).
Proof.
  destruct (full_group_is_copied "in.sam" sample_ids pair_first pair_conts 2
              eq_refl eq_refl eq_refl ltac:(lia) eq_refl) as [R S].
  split.
  - exact (R initial eq_refl eq_refl).
  - exact (S initial eq_refl eq_refl
             ltac:(each_line ltac:(vm_compute; discriminate))).
Defined.

(** The [@SQ] line of a sequence that is not listed: written by two
    filters, left out by the allow-list filter. *)
Lemma header_line_passes_witness :
  FilterReverseReads.step "in.sam" initial sq_line = emit initial [sq_line] /\
  FilterAmbiguousGenes.step sample_genes "genes.gtf" "in.sam" initial sq_line
    = emit initial [sq_line] /\
  out (SelectTranscripts.step sample_ids "in.sam" initial sq_line)
    = [].
Proof.
  destruct (header_line_passes "in.sam" sample_ids sample_genes "genes.gtf"
              sq_line eq_refl) as (R & A & S).
  split; [exact (R initial eq_refl) | split; [exact (A initial eq_refl)|]].
  destruct (S initial eq_refl) as (_ & _ & Q). exact (proj1 (Q eq_refl)).
Defined.

(** C7 fails as it is stated: the allow-list filter does not write the
    header line of a sequence that is not in its list. *)
Lemma sq_header_is_filtered :
  is_header sq_line = true /\
  out (SelectTranscripts.filter_file sample_ids "in.sam" [sq_line]) = [] /\
  stopped (SelectTranscripts.filter_file sample_ids "in.sam" [sq_line]) = None.
Proof. repeat split. Qed.

(** The third record of the sample group is unknown to a table of two
    transcripts: the code 7, and the line after the group is not read.  A
    record that declares no alignment, of an unknown transcript: the code
    6. *)
Lemma unknown_transcript_in_group_aborts_witness :
  (let tg := [("t1", "G1"); ("t2", "G1")] in
   let st' := FilterAmbiguousGenes.process tg "genes.gtf" "in.sam" initial
                (sample_first :: sample_conts ++ [unique_line]) in
   st' = FilterAmbiguousGenes.process tg "genes.gtf" "in.sam" initial
           (sample_first :: sample_conts) /\
   out st' = [] /\
   mode_of st' = Halted (Returned 7)) /\
  (let st' := FilterAmbiguousGenes.process sample_genes "genes.gtf" "in.sam"
                initial (zero_line :: [] ++ [unique_line]) in
   st' = FilterAmbiguousGenes.process sample_genes "genes.gtf" "in.sam"
           initial [zero_line] /\
   out st' = [] /\
   mode_of st' = Halted (Returned 6)).
Proof.
  split.
  - apply (unknown_transcript_in_group_aborts [("t1", "G1"); ("t2", "G1")]
             "genes.gtf" "in.sam" initial sample_first sample_conts
             [unique_line] 3 eq_refl eq_refl eq_refl eq_refl).
    + lia.
    + right. vm_compute. discriminate.
    + apply Exists_cons_tl, Exists_cons_tl, Exists_cons_hd. reflexivity.
  - apply (unknown_transcript_in_group_aborts sample_genes "genes.gtf"
             "in.sam" initial zero_line [] [unique_line] 0
             eq_refl eq_refl eq_refl eq_refl).
    + lia.
    + left. reflexivity.
    + apply Exists_cons_hd. reflexivity.
Defined.

(** C8 fails as it is stated: a unique alignment on a transcript that the
    table does not know is written, and the run goes on to its end. *)
Lemma unknown_unique_transcript_passes :
  gene_of sample_genes unique_line = None /\
  out (FilterAmbiguousGenes.filter_file sample_genes "genes.gtf" "in.sam"
         [unique_line]) = [unique_line] /\
  stopped (FilterAmbiguousGenes.filter_file sample_genes "genes.gtf" "in.sam"
             [unique_line]) = None.
Proof. repeat split. Qed.

(** One argument, an input without an output: the usage text and 0. *)
Lemma bad_invocation_prints_usage_witness :
  FilterReverseReads.main 0 (fun _ => []) ["filter_reverse_reads"; "in.sam"]
    = mkRun (fun _ => []) true [] (Returned 0) /\
  FilterAmbiguousGenes.main 0 (fun _ => [])
    ["filter_ambiguous_genes"; "genes.gtf"; "in.sam"]
    = mkRun (fun _ => []) true [] (Returned 0) /\
  SelectTranscripts.main 0 (fun _ => []) ["select_transcripts"; "ids.txt"; "in.sam"]
    = mkRun (fun _ => []) true [] (Returned 0).
Proof.
  split; [|split].
  - apply (proj1 (bad_invocation_prints_usage 0 (fun _ => [])
                    ["filter_reverse_reads"; "in.sam"])).
    right. vm_compute. discriminate.
  - apply (proj1 (proj2 (bad_invocation_prints_usage 0 (fun _ => [])
                    ["filter_ambiguous_genes"; "genes.gtf"; "in.sam"]))).
    right. vm_compute. discriminate.
  - apply (proj2 (proj2 (bad_invocation_prints_usage 0 (fun _ => [])
                    ["select_transcripts"; "ids.txt"; "in.sam"]))).
    left. vm_compute. reflexivity.
Defined.

(** C9 fails as it is stated: a call whose argument count breaks the
    pairing, an input without an output, returns 0 and not another code. *)
Lemma odd_arguments_exit_zero :
  argc ["filter_reverse_reads"; "in.sam"] mod 2 <> 1 /\
  run_exit (FilterReverseReads.main 0 (fun _ => [])
              ["filter_reverse_reads"; "in.sam"]) = Returned 0 /\
  run_exit (FilterAmbiguousGenes.main 0 (fun _ => [])
              ["filter_ambiguous_genes"; "genes.gtf"; "in.sam"]) = Returned 0 /\
  run_exit (SelectTranscripts.main 0 (fun _ => [])
              ["select_transcripts"; "ids.txt"; "in.sam"]) = Returned 0.
Proof. repeat split. vm_compute. discriminate. Qed.

(** A line of one column in the sample group, in place of its second
    record: the two records kept are written as a reduced group. *)
Lemma short_line_counts_as_reverse_witness :
  check_flag "r1" 16 = ([NotEnoughColumns "r1"], Some false) /\
  forward "r1" = false /\
  out (FilterReverseReads.step "in.sam" initial "r1") = [] /\
  (let st' := FilterReverseReads.process "in.sam" initial short_group in
   mode_of st' = Top /\
   exists emitted,
     out st' = emitted /\
     List.length emitted = 2%nat /\
     renumbered (filter forward short_group) emitted /\
     requalified (filter forward short_group) emitted /\
     reflagged (filter forward short_group) emitted).
Proof.
  destruct (short_line_counts_as_reverse "in.sam" "r1" eq_refl eq_refl
              ltac:(simpl; lia)) as (A & B & C & _ & D).
  split; [exact (A 16) | split; [exact B | split]].
  - exact (proj1 (C initial eq_refl)).
  - pose proof (D initial sample_first ["r1"; sam "r1" "256" "t3" "3" "3"] 3
                  eq_refl eq_refl eq_refl eq_refl eq_refl
                  ltac:(now left) ltac:(vm_compute; lia)
                  ltac:(each_line ltac:(vm_compute; discriminate))) as W.
    cbv zeta in W. destruct W as (_ & _ & W).
    change (sample_first :: ["r1"; sam "r1" "256" "t3" "3" "3"])
      with short_group in W.
    change (existsb marked_primary (filter forward short_group))
      with false in W.
    cbv iota in W.
    destruct (cigars_of (filter forward short_group)) as [code | cigars] eqn:G;
      [discriminate G|].
    destruct W as (M & emitted & O & Ln & R).
    cbv zeta. split; [exact M|]. exists emitted.
    split; [exact O | split; [|exact R]]. rewrite Ln. reflexivity.
Defined.

(** * Further properties of the three filters *)

(** ** Tags by columns *)

Lemma columns_no_tab (s : string) : Forall no_tab (columns s).
Proof.
  induction s as [|c s IH]; simpl; [repeat constructor|].
  destruct (Ascii.eqb c TAB) eqn:E.
  - constructor; [apply no_tab_empty | exact IH].
  - destruct (columns s) as [|x xs].
    + repeat constructor. now apply no_tab_cons.
    + inversion IH; subst. constructor; [now apply no_tab_cons | assumption].
Qed.

(** A line is its columns, joined by tabs. *)
Lemma join_columns (s : string) : join_tabs (columns s) = s.
Proof.
  unfold join_tabs. induction s as [|c s IH]; [reflexivity|].
  cbn [columns]. destruct (Ascii.eqb c TAB) eqn:E.
  - apply Ascii.eqb_eq in E as ->. pose proof (columns_not_nil s) as N.
    destruct (columns s) as [|x xs]; [contradiction|].
    destruct xs as [|y ys]; simpl in IH |- *; now rewrite IH.
  - destruct (columns s) as [|x xs] eqn:C; [now apply columns_not_nil in C|].
    destruct xs as [|y ys]; simpl in IH |- *; now rewrite IH.
Qed.

(** The text from the position [q] of [s] to the next tab, or to the end. *)
Lemma find_char_later (x : string) (q : nat) :
  no_tab x -> find_char TAB x q = None.
Proof.
  revert q. induction x as [|c x IH]; intros q N; [reflexivity|].
  apply no_tab_inv in N as [C N]. destruct q; simpl.
  - rewrite C. unfold no_tab in N. now rewrite N.
  - now rewrite (IH q N).
Qed.

Lemma find_char_within (x r : string) (q : nat) :
  no_tab x -> (q <= String.length x)%nat ->
  find_char TAB (x ++ String TAB r) q = Some (String.length x).
Proof.
  revert q. induction x as [|c x IH]; intros q N L.
  - simpl in L. now replace q with 0%nat by lia.
  - apply no_tab_inv in N as [C N]. destruct q; simpl.
    + rewrite C. now rewrite (find_char_first x r N).
    + rewrite (IH q N); [reflexivity | simpl in L; lia].
Qed.

Lemma substring_within (x r : string) (q n : nat) :
  (q + n <= String.length x)%nat ->
  String.substring q n (x ++ r) = String.substring q n x.
Proof.
  revert q n. induction x as [|c x IH]; intros q n L.
  - simpl in L. replace q with 0%nat by lia. replace n with 0%nat by lia.
    now destruct r.
  - destruct q; simpl.
    + destruct n; [reflexivity|]. simpl. rewrite (IH 0%nat n); [reflexivity|].
      simpl in L. lia.
    + apply IH. simpl in L. lia.
Qed.

Lemma prefix_length (key q : string) :
  String.prefix key q = true -> (String.length key <= String.length q)%nat.
Proof.
  revert q. induction key as [|a key IH]; intros q H; [simpl; lia|].
  destruct q as [|b q]; [discriminate|]. simpl in H.
  destruct (ascii_dec a b); [|discriminate]. specialize (IH q H). simpl. lia.
Qed.

(** A key without a tab starts a line exactly when it starts its first
    column. *)
Lemma prefix_first_column (key q r : string) :
  no_tab key ->
  String.prefix key (q ++ String TAB r) = String.prefix key q.
Proof.
  revert q. induction key as [|a key IH]; intros q N.
  - now destruct q.
  - apply no_tab_inv in N as [C N]. destruct q as [|b q]; cbn [String.append String.prefix].
    + destruct (ascii_dec a TAB) as [-> | _]; [discriminate C | reflexivity].
    + destruct (ascii_dec a b); [now apply IH | reflexivity].
Qed.

Section TaggedText.
Variable key : string.
Hypothesis key_no_tab : no_tab key.

Lemma after_key_single (q : string) :
  no_tab q -> after_key key q = substr_from q (String.length key).
Proof. intros N. unfold after_key. now rewrite (find_char_later q _ N). Qed.

Lemma after_key_first (q r : string) :
  no_tab q -> String.prefix key q = true ->
  after_key key (q ++ String TAB r) = substr_from q (String.length key).
Proof.
  intros N P. pose proof (prefix_length key q P) as L. unfold after_key.
  rewrite (find_char_within q r _ N L). unfold substr, substr_from.
  apply substring_within. lia.
Qed.

End TaggedText.

Lemma text_at_shift (c : ascii) (s : string) (q : nat) :
  text_at (S q) (String c s) = text_at q s.
Proof.
  unfold text_at, substr, substr_from. cbn [find_char].
  destruct (find_char TAB s q) as [e|]; reflexivity.
Qed.

Lemma join_tabs_cons (p q : string) (l : list string) :
  join_tabs (p :: q :: l) = (p ++ String TAB (join_tabs (q :: l)))%string.
Proof. reflexivity. Qed.

Section TagReaders.
Variable key : string.
Hypothesis key_no_tab : no_tab key.

(** The text after the last occurrence of a tab and [key] in [s], and after
    the first one: what [rfind], or [find], and the reading up to the next
    tab give. *)
Let last_text (s : string) : option string :=
  option_map (fun p => text_at (p + S (String.length key)) s)
    (rfind_str (String TAB key) s).

Let first_text (s : string) : option string :=
  option_map (fun p => text_at (p + S (String.length key)) s)
    (find_str (String TAB key) s 0).

Lemma prefix_tab_key (r : string) :
  String.prefix (String TAB key) (String TAB r) = String.prefix key r.
Proof.
  cbn [String.prefix]. destruct (ascii_dec TAB TAB); [reflexivity | congruence].
Qed.

Lemma prefix_not_tab (c : ascii) (s : string) :
  Ascii.eqb c TAB = false -> String.prefix (String TAB key) (String c s) = false.
Proof.
  intros C. cbn [String.prefix].
  destruct (ascii_dec TAB c) as [<- | _]; [discriminate C | reflexivity].
Qed.

Lemma last_text_cons (c : ascii) (s : string) :
  last_text (String c s) =
  match last_text s with
  | Some t => Some t
  | None =>
      if String.prefix (String TAB key) (String c s)
      then Some (text_at (S (String.length key)) (String c s)) else None
  end.
Proof.
  unfold last_text. cbn [rfind_str].
  destruct (rfind_str (String TAB key) s) as [p|]; cbn [option_map].
  - change (S p + S (String.length key))%nat
      with (S (p + S (String.length key))).
    now rewrite text_at_shift.
  - destruct (String.prefix (String TAB key) (String c s)); reflexivity.
Qed.

Lemma first_text_cons (c : ascii) (s : string) :
  first_text (String c s) =
  if String.prefix (String TAB key) (String c s)
  then Some (text_at (S (String.length key)) (String c s))
  else first_text s.
Proof.
  unfold first_text, find_str. cbn [String.index].
  destruct (String.prefix (String TAB key) (String c s)); [reflexivity|].
  destruct (String.index 0 (String TAB key) s) as [p|]; cbn [option_map];
    [|reflexivity].
  change (S p + S (String.length key))%nat
    with (S (p + S (String.length key))).
  now rewrite text_at_shift.
Qed.

Lemma last_text_single (x : string) : no_tab x -> last_text x = None.
Proof. intros N. unfold last_text. now rewrite (no_tab_no_tag key x N). Qed.

Lemma first_text_single (x : string) : no_tab x -> first_text x = None.
Proof.
  induction x as [|c x IH]; intros N; [reflexivity|].
  apply no_tab_inv in N as [C N].
  now rewrite first_text_cons, (prefix_not_tab c x C), (IH N).
Qed.

Lemma last_text_app (x r : string) :
  no_tab x ->
  last_text (x ++ String TAB r) =
  match last_text r with
  | Some t => Some t
  | None => if String.prefix key r then Some (after_key key r) else None
  end.
Proof.
  induction x as [|c x IH]; intros N; cbn [String.append];
    rewrite last_text_cons.
  - rewrite prefix_tab_key, text_at_shift. reflexivity.
  - apply no_tab_inv in N as [C N]. rewrite (IH N), (prefix_not_tab c _ C).
    destruct (last_text r); [reflexivity|].
    destruct (String.prefix key r); reflexivity.
Qed.

Lemma first_text_app (x r : string) :
  no_tab x ->
  first_text (x ++ String TAB r) =
  if String.prefix key r then Some (after_key key r) else first_text r.
Proof.
  induction x as [|c x IH]; intros N; cbn [String.append];
    rewrite first_text_cons.
  - rewrite prefix_tab_key, text_at_shift. reflexivity.
  - apply no_tab_inv in N as [C N]. now rewrite (IH N), (prefix_not_tab c _ C).
Qed.

Lemma head_of_join (q : string) (l : list string) :
  Forall no_tab (q :: l) ->
  String.prefix key (join_tabs (q :: l)) = starts_with key q /\
  (starts_with key q = true ->
   after_key key (join_tabs (q :: l)) = substr_from q (String.length key)).
Proof.
  intros F. apply Forall_cons_iff in F as [Nq _]. destruct l as [|q' l].
  - split; [reflexivity|]. intros _. now apply after_key_single.
  - rewrite join_tabs_cons. split.
    + now apply prefix_first_column.
    + intros P. now apply after_key_first.
Qed.

Lemma last_text_join (ps : list string) :
  forall p0, Forall no_tab (p0 :: ps) ->
  last_text (join_tabs (p0 :: ps)) =
  option_map (fun q => substr_from q (String.length key)) (last_tagged key ps).
Proof.
  induction ps as [|q ps IH]; intros p0 F.
  - apply Forall_cons_iff in F as [N _]. now apply last_text_single.
  - apply Forall_cons_iff in F as [N F].
    rewrite join_tabs_cons, (last_text_app _ _ N), (IH q F).
    destruct (head_of_join q ps F) as [H1 H2]. cbn [last_tagged].
    destruct (last_tagged key ps); [reflexivity|]. rewrite H1.
    destruct (starts_with key q); [|reflexivity].
    cbn [option_map]. now rewrite H2.
Qed.

Lemma first_text_join (ps : list string) :
  forall p0, Forall no_tab (p0 :: ps) ->
  first_text (join_tabs (p0 :: ps)) =
  option_map (fun q => substr_from q (String.length key)) (first_tagged key ps).
Proof.
  induction ps as [|q ps IH]; intros p0 F.
  - apply Forall_cons_iff in F as [N _]. now apply first_text_single.
  - apply Forall_cons_iff in F as [N F].
    rewrite join_tabs_cons, (first_text_app _ _ N), (IH q F).
    destruct (head_of_join q ps F) as [H1 H2].
    unfold first_tagged. cbn [find]. rewrite H1.
    destruct (starts_with key q); [|reflexivity].
    cbn [option_map]. now rewrite H2.
Qed.

(** The two readers, by the columns of the line. *)
Lemma last_text_columns (line : string) :
  option_map (fun p => text_at (p + S (String.length key)) line)
    (rfind_str (String TAB key) line) =
  option_map (fun q => substr_from q (String.length key))
    (last_tagged key (tl (columns line))).
Proof.
  pose proof (columns_no_tab line) as F. pose proof (columns_not_nil line) as N.
  pose proof (join_columns line) as J.
  destruct (columns line) as [|p0 ps]; [contradiction|].
  rewrite <- J. exact (last_text_join ps p0 F).
Qed.

Lemma first_text_columns (line : string) :
  option_map (fun p => text_at (p + S (String.length key)) line)
    (find_str (String TAB key) line 0) =
  option_map (fun q => substr_from q (String.length key))
    (first_tagged key (tl (columns line))).
Proof.
  pose proof (columns_no_tab line) as F. pose proof (columns_not_nil line) as N.
  pose proof (join_columns line) as J.
  destruct (columns line) as [|p0 ps]; [contradiction|].
  rewrite <- J. exact (first_text_join ps p0 F).
Qed.

End TagReaders.

(** ** The field readers, by columns *)

Lemma append_assoc (a b c : string) : ((a ++ b) ++ c = a ++ (b ++ c))%string.
Proof. induction a as [|x a IH]; simpl; [reflexivity | now rewrite IH]. Qed.

Lemma length_append (a b : string) :
  String.length (a ++ b) = (String.length a + String.length b)%nat.
Proof. induction a as [|x a IH]; simpl; [reflexivity | now rewrite IH]. Qed.

(** The search for a tab from the end of a prefix [w] of the line. *)
Lemma find_after_prefix (w r : string) :
  find_char TAB (w ++ r) (String.length w) =
  option_map (Nat.add (String.length w)) (find_char TAB r 0).
Proof. rewrite <- (Nat.add_0_r (String.length w)) at 1. apply find_char_app. Qed.

(** The column that starts at the end of a prefix [w] of the line. *)
Lemma column_after_prefix (w r : string) :
  match find_char TAB (w ++ r) (String.length w) with
  | None => no_tab r /\ columns r = [r]
  | Some e =>
      exists y r', r = (y ++ String TAB r')%string /\ no_tab y /\
        e = (String.length w + String.length y)%nat /\
        columns r = y :: columns r' /\
        substr (w ++ r) (String.length w) (e - String.length w) = y /\
        (w ++ r = (w ++ y ++ String TAB EmptyString) ++ r')%string /\
        S e = String.length (w ++ y ++ String TAB EmptyString)
  end.
Proof.
  rewrite find_after_prefix.
  destruct (find_char TAB r 0) as [n|] eqn:F; cbn [option_map].
  - destruct (find_char_split r n F) as (y & r' & -> & Ny & <-).
    exists y, r'. split; [reflexivity|]. split; [exact Ny|].
    split; [reflexivity|]. split; [now apply columns_app|].
    split; [|split].
    + unfold substr.
      replace (String.length w + String.length y - String.length w)%nat
        with (String.length y) by lia.
      rewrite <- (Nat.add_0_r (String.length w)) at 1.
      now rewrite substring_app_skip, substring_prefix.
    + now rewrite !append_assoc.
    + rewrite !length_append. simpl. lia.
  - split; [exact F | now apply columns_single].
Qed.

(** The third column of a line of four columns or more, and the empty
    string, with a message, for any other line. *)
Lemma third_column (line : string) :
  SelectTranscripts.extract_transcript_id line =
  match columns line with
  | _ :: _ :: id :: _ :: _ => ([], id)
  | _ => ([NotEnoughColumns line], EmptyString)
  end.
Proof.
  unfold SelectTranscripts.extract_transcript_id.
  pose proof (column_after_prefix EmptyString line) as C1.
  cbn [String.append String.length] in C1.
  destruct (find_char TAB line 0) as [e1|].
  2:{ destruct C1 as [_ ->]. reflexivity. }
  destruct C1 as (x & r1 & -> & _ & -> & -> & _ & E1 & L1).
  cbn [String.append] in E1, L1. rewrite E1, L1.
  pose proof (column_after_prefix (x ++ String TAB "") r1) as C2.
  destruct (find_char TAB ((x ++ String TAB "") ++ r1)
              (String.length (x ++ String TAB ""))) as [e2|].
  2:{ destruct C2 as [_ ->]. reflexivity. }
  destruct C2 as (y & r2 & -> & _ & -> & -> & _ & E2 & L2).
  rewrite E2, L2.
  pose proof (column_after_prefix
                ((x ++ String TAB "") ++ y ++ String TAB "") r2) as C3.
  destruct (find_char TAB (((x ++ String TAB "") ++ y ++ String TAB "") ++ r2)
              (String.length ((x ++ String TAB "") ++ y ++ String TAB "")))
    as [e3|].
  2:{ destruct C3 as [_ ->]. reflexivity. }
  destruct C3 as (z & r3 & -> & _ & -> & -> & S3 & _ & _).
  rewrite S3. pose proof (columns_not_nil r3).
  destruct (columns r3); [contradiction | reflexivity].
Qed.

Lemma read_count_columns (line : string) :
  read_count line =
  match last_tagged "NH:i:" (tl (columns line)) with
  | None => NoTag
  | Some q =>
      match tag_value q with
      | None => BadCount
      | Some n => Declared n
      end
  end.
Proof.
  pose proof (last_text_columns "NH:i:" eq_refl line) as T.
  unfold read_count, tag_value.
  destruct (rfind_str (String TAB "NH:i:") line) as [p|];
    destruct (last_tagged "NH:i:" (tl (columns line))) as [q|];
    cbn [option_map] in T; try discriminate T; [|reflexivity].
  injection T as T. unfold text_at in T.
  change (S (String.length "NH:i:")) with 6%nat in T.
  change (String.length "NH:i:") with 5%nat in T. now rewrite T.
Qed.

(** X1. The declared multiplicity of a line is read from the last of its
    columns, the first one apart, that starts with NH:i: - there is no tag
    without such a column, and [std::stoull] throws when what follows the
    key is not a number. *)
Theorem declared_count_by_columns (line : string) :
  read_count line =
  match last_tagged "NH:i:" (tl (columns line)) with
  | None => NoTag
  | Some q =>
      match tag_value q with
      | None => BadCount
      | Some n => Declared n
      end
  end.
Proof.
  pose proof (last_text_columns "NH:i:" eq_refl line) as T.
  unfold read_count, tag_value.
  destruct (rfind_str (String TAB "NH:i:") line) as [p|];
    destruct (last_tagged "NH:i:" (tl (columns line))) as [q|];
    cbn [option_map] in T; try discriminate T; [|reflexivity].
  injection T as T. unfold text_at in T.
  change (S (String.length "NH:i:")) with 6%nat in T.
  change (String.length "NH:i:") with 5%nat in T. now rewrite T.
Qed.

Lemma prefix_column_and_tab (k x r : string) :
  no_tab k -> no_tab x ->
  String.prefix (k ++ String TAB "") (x ++ String TAB r) = String.eqb k x.
Proof.
  revert x. induction k as [|a k IH]; intros x Nk Nx.
  - destruct x as [|b x]; cbn [String.append String.prefix String.eqb].
    + destruct (ascii_dec TAB TAB); [now destruct r | congruence].
    + apply no_tab_inv in Nx as [C _].
      destruct (ascii_dec TAB b) as [<- | _]; [discriminate C | reflexivity].
  - apply no_tab_inv in Nk as [Ca Nk].
    destruct x as [|b x]; cbn [String.append String.prefix String.eqb].
    + destruct (ascii_dec a TAB) as [-> | _]; [discriminate Ca | reflexivity].
    + apply no_tab_inv in Nx as [_ Nx].
      destruct (ascii_dec a b) as [<- | D].
      * rewrite Ascii.eqb_refl. now apply IH.
      * apply Ascii.eqb_neq in D. now rewrite D.
Qed.

Lemma prefix_with_tab_single (k x : string) :
  no_tab x -> String.prefix (k ++ String TAB "") x = false.
Proof.
  revert x. induction k as [|a k IH]; intros x N;
    destruct x as [|b x]; cbn [String.append String.prefix]; try reflexivity.
  - apply no_tab_inv in N as [C _].
    destruct (ascii_dec TAB b) as [<- | _]; [discriminate C | reflexivity].
  - apply no_tab_inv in N as [_ N].
    destruct (ascii_dec a b); [now apply IH | reflexivity].
Qed.

(** X2. A header line read by the main loop of the allow-list filter is
    written unless its first column is [@SQ] and other columns follow; an
    [@SQ] line is written exactly when it has a column that starts with SN:
    and what follows SN: in the first such column is in the allow-list.
    The run stays between two units. *)
Theorem sq_header_by_columns
    (ids : list string) (file : string)
    (st : state SelectTranscripts.group_state)
    (line c0 : string) (rest : list string) :
  mode_of st = Top -> is_header line = true -> columns line = c0 :: rest ->
  let st' := SelectTranscripts.step ids file st line in
  mode_of st' = Top /\
  out st' = out st ++
    if (String.eqb "@SQ" c0 && negb (Nat.eqb (List.length rest) 0))%bool then
      match first_tagged "SN:" rest with
      | Some q =>
          if SelectTranscripts.listed ids (substr_from q 3) then [line] else []
      | None => []
      end
    else [line].
Proof.
  intros M H C.
  assert (E : is_empty line = false)
    by (destruct line; [discriminate | reflexivity]).
  assert (S : let st' := SelectTranscripts.step ids file st line in
              mode_of st' = Top /\
              (starts_with (String.append "@SQ" (String TAB EmptyString)) line
               = false -> out st' = out st ++ [line]) /\
              (starts_with (String.append "@SQ" (String TAB EmptyString)) line
               = true ->
               out st' = out st ++
                 match SelectTranscripts.sequence_name line with
                 | Some name =>
                     if SelectTranscripts.listed ids name then [line] else []
                 | None => []
                 end)).
  { cbv zeta. unfold SelectTranscripts.step. rewrite M, E, H.
    destruct (starts_with (String.append "@SQ" (String TAB EmptyString)) line).
    - destruct (SelectTranscripts.sequence_name line) as [name|].
      + destruct (SelectTranscripts.listed ids name); simpl;
          rewrite ?app_nil_r; repeat split; auto; discriminate.
      + simpl. rewrite app_nil_r. repeat split; auto; discriminate.
    - simpl. repeat split; auto; discriminate. }
  cbv zeta in S |- *. destruct S as (S1 & S2 & S3).
  split; [exact S1|].
  assert (P : starts_with (String.append "@SQ" (String TAB EmptyString)) line
              = (String.eqb "@SQ" c0 && negb (Nat.eqb (List.length rest) 0))%bool).
  { pose proof (columns_no_tab line) as F. pose proof (join_columns line) as J.
    rewrite C in F, J. apply Forall_cons_iff in F as [N0 F]. rewrite <- J.
    unfold starts_with. destruct rest as [|q l].
    - cbn [List.length Nat.eqb negb]. rewrite andb_false_r.
      exact (prefix_with_tab_single "@SQ" c0 N0).
    - rewrite join_tabs_cons. cbn [List.length Nat.eqb negb].
      rewrite andb_true_r. now apply prefix_column_and_tab. }
  rewrite <- P.
  destruct (starts_with (String.append "@SQ" (String TAB EmptyString)) line).
  - rewrite (S3 eq_refl). f_equal.
    pose proof (first_text_columns "SN:" eq_refl line) as T.
    rewrite C in T. cbn [tl] in T. unfold SelectTranscripts.sequence_name.
    destruct (find_str (String TAB "SN:") line 0) as [p|];
      destruct (first_tagged "SN:" rest) as [q|];
      cbn [option_map] in T; try discriminate T; [|reflexivity].
    injection T as T. unfold text_at in T.
    change (S (String.length "SN:")) with 4%nat in T.
    change (String.length "SN:") with 3%nat in T.
    destruct (find_char TAB line (p + 4)); now rewrite T.
  - now rewrite (S2 eq_refl).
Qed.

(** X3. [check_flag] answers from the second column of a line of three
    columns or more: it throws when the column is not a number and tells
    otherwise whether no bit of [flag] is set in it; for a line of fewer
    columns it prints a message and answers [false].  [primary_flag] of
    select_transcripts.cpp is [check_flag] with the flag 256. *)
Theorem check_flag_by_columns (line : string) (flag : Z) :
  ((List.length (columns line) < 3)%nat ->
   check_flag line flag = ([NotEnoughColumns line], Some false)) /\
  (forall a f b rest, columns line = a :: f :: b :: rest ->
     check_flag line flag =
     ([], match stoull f with
          | Some v => Some (Z.land v flag =? 0)
          | None => None
          end)) /\
  SelectTranscripts.primary_flag line = check_flag line 256.
Proof.
  rewrite check_flag_columns. split; [|split].
  - intros L. destruct (columns line) as [|a [|f [|b rest]]];
      try reflexivity. simpl in L. lia.
  - intros a f b rest ->. now destruct (stoull f).
  - reflexivity.
Qed.


(** ** Inputs of single lines *)

Lemma fold_singles {G} (step : state G -> string -> state G)
    (ok keep : string -> bool) :
  (forall st l, mode_of st = Top -> ok l = true ->
     mode_of (step st l) = Top /\
     out (step st l) = out st ++ filter keep [l]) ->
  forall lines st, mode_of st = Top -> forallb ok lines = true ->
    mode_of (fold_left step lines st) = Top /\
    out (fold_left step lines st) = out st ++ filter keep lines.
Proof.
  intros S. induction lines as [|l lines IH]; intros st M F.
  - simpl. now rewrite app_nil_r.
  - cbn [forallb] in F. apply andb_true_iff in F as [Fl Fr].
    destruct (S st l M Fl) as [M1 O1]. cbn [fold_left].
    destruct (IH (step st l) M1 Fr) as [M2 O2].
    split; [exact M2|]. rewrite O2, O1, <- app_assoc. f_equal.
    simpl. now destruct (keep l).
Qed.

Lemma at_eof_top {G} (file : string) (st : state G) :
  mode_of st = Top -> at_eof file st = st.
Proof. unfold at_eof. now intros ->. Qed.

Lemma header_not_empty (line : string) :
  is_header line = true -> is_empty line = false.
Proof. destruct line; [discriminate | reflexivity]. Qed.

(** X5. On an input whose lines are all units by themselves (empty lines,
    header lines, lines without NH tag, lines that declare one alignment),
    where the FLAG field of every line that declares one alignment is a
    number, the reverse-strand filter is a plain filter: it reads the input
    to its end and writes, unchanged and in their order, the header lines
    and the lines that declare one forward alignment. *)
Theorem reverse_filter_on_single_lines (file : string) (lines : list string) :
  forallb single lines = true ->
  Forall (fun l => is_header l = false -> unique l = true ->
                   snd (FilterReverseReads.forward_flag l) <> None) lines ->
  stopped (FilterReverseReads.filter_file file lines) = None /\
  out (FilterReverseReads.filter_file file lines) = filter reverse_keeps lines.
Proof.
  intros S F.
  set (ok := fun l => (single l &&
                       (is_header l || negb (unique l) ||
                        match snd (FilterReverseReads.forward_flag l) with
                        | Some _ => true | None => false end))%bool).
  assert (A : forallb ok lines = true).
  { rewrite forallb_forall in S |- *. rewrite Forall_forall in F.
    intros l I. unfold ok. rewrite (S l I). specialize (F l I).
    destruct (is_header l); [reflexivity|].
    destruct (unique l); [|reflexivity]. specialize (F eq_refl eq_refl).
    now destruct (snd (FilterReverseReads.forward_flag l)). }
  destruct (fold_singles (FilterReverseReads.step file) ok reverse_keeps)
    with (lines := lines) (st := @initial FilterReverseReads.group_state)
    as [M O]; [|reflexivity | exact A |].
  - clear. intros st l M K. unfold ok in K. apply andb_true_iff in K as [S T].
    unfold FilterReverseReads.step. rewrite M.
    unfold single in S. unfold unique in T.
    unfold reverse_keeps, unique, forward. cbn [filter].
    destruct (is_empty l) eqn:E.
    { destruct (l); [|discriminate E]. simpl. rewrite app_nil_r. now split. }
    destruct (is_header l) eqn:H; [now split|].
    cbn [orb negb andb] in S, T |- *.
    destruct (read_count l) as [| |n]; try discriminate S.
    + simpl. rewrite app_nil_r. now split.
    + rewrite S in T |- *. cbn [orb negb andb] in T |- *.
      destruct (FilterReverseReads.forward_flag l) as [ds [[|]|]];
        cbn [snd] in T |- *; try discriminate T; simpl;
        rewrite ?app_nil_r; now split.
  - unfold FilterReverseReads.filter_file, FilterReverseReads.process.
    rewrite (at_eof_top file _ M). unfold stopped. rewrite M, O. now split.
Qed.

(** X6. On an input of single lines the allow-list filter is a plain
    filter as well: it writes the header lines other than [@SQ] lines, the
    [@SQ] lines of listed sequences and the lines that declare one
    alignment on a listed transcript. *)
Theorem select_filter_on_single_lines
    (ids : list string) (file : string) (lines : list string) :
  forallb single lines = true ->
  stopped (SelectTranscripts.filter_file ids file lines) = None /\
  out (SelectTranscripts.filter_file ids file lines)
  = filter (select_keeps ids) lines.
Proof.
  intros S.
  destruct (fold_singles (SelectTranscripts.step ids file) single
              (select_keeps ids))
    with (lines := lines) (st := @initial SelectTranscripts.group_state)
    as [M O]; [|reflexivity | exact S |].
  - clear. intros st l M S.
    unfold SelectTranscripts.step. rewrite M.
    unfold single in S. unfold select_keeps, unique, selected. cbn [filter].
    destruct (is_empty l) eqn:E.
    { destruct (l); [|discriminate E]. simpl. rewrite app_nil_r. now split. }
    destruct (is_header l) eqn:H.
    { destruct (starts_with (String.append "@SQ" (String TAB EmptyString)) l).
      - destruct (SelectTranscripts.sequence_name l) as [name|].
        + destruct (SelectTranscripts.listed ids name); simpl;
            rewrite ?app_nil_r; now split.
        + simpl. rewrite app_nil_r. now split.
      - now split. }
    cbn [orb negb andb] in S |- *.
    destruct (read_count l) as [| |n]; try discriminate S.
    + simpl. rewrite app_nil_r. now split.
    + rewrite S. cbn [andb].
      destruct (SelectTranscripts.extract_transcript_id l) as [ds id].
      cbn [snd]. destruct (SelectTranscripts.listed ids id); simpl;
        rewrite ?app_nil_r; now split.
  - unfold SelectTranscripts.filter_file, SelectTranscripts.process.
    rewrite (at_eof_top file _ M). unfold stopped. rewrite M, O. now split.
Qed.

(** X7. On an input of single lines the gene-ambiguity filter looks nothing
    up: it writes every header line and every line that declares one
    alignment, whatever the table holds, and leaves out only empty lines
    and lines without NH tag. *)
Theorem ambiguous_filter_on_single_lines
    (tg : FilterAmbiguousGenes.gene_map) (ann file : string)
    (lines : list string) :
  forallb single lines = true ->
  stopped (FilterAmbiguousGenes.filter_file tg ann file lines) = None /\
  out (FilterAmbiguousGenes.filter_file tg ann file lines)
  = filter ambiguous_keeps lines.
Proof.
  intros S.
  destruct (fold_singles (FilterAmbiguousGenes.step tg ann file) single
              ambiguous_keeps)
    with (lines := lines) (st := @initial FilterAmbiguousGenes.group_state)
    as [M O]; [|reflexivity | exact S |].
  - clear. intros st l M S.
    unfold FilterAmbiguousGenes.step. rewrite M.
    unfold single in S. unfold ambiguous_keeps, unique. cbn [filter].
    destruct (is_empty l) eqn:E.
    { destruct (l); [|discriminate E]. simpl. rewrite app_nil_r. now split. }
    destruct (is_header l) eqn:H; [now split|]. cbn [orb negb andb] in S |- *.
    destruct (read_count l) as [| |n]; try discriminate S.
    + simpl. rewrite app_nil_r. now split.
    + rewrite S. now split.
  - unfold FilterAmbiguousGenes.filter_file, FilterAmbiguousGenes.process.
    rewrite (at_eof_top file _ M). unfold stopped. rewrite M, O. now split.
Qed.

(** ** Groups that lose every record *)

Lemma filter_none {A} (f : A -> bool) (l : list A) :
  forallb (fun x => negb (f x)) l = true -> filter f l = [].
Proof.
  induction l as [|a l IH]; simpl; [reflexivity|].
  destruct (f a); simpl; [discriminate | exact IH].
Qed.

Lemma after_rewrite_nothing {G} (st : state G) (line : string) (primary : Z) :
  mode_of (after_rewrite st line [] primary) = Top /\
  out (after_rewrite st line [] primary) = out st.
Proof.
  unfold after_rewrite, rewrite_group.
  destruct (primary =? SIZE_MAX); simpl; rewrite app_nil_r; now split.
Qed.

(** X8. When a per-record filter drops every record of a group of N > 1
    records, nothing is written for the group and the run goes on with the
    next unit of the input: no code is returned. *)
Theorem emptied_group_is_skipped
    (file : string) (ids : list string)
    (first : string) (conts : list string) (count : Z) :
  is_empty first = false -> is_header first = false ->
  read_count first = Declared count -> 1 < count ->
  Z.of_nat (List.length (first :: conts)) = count ->
  (forall st : state FilterReverseReads.group_state,
     mode_of st = Top ->
     Forall (fun l => snd (FilterReverseReads.forward_flag l) = Some false)
       (first :: conts) ->
     let st' := FilterReverseReads.process file st (first :: conts) in
     mode_of st' = Top /\ out st' = out st) /\
  (forall st : state SelectTranscripts.group_state,
     mode_of st = Top ->
     forallb (fun l => negb (selected ids l)) (first :: conts) = true ->
     let st' := SelectTranscripts.process ids file st (first :: conts) in
     mode_of st' = Top /\ out st' = out st).
Proof.
  intros E H R C L. split.
  - intros st M F. rewrite Forall_forall in F.
    assert (K : forallb (fun l => negb (forward l)) (first :: conts) = true).
    { apply forallb_forall. intros l I. unfold forward. now rewrite (F l I). }
    destruct (ReverseFacts.reverse_group_collected file st first conts count
                M E H R ltac:(lia) L)
      as [(_ & _ & l & X1 & X2) | (st0 & g & X1 & X2 & X3 & X4 & _)].
    + rewrite (F l X1) in X2. discriminate X2.
    + cbv zeta. rewrite X1. unfold FilterReverseReads.finish_group.
      rewrite X4, X3, (filter_none _ _ K).
      replace (forallb forward (first :: conts)) with false.
      * cbn [negb]. rewrite <- X2. apply after_rewrite_nothing.
      * symmetry. cbn [forallb] in K |- *.
        apply andb_true_iff in K as [K _]. apply negb_true_iff in K.
        now rewrite K.
  - intros st M K.
    destruct (SelectFacts.select_group_collected ids file st first conts count
                M E H R ltac:(lia) L)
      as [(_ & _ & l & X1 & X2 & _) | (st0 & g & X1 & X2 & X3)].
    + rewrite forallb_forall in K. specialize (K l X1).
      rewrite X2 in K. discriminate K.
    + cbv zeta. rewrite X1. unfold SelectTranscripts.finish_group.
      rewrite X3, (filter_none _ _ K).
      replace (Z.of_nat (List.length (@nil string)) =? count) with false
        by (symmetry; apply Z.eqb_neq; simpl; lia).
      rewrite <- X2. apply after_rewrite_nothing.
Qed.

(** ** What the gene-ambiguity filter never writes *)

Lemma subsequence_refl (l : list string) : subsequence l l.
Proof. induction l; constructor; assumption. Qed.

Lemma subsequence_nil (t : list string) : subsequence [] t.
Proof. induction t; constructor; assumption. Qed.

Lemma subsequence_skip_last (s t : list string) (l : string) :
  subsequence s t -> subsequence s (t ++ [l]).
Proof.
  induction 1; simpl.
  - apply subsequence_nil.
  - now apply sub_skip.
  - now apply sub_keep.
Qed.

Lemma subsequence_keep_last (s t : list string) (l : string) :
  subsequence s t -> subsequence (s ++ [l]) (t ++ [l]).
Proof.
  induction 1; simpl.
  - apply sub_keep, sub_nil.
  - now apply sub_skip.
  - now apply sub_keep.
Qed.

Lemma subsequence_prefix (s g t : list string) :
  subsequence (s ++ g) t -> subsequence s t.
Proof.
  remember (s ++ g) as sg eqn:E. intros H. revert s g E.
  induction H as [|l s' t' H IH|l s' t' H IH]; intros s g E.
  - symmetry in E. apply app_eq_nil in E as [-> _]. constructor.
  - apply sub_skip. now apply (IH s g).
  - destruct s as [|a s].
    + apply subsequence_nil.
    + simpl in E. injection E as -> ->. apply sub_keep. now apply (IH s g).
Qed.


Lemma held_test (tg : FilterAmbiguousGenes.gene_map)
    (st : state FilterAmbiguousGenes.group_state) (i count : Z)
    (g : FilterAmbiguousGenes.group_state) (t : list string) :
  subsequence (out st ++ FilterAmbiguousGenes.group g) t ->
  subsequence (held (FilterAmbiguousGenes.test st i count g)) t.
Proof.
  intros S. unfold FilterAmbiguousGenes.test, FilterAmbiguousGenes.finish_group.
  destruct (i <? count); [exact S|].
  destruct (Z.of_nat (List.length (FilterAmbiguousGenes.group g)) =? count);
    unfold held; simpl; [exact S | exact (subsequence_prefix _ _ _ S)].
Qed.

Lemma held_step (tg : FilterAmbiguousGenes.gene_map) (ann file : string)
    (st : state FilterAmbiguousGenes.group_state) (l : string)
    (t : list string) :
  subsequence (held st) t ->
  subsequence (held (FilterAmbiguousGenes.step tg ann file st l)) (t ++ [l]).
Proof.
  intros S. unfold FilterAmbiguousGenes.step.
  destruct (mode_of st) as [|i count g|h] eqn:M.
  - unfold held in S. rewrite M in S.
    destruct (is_empty l).
    { unfold held. simpl. rewrite M. now apply subsequence_skip_last. }
    destruct (is_header l).
    { unfold held. simpl. rewrite M. now apply subsequence_keep_last. }
    destruct (read_count l) as [| |n].
    + unfold held. simpl. rewrite M. now apply subsequence_skip_last.
    + unfold held. simpl. now apply subsequence_skip_last.
    + destruct (n =? 1).
      { unfold held. simpl. rewrite M. now apply subsequence_keep_last. }
      destruct (FilterAmbiguousGenes.extract_transcript_id l) as [ds id].
      destruct (FilterAmbiguousGenes.map_find id tg) as [gene|].
      * apply held_test; [exact tg|]. simpl.
        now apply subsequence_keep_last.
      * unfold held. simpl. now apply subsequence_skip_last.
  - unfold held in S. rewrite M in S. unfold FilterAmbiguousGenes.collect.
    destruct (FilterAmbiguousGenes.extract_transcript_id l) as [ds id].
    destruct (FilterAmbiguousGenes.map_find id tg) as [gene|].
    + destruct (String.eqb (FilterAmbiguousGenes.first_gene g) gene);
        (apply held_test; [exact tg|]); simpl.
      * rewrite app_assoc. now apply subsequence_keep_last.
      * rewrite app_nil_r. apply subsequence_skip_last.
        exact (subsequence_prefix _ _ _ S).
    + unfold held. simpl. apply subsequence_skip_last.
      exact (subsequence_prefix _ _ _ S).
  - unfold held in *. rewrite M in *. now apply subsequence_skip_last.
Qed.

Lemma held_process (tg : FilterAmbiguousGenes.gene_map) (ann file : string)
    (lines : list string) :
  forall (st : state FilterAmbiguousGenes.group_state) (t : list string),
  subsequence (held st) t ->
  subsequence (held (FilterAmbiguousGenes.process tg ann file st lines))
    (t ++ lines).
Proof.
  unfold FilterAmbiguousGenes.process.
  induction lines as [|l lines IH]; intros st t S; simpl.
  - now rewrite app_nil_r.
  - replace (t ++ l :: lines) with ((t ++ [l]) ++ lines)
      by now rewrite <- app_assoc.
    apply IH. now apply held_step.
Qed.

(** X9. Whatever the input and the table, the gene-ambiguity filter writes
    a subsequence of the lines of its input: it never changes a line,
    never writes a line twice and never changes the order of the lines. *)
Theorem ambiguous_output_is_subsequence
    (tg : FilterAmbiguousGenes.gene_map) (ann file : string)
    (lines : list string) :
  subsequence (out (FilterAmbiguousGenes.filter_file tg ann file lines)) lines.
Proof.
  unfold FilterAmbiguousGenes.filter_file.
  pose proof (held_process tg ann file lines initial [] sub_nil) as S.
  simpl in S. unfold at_eof, held in *.
  destruct (mode_of (FilterAmbiguousGenes.process tg ann file initial lines));
    simpl; [exact S | exact (subsequence_prefix _ _ _ S) | exact S].
Qed.

(** ** The files and the codes of a run *)

Lemma cigars_of_code (group : list string) (code : Z) :
  cigars_of group = inl code -> code = 12 \/ code = 11.
Proof.
  induction group as [|s group IH]; simpl; [discriminate|].
  unfold cigar_of. destruct (skip_tabs s 0 5) as [index|].
  - destruct (find_char TAB s (S index)).
    + destruct (cigars_of group); [|discriminate].
      intros [= <-]. now apply IH.
    + intros [= <-]. now right.
  - intros [= <-]. now left.
Qed.

Lemma after_rewrite_halt {G} (st : state G) (line : string)
    (group : list string) (primary : Z) (h : halt) :
  mode_of (after_rewrite st line group primary) = Halted h ->
  rewriting_halt h.
Proof.
  unfold after_rewrite, rewrite_group, rewriting_halt.
  destruct (primary =? SIZE_MAX).
  - destruct (cigars_of group) as [code | cigars] eqn:C.
    + simpl. intros [= <-].
      destruct (cigars_of_code group code C) as [-> | ->]; auto.
    + destruct (rewrite_lines _ _ 0 0 group) as [ls [|]]; simpl;
        [discriminate | intros [= <-]; auto].
  - destruct (rewrite_lines _ _ SIZE_MAX 0 group) as [ls [|]]; simpl;
      [discriminate | intros [= <-]; auto].
Qed.

Lemma fold_halts {G} (step : state G -> string -> state G) (P : halt -> Prop) :
  (forall st l h, (forall h', mode_of st = Halted h' -> P h') ->
                  mode_of (step st l) = Halted h -> P h) ->
  forall lines st h, (forall h', mode_of st = Halted h' -> P h') ->
    mode_of (fold_left step lines st) = Halted h -> P h.
Proof.
  intros S. induction lines as [|l lines IH]; intros st h I; simpl.
  - apply I.
  - apply IH. intros h'. now apply (S st l h').
Qed.

Lemma at_eof_halts {G} (file : string) (st : state G) (P : halt -> Prop)
    (h : halt) :
  P (Returned 17) -> (forall h', mode_of st = Halted h' -> P h') ->
  stopped (at_eof file st) = Some h -> P h.
Proof.
  intros P17 I. unfold stopped, at_eof.
  destruct (mode_of st) as [|i count g|h'] eqn:M; simpl; rewrite ?M;
    try discriminate; intros [= <-]; [exact P17 | now apply I].
Qed.

Lemma reverse_halts (file : string) (lines : list string) (h : halt) :
  stopped (FilterReverseReads.filter_file file lines) = Some h ->
  rewriting_halt h.
Proof.
  unfold FilterReverseReads.filter_file, FilterReverseReads.process.
  intros E. refine (at_eof_halts _ _ rewriting_halt h _ _ E); [now left|].
  clear E h. intros h E.
  refine (fold_halts _ rewriting_halt _ _ _ _ _ E); [|discriminate].
  clear. intros st l h I. unfold FilterReverseReads.step.
  assert (T : forall st1 i count g,
             mode_of (FilterReverseReads.collect_and_test st1 l i count g)
             = Halted h -> rewriting_halt h).
  { intros st1 i count g. unfold FilterReverseReads.collect_and_test.
    destruct (FilterReverseReads.collect l g) as [ds [g1|]].
    - destruct (i <? count); [discriminate|].
      unfold FilterReverseReads.finish_group.
      destruct (FilterReverseReads.modification g1);
        [apply after_rewrite_halt | discriminate].
    - simpl. intros [= <-]. unfold rewriting_halt. auto. }
  destruct (mode_of st) as [|i count g|h'] eqn:M.
  - destruct (is_empty l); [simpl; rewrite M; discriminate|].
    destruct (is_header l); [simpl; rewrite M; discriminate|].
    destruct (read_count l) as [| |n].
    + simpl. rewrite M. discriminate.
    + simpl. intros [= <-]. unfold rewriting_halt. auto.
    + destruct (n =? 1); [|apply T].
      destruct (FilterReverseReads.forward_flag l) as [ds [[|]|]]; simpl;
        rewrite ?M; try discriminate.
      intros [= <-]. unfold rewriting_halt. auto.
  - apply T.
  - rewrite M. apply I.
Qed.

Lemma select_halts (ids : list string) (file : string) (lines : list string)
    (h : halt) :
  stopped (SelectTranscripts.filter_file ids file lines) = Some h ->
  rewriting_halt h.
Proof.
  unfold SelectTranscripts.filter_file, SelectTranscripts.process.
  intros E. refine (at_eof_halts _ _ rewriting_halt h _ _ E); [now left|].
  clear E h. intros h E.
  refine (fold_halts _ rewriting_halt _ _ _ _ _ E); [|discriminate].
  clear. intros st l h I. unfold SelectTranscripts.step.
  assert (T : forall st1 i count g,
             mode_of (SelectTranscripts.collect_and_test ids st1 l i count g)
             = Halted h -> rewriting_halt h).
  { intros st1 i count g. unfold SelectTranscripts.collect_and_test.
    destruct (SelectTranscripts.collect ids l g) as [ds [g1|]].
    - destruct (i <? count); [discriminate|].
      unfold SelectTranscripts.finish_group.
      destruct (Z.of_nat (List.length (SelectTranscripts.group g1)) =? count);
        [discriminate | apply after_rewrite_halt].
    - simpl. intros [= <-]. unfold rewriting_halt. auto. }
  destruct (mode_of st) as [|i count g|h'] eqn:M.
  - destruct (is_empty l); [simpl; rewrite M; discriminate|].
    destruct (is_header l).
    { destruct (starts_with _ l); [|simpl; rewrite M; discriminate].
      destruct (SelectTranscripts.sequence_name l) as [name|];
        [destruct (SelectTranscripts.listed ids name)|]; simpl; rewrite M;
        discriminate. }
    destruct (read_count l) as [| |n].
    + simpl. rewrite M. discriminate.
    + simpl. intros [= <-]. unfold rewriting_halt. auto.
    + destruct (n =? 1); [|apply T].
      destruct (SelectTranscripts.extract_transcript_id l) as [ds id].
      destruct (SelectTranscripts.listed ids id); simpl; rewrite M;
        discriminate.
  - apply T.
  - rewrite M. apply I.
Qed.

Lemma ambiguous_halts (tg : FilterAmbiguousGenes.gene_map) (ann file : string)
    (lines : list string) (h : halt) :
  stopped (FilterAmbiguousGenes.filter_file tg ann file lines) = Some h ->
  ambiguous_halt h.
Proof.
  unfold FilterAmbiguousGenes.filter_file, FilterAmbiguousGenes.process.
  intros E. refine (at_eof_halts _ _ ambiguous_halt h _ _ E); [now left|].
  clear E h. intros h E.
  refine (fold_halts _ ambiguous_halt _ _ _ _ _ E); [|discriminate].
  clear. intros st l h I. unfold FilterAmbiguousGenes.step.
  assert (T : forall st1 i count g,
             mode_of (FilterAmbiguousGenes.test st1 i count g) = Halted h ->
             mode_of st1 = Halted h).
  { intros st1 i count g. unfold FilterAmbiguousGenes.test,
      FilterAmbiguousGenes.finish_group.
    destruct (i <? count); [discriminate|].
    destruct (_ =? count); discriminate. }
  destruct (mode_of st) as [|i count g|h'] eqn:M.
  - destruct (is_empty l); [simpl; rewrite M; discriminate|].
    destruct (is_header l); [simpl; rewrite M; discriminate|].
    destruct (read_count l) as [| |n].
    + simpl. rewrite M. discriminate.
    + simpl. intros [= <-]. unfold ambiguous_halt. auto.
    + destruct (n =? 1); [simpl; rewrite M; discriminate|].
      destruct (FilterAmbiguousGenes.extract_transcript_id l) as [ds id].
      destruct (FilterAmbiguousGenes.map_find id tg).
      * intros X. apply T in X. simpl in X. rewrite M in X. discriminate.
      * simpl. intros [= <-]. unfold ambiguous_halt. auto.
  - unfold FilterAmbiguousGenes.collect.
    destruct (FilterAmbiguousGenes.extract_transcript_id l) as [ds id].
    destruct (FilterAmbiguousGenes.map_find id tg).
    + destruct (String.eqb _ _); intros X; apply T in X; simpl in X;
        rewrite M in X; discriminate.
    + simpl. intros [= <-]. unfold ambiguous_halt. auto.
  - rewrite M. apply I.
Qed.

(** A file that was closed holds the lines written: [std::getline] reads
    them back from the characters of the stream. *)
Lemma lines_of_line (l text : string) :
  find_char NEWLINE l 0 = None ->
  lines_of (l ++ String NEWLINE text) = l :: lines_of text.
Proof.
  induction l as [|c l IH]; intros N; cbn [String.append lines_of].
  - now rewrite Ascii.eqb_refl.
  - cbn [find_char] in N. destruct (Ascii.eqb c NEWLINE); [discriminate N|].
    destruct (find_char NEWLINE l 0); [discriminate N|].
    now rewrite (IH eq_refl).
Qed.

Lemma lines_of_text_of (lines : list string) :
  Forall (fun l => find_char NEWLINE l 0 = None) lines ->
  lines_of (text_of lines) = lines.
Proof.
  induction lines as [|l lines IH]; intros F; [reflexivity|].
  apply Forall_cons_iff in F as [Fl Fr]. cbn [text_of].
  now rewrite (lines_of_line l _ Fl), (IH Fr).
Qed.

(** The loop over the pairs of files, by induction on the pairs. *)
Lemma for_each_pair_ind {G} (flushed : nat)
    (filter : string -> list string -> state G)
    (P : list string -> files -> run -> Prop) :
  (forall args fs msgs, (List.length args < 2)%nat ->
     P args fs (mkRun fs false msgs (Returned 0))) ->
  (forall input output rest fs msgs h,
     stopped (filter input (write fs output [] input)) = Some h ->
     P (input :: output :: rest) fs
       (mkRun (write (write fs output []) output
                 (left_in_file flushed
                    (filter input (write fs output [] input))))
          false (msgs ++ err (filter input (write fs output [] input))) h)) ->
  (forall input output rest fs r,
     stopped (filter input (write fs output [] input)) = None ->
     P rest (write (write fs output []) output
               (left_in_file flushed
                  (filter input (write fs output [] input)))) r ->
     P (input :: output :: rest) fs r) ->
  forall n args fs msgs, (List.length args <= n)%nat ->
    P args fs (for_each_pair flushed filter args fs msgs).
Proof.
  intros B S C. induction n as [|n IH]; intros args fs msgs L.
  - destruct args; [|simpl in L; lia]. apply B. simpl. lia.
  - destruct args as [|input [|output rest]];
      [apply B; simpl; lia | apply B; simpl; lia |].
    cbn [for_each_pair].
    destruct (stopped (filter input (write fs output [] input))) as [h|] eqn:T.
    + now apply S.
    + apply C; [exact T|]. apply IH. simpl in L. lia.
Qed.

Lemma write_other (fs : files) (name other : string) (lines : list string) :
  name <> other -> write fs other lines name = fs name.
Proof.
  intros N. unfold write. apply String.eqb_neq in N. now rewrite N.
Qed.

Lemma for_each_pair_untouched {G} (flushed : nat)
    (filter : string -> list string -> state G)
    (name : string) (args : list string) (fs : files) (msgs : list diag) :
  ~ In name args ->
  run_files (for_each_pair flushed filter args fs msgs) name = fs name.
Proof.
  apply (for_each_pair_ind flushed filter
           (fun args fs r => ~ In name args -> run_files r name = fs name))
    with (n := List.length args); [| | |lia].
  - reflexivity.
  - intros input output rest fs0 msgs0 h _ N. simpl.
    rewrite !write_other; [reflexivity | |]; intros ->; apply N; simpl; auto.
  - intros input output rest fs0 r _ IH N.
    rewrite IH by (intros I; apply N; simpl; auto).
    rewrite !write_other; [reflexivity | |]; intros ->; apply N; simpl; auto.
Qed.

Lemma for_each_pair_exit {G} (flushed : nat)
    (filter : string -> list string -> state G)
    (P : halt -> Prop) (args : list string) (fs : files) (msgs : list diag) :
  P (Returned 0) ->
  (forall input lines h, stopped (filter input lines) = Some h -> P h) ->
  P (run_exit (for_each_pair flushed filter args fs msgs)).
Proof.
  intros P0 Ph.
  apply (for_each_pair_ind flushed filter (fun _ _ r => P (run_exit r)))
    with (n := List.length args); [| | |lia].
  - intros. exact P0.
  - intros input output rest fs0 msgs0 h T. simpl. exact (Ph _ _ _ T).
  - intros. assumption.
Qed.

Lemma not_in_skipn {A} (x : A) (n : nat) (l : list A) :
  ~ In x l -> ~ In x (skipn n l).
Proof.
  revert l. induction n as [|n IH]; intros l N; [exact N|].
  destruct l as [|a l]; [exact N|]. simpl. apply IH.
  intros I. apply N. now right.
Qed.

(** X10. The codes of the three tools.  The reverse-strand filter and the
    allow-list filter return 0, 17, 12 or 11, or die of an exception of
    [std::stoull]; the gene-ambiguity filter returns 0, 2, 17, 6 or 7, or
    dies of that exception.  No other code is returned, whatever the
    arguments and the files. *)
Theorem exit_codes (flushed : nat) (fs : files) (argv : list string) :
  (run_exit (FilterReverseReads.main flushed fs argv) = Returned 0 \/
   rewriting_halt (run_exit (FilterReverseReads.main flushed fs argv))) /\
  (run_exit (SelectTranscripts.main flushed fs argv) = Returned 0 \/
   rewriting_halt (run_exit (SelectTranscripts.main flushed fs argv))) /\
  (run_exit (FilterAmbiguousGenes.main flushed fs argv) = Returned 0 \/
   run_exit (FilterAmbiguousGenes.main flushed fs argv) = Returned 2 \/
   ambiguous_halt (run_exit (FilterAmbiguousGenes.main flushed fs argv))).
Proof.
  split; [|split].
  - unfold FilterReverseReads.main.
    destruct (_ || _)%bool; [now left|].
    apply (for_each_pair_exit flushed FilterReverseReads.filter_file
             (fun h => h = Returned 0 \/ rewriting_halt h)); [now left|].
    intros input lines h T. right. exact (reverse_halts _ _ _ T).
  - unfold SelectTranscripts.main.
    destruct (_ || _)%bool; [now left|].
    apply (for_each_pair_exit flushed (SelectTranscripts.filter_file _)
             (fun h => h = Returned 0 \/ rewriting_halt h)); [now left|].
    intros input lines h T. right. exact (select_halts _ _ _ _ T).
  - unfold FilterAmbiguousGenes.main.
    destruct (_ || _)%bool; [now left|].
    destruct (FilterAmbiguousGenes.load_annotations _ _) as [d | tg];
      [right; now left|].
    apply (for_each_pair_exit flushed (FilterAmbiguousGenes.filter_file tg _)
             (fun h => h = Returned 0 \/ h = Returned 2 \/ ambiguous_halt h));
      [now left|].
    intros input lines h T. right. right.
    exact (ambiguous_halts _ _ _ _ _ T).
Qed.

(** X11. A file that is not named on the command line is left as it was
    by the three tools: they write to the files named as outputs and to no
    other file. *)
Theorem unnamed_files_are_untouched
    (flushed : nat) (fs : files) (argv : list string) (name : string) :
  ~ In name argv ->
  run_files (FilterReverseReads.main flushed fs argv) name = fs name /\
  run_files (SelectTranscripts.main flushed fs argv) name = fs name /\
  run_files (FilterAmbiguousGenes.main flushed fs argv) name = fs name.
Proof.
  intros N. split; [|split].
  - unfold FilterReverseReads.main.
    destruct (_ || _)%bool; [reflexivity|].
    apply for_each_pair_untouched. now apply not_in_skipn.
  - unfold SelectTranscripts.main.
    destruct (_ || _)%bool; [reflexivity|].
    apply for_each_pair_untouched. now apply not_in_skipn.
  - unfold FilterAmbiguousGenes.main.
    destruct (_ || _)%bool; [reflexivity|].
    destruct (FilterAmbiguousGenes.load_annotations _ _); [reflexivity|].
    apply for_each_pair_untouched. now apply not_in_skipn.
Qed.

(** ** The table of the annotations *)

Lemma annotate_cases (line : string) (m : FilterAmbiguousGenes.gene_map) :
  FilterAmbiguousGenes.annotate line m =
  match FilterAmbiguousGenes.annotate line [] with
  | inl d => inl d
  | inr [] => inr m
  | inr ((t, g) :: _) => inr (FilterAmbiguousGenes.map_set t g m)
  end.
Proof.
  unfold FilterAmbiguousGenes.annotate.
  destruct (negb _ && negb _)%bool; [|reflexivity].
  repeat (destruct (find_str _ _ _); try reflexivity).
Qed.

Lemma load_unbound (t : string) (lines : list string) :
  forall m table : FilterAmbiguousGenes.gene_map,
  (forall l g, In l lines -> binding_of l <> Some (t, g)) ->
  FilterAmbiguousGenes.load_annotations lines m = inr table ->
  FilterAmbiguousGenes.map_find t table = FilterAmbiguousGenes.map_find t m.
Proof.
  induction lines as [|l lines IH]; intros m table N; cbn [FilterAmbiguousGenes.load_annotations].
  - now intros [= <-].
  - rewrite annotate_cases.
    assert (N' : forall l' g, In l' lines -> binding_of l' <> Some (t, g))
      by (intros l' g I; apply N; now right).
    pose proof (fun g => N l g (or_introl eq_refl)) as Nl.
    unfold binding_of in Nl.
    destruct (FilterAmbiguousGenes.annotate l []) as [d | [|[t' g'] rest]];
      [discriminate | now apply IH |].
    intros L. rewrite (IH _ _ N' L). cbn [FilterAmbiguousGenes.map_set FilterAmbiguousGenes.map_find].
    destruct (String.eqb t t') eqn:E; [|reflexivity].
    apply String.eqb_eq in E as ->. now contradiction (Nl g').
Qed.

Lemma load_split (before : list string) (l : string) (after : list string) :
  forall m table : FilterAmbiguousGenes.gene_map,
  FilterAmbiguousGenes.load_annotations (before ++ l :: after) m = inr table ->
  exists m1 m2,
    FilterAmbiguousGenes.annotate l m1 = inr m2 /\
    FilterAmbiguousGenes.load_annotations after m2 = inr table.
Proof.
  induction before as [|b before IH]; intros m table;
    cbn [app FilterAmbiguousGenes.load_annotations].
  - destruct (FilterAmbiguousGenes.annotate l m) as [d|m2] eqn:A; [discriminate|].
    intros L. now exists m, m2.
  - destruct (FilterAmbiguousGenes.annotate b m) as [d|m']; [discriminate|].
    apply IH.
Qed.

(** X12. In the table built from the annotations, the last line that names
    a transcript decides its gene, and a transcript that no line names is
    not in the table. *)
Theorem last_binding_decides (lines : list string)
    (table : FilterAmbiguousGenes.gene_map) (t : string) :
  FilterAmbiguousGenes.load_annotations lines [] = inr table ->
  (forall before l g after,
     lines = before ++ l :: after -> binding_of l = Some (t, g) ->
     (forall l' g', In l' after -> binding_of l' <> Some (t, g')) ->
     FilterAmbiguousGenes.map_find t table = Some g) /\
  ((forall l g, In l lines -> binding_of l <> Some (t, g)) ->
   FilterAmbiguousGenes.map_find t table = None).
Proof.
  intros L. split.
  - intros before l g after -> B N.
    destruct (load_split _ _ _ _ _ L) as (m1 & m2 & A & L2).
    rewrite (load_unbound t after m2 table N L2).
    rewrite annotate_cases in A. unfold binding_of in B.
    destruct (FilterAmbiguousGenes.annotate l []) as [d | [|[t' g'] rest]];
      try discriminate.
    injection B as -> ->. injection A as <-.
    cbn [FilterAmbiguousGenes.map_set FilterAmbiguousGenes.map_find].
    now rewrite String.eqb_refl.
  - intros N. now rewrite (load_unbound t lines [] table N L).
Qed.

Lemma load_bad (l : string) (d : diag) (lines : list string) :
  In l lines -> FilterAmbiguousGenes.annotate l [] = inl d ->
  forall m, exists d', FilterAmbiguousGenes.load_annotations lines m = inl d'.
Proof.
  intros I A. induction lines as [|a lines IH]; [contradiction|].
  intros m. cbn [FilterAmbiguousGenes.load_annotations].
  rewrite annotate_cases.
  destruct (FilterAmbiguousGenes.annotate a []) as [d0 | [|[t' g'] rest]] eqn:B;
    [now exists d0 | |];
    (destruct I as [-> | I]; [congruence | now apply IH]).
Qed.

(** X13. When a line of the annotations has an incomplete transcript_id
    tag, or has one without a complete gene_id tag, the gene-ambiguity
    filter returns 2 after one message and leaves every file as it was:
    no output file is opened. *)
Theorem bad_annotations_stop (flushed : nat) (fs : files)
    (argv : list string)
    (l : string) (d : diag) :
  argc argv <> 1 -> argc argv mod 2 = 0 ->
  In l (fs (nth 1 argv EmptyString)) ->
  FilterAmbiguousGenes.annotate l [] = inl d ->
  run_exit (FilterAmbiguousGenes.main flushed fs argv) = Returned 2 /\
  run_files (FilterAmbiguousGenes.main flushed fs argv) = fs /\
  run_usage (FilterAmbiguousGenes.main flushed fs argv) = false /\
  exists d', run_err (FilterAmbiguousGenes.main flushed fs argv) = [d'].
Proof.
  intros A1 A2 I B. unfold FilterAmbiguousGenes.main.
  apply Z.eqb_neq in A1. rewrite A1, A2. cbn [Z.eqb negb orb].
  destruct (load_bad l d _ I B []) as [d' ->]. cbn.
  repeat split. now exists d'.
Qed.

(** ** Reading a written line again *)

Lemma last_tagged_some (key : string) (cols : list string) (q : string) :
  last_tagged key cols = Some q -> In q cols /\ starts_with key q = true.
Proof.
  induction cols as [|x cols IH]; cbn [last_tagged]; [discriminate|].
  destruct (last_tagged key cols) as [t|].
  - intros [= ->]. destruct (IH eq_refl). split; [now right | assumption].
  - destruct (starts_with key x) eqn:E; [|discriminate].
    intros [= ->]. split; [now left | assumption].
Qed.

Lemma last_tagged_none (key : string) (cols : list string) :
  last_tagged key cols = None ->
  forall q, In q cols -> starts_with key q = false.
Proof.
  induction cols as [|x cols IH]; cbn [last_tagged]; [contradiction|].
  destruct (last_tagged key cols) as [t|]; [discriminate|].
  destruct (starts_with key x) eqn:E; [discriminate|].
  intros _ q [<- | I]; [exact E | now apply IH].
Qed.

Lemma prefix_append (key r : string) : String.prefix key (key ++ r) = true.
Proof.
  induction key as [|a key IH]; cbn [String.append String.prefix].
  - now destruct r.
  - destruct (ascii_dec a a); [exact IH | contradiction].
Qed.

Lemma written_declares (size m primary i : Z) (s o : string) (c : nat)
    (p : string) :
  rewrite_line size (to_string m) primary i s = Some o ->
  0 <= size <= SIZE_MAX -> (5 <= c)%nat ->
  nth_error (columns s) c = Some p -> is_NH p = true ->
  read_count o = Declared size.
Proof.
  intros W R C Hc N. rewrite read_count_columns.
  assert (K : nth_error (columns o) c = Some ("NH:i:" ++ to_string size)%string).
  { apply (written_keeps_NH size m primary i s o W c p Hc N); [lia | left; lia]. }
  destruct (last_tagged "NH:i:" (tl (columns o))) as [q|] eqn:T.
  - apply last_tagged_some in T as [I S].
    assert (I' : In q (columns o)).
    { destruct (columns o); [contradiction | now right]. }
    rewrite (written_NH size m primary i s o W q I' S).
    now rewrite (tag_value_written "NH:i:" size eq_refl R).
  - exfalso. destruct c as [|c]; [lia|].
    destruct (columns o) as [|x t]; [discriminate|]. cbn [tl] in T.
    cbn [nth_error] in K. apply nth_error_In in K.
    pose proof (last_tagged_none _ _ T _ K) as F.
    unfold starts_with in F. rewrite prefix_append in F. discriminate F.
Qed.

(** X14. A line written by the rewriting of a reduced group declares the
    number of lines of that group when it is read again: for a line whose
    NH tag stands in the sixth column or a later one, [read_count] of the
    written line is the size of the group. *)
Theorem rewritten_lines_declare_size
    (line : string) (group : list string) (primary : Z)
    (ds : list diag) (ls : list string) (h : option halt) :
  rewrite_group line group primary = (ds, ls, h) ->
  Z.of_nat (List.length group) <= SIZE_MAX ->
  forall (n : nat) (o s : string) (c : nat) (p : string),
    nth_error ls n = Some o -> nth_error group n = Some s ->
    (5 <= c)%nat -> nth_error (columns s) c = Some p -> is_NH p = true ->
    read_count o = Declared (Z.of_nat (List.length group)).
Proof.
  intros G B n o s c p Ho Hs C Hc N.
  assert (W : exists m primary' i,
             rewrite_line (Z.of_nat (List.length group)) (to_string m)
               primary' i s = Some o).
  { unfold rewrite_group in G.
    destruct (primary =? SIZE_MAX).
    - destruct (cigars_of group) as [code | cigars].
      + injection G as _ <- _. now destruct n.
      + destruct (rewrite_lines _ _ 0 0 group) as [ls' ok] eqn:R.
        injection G as _ <- _.
        destruct (rewrite_lines_nth _ _ _ _ _ _ _ R) as (_ & _ & Nth).
        destruct (Nth n o Ho) as (s' & Hs' & W).
        rewrite Hs in Hs'. injection Hs' as <-. eauto.
    - destruct (rewrite_lines _ _ SIZE_MAX 0 group) as [ls' ok] eqn:R.
      injection G as _ <- _.
      destruct (rewrite_lines_nth _ _ _ _ _ _ _ R) as (_ & _ & Nth).
      destruct (Nth n o Ho) as (s' & Hs' & W).
      rewrite Hs in Hs'. injection Hs' as <-. eauto. }
  destruct W as (m & primary' & i & W).
  apply (written_declares _ m primary' i s o c p W); auto. lia.
Qed.

(** ** The CIGAR of a line *)

Lemma skip_tabs_columns (n : nat) :
  forall (w : string) (c : ascii) (r : string),
  match skip_tabs (w ++ String c r) (String.length w) n with
  | None => (List.length (columns r) <= n)%nat
  | Some index =>
      exists w' c' r',
        (w ++ String c r = w' ++ String c' r')%string /\
        index = String.length w' /\
        skipn n (columns r) = columns r' /\
        (c = TAB \/ n <> 0%nat -> c' = TAB)
  end.
Proof.
  induction n as [|n IH]; intros w c r.
  - cbn [skip_tabs]. exists w, c, r. repeat split.
    intros [F | F]; [exact F | now contradiction F].
  - cbn [skip_tabs].
    pose proof (column_after_prefix (w ++ String c "") r) as C.
    assert (E : ((w ++ String c "") ++ r = w ++ String c r)%string)
      by (now rewrite append_assoc).
    assert (L : String.length (w ++ String c "") = S (String.length w))
      by (rewrite length_append; simpl; lia).
    rewrite E, L in C.
    destruct (find_char TAB (w ++ String c r) (S (String.length w))) as [e|].
    + destruct C as (y & r' & -> & Ny & Ee & Cc & _ & _ & _).
      specialize (IH (w ++ String c y)%string TAB r').
      assert (E2 : ((w ++ String c y) ++ String TAB r'
                    = w ++ String c (y ++ String TAB r'))%string)
        by (now rewrite append_assoc).
      assert (L2 : String.length (w ++ String c y) = e)
        by (rewrite length_append; simpl; lia).
      rewrite E2, L2 in IH.
      destruct (skip_tabs (w ++ String c (y ++ String TAB r')) e n) as [index|].
      * destruct IH as (w' & c' & r'' & E3 & -> & Sk & T).
        exists w', c', r''. split; [exact E3|]. split; [reflexivity|].
        split; [rewrite Cc; exact Sk|]. intros _. apply T. now left.
      * rewrite Cc. simpl. lia.
    + destruct C as [_ ->]. simpl. lia.
Qed.

(** X15. The CIGAR that the reverse-strand filter and the allow-list filter
    compare, for a line whose first column is not empty: the sixth column
    with the tab before it when the line has seven columns or more; the
    line stops the tool with code 11 when it has six columns, and with
    code 12 when it has fewer. *)
Theorem cigar_by_columns (s : string) :
  hd EmptyString (columns s) <> EmptyString ->
  cigar_of s =
  match skipn 5 (columns s) with
  | cg :: _ :: _ => inr (String TAB cg)
  | [_] => inl 11
  | [] => inl 12
  end.
Proof.
  intros H. destruct s as [|a s']; [now contradiction H|].
  cbn [columns] in H |- *.
  destruct (Ascii.eqb a TAB); [now contradiction H|]. clear H.
  pose proof (columns_not_nil s') as N.
  pose proof (skip_tabs_columns 5 "" a s') as K.
  cbn [String.append String.length] in K.
  destruct (columns s') as [|y ys] eqn:Cs; [contradiction|].
  change (skipn 5 (String a y :: ys)) with (skipn 4 ys). unfold cigar_of.
  destruct (skip_tabs (String a s') 0 5) as [index|].
  - destruct K as (w' & c' & r' & E & -> & Sk & T).
    assert (T' : c' = TAB) by (apply T; right; discriminate).
    subst c'. change (skipn 5 (y :: ys)) with (skipn 4 ys) in Sk.
    rewrite E, Sk.
    pose proof (column_after_prefix (w' ++ String TAB "") r') as C.
    assert (E2 : ((w' ++ String TAB "") ++ r' = w' ++ String TAB r')%string)
      by (now rewrite append_assoc).
    assert (L2 : String.length (w' ++ String TAB "") = S (String.length w'))
      by (rewrite length_append; simpl; lia).
    rewrite E2, L2 in C.
    destruct (find_char TAB (w' ++ String TAB r') (S (String.length w')))
      as [e|].
    + destruct C as (z & r'' & -> & Nz & -> & -> & _ & _ & _).
      pose proof (columns_not_nil r'') as N2.
      destruct (columns r'') as [|x xs]; [contradiction|]. f_equal.
      unfold substr.
      replace (S (String.length w') + String.length z - String.length w')%nat
        with (S (String.length z)) by lia.
      rewrite <- (Nat.add_0_r (String.length w')) at 1.
      rewrite substring_app_skip. cbn [String.substring].
      now rewrite substring_prefix.
    + destruct C as [_ ->]. reflexivity.
  - simpl in K. now rewrite skipn_all2 by lia.
Qed.

(** ** One file as input and as output *)

Lemma write_same (fs : files) (name : string) (lines : list string) :
  write fs name lines name = lines.
Proof. unfold write. now rewrite String.eqb_refl. Qed.

(** X16. A file named both as the input and as the output of a tool is
    emptied: the output is opened, and so truncated, before the first line
    is read, and the tool returns 0 without a message. *)
Theorem same_file_is_emptied
    (flushed : nat) (fs : files) (prog list name : string) :
  (run_files (FilterReverseReads.main flushed fs [prog; name; name]) name = [] /\
   run_exit (FilterReverseReads.main flushed fs [prog; name; name]) = Returned 0 /\
   run_err (FilterReverseReads.main flushed fs [prog; name; name]) = []) /\
  (run_files (SelectTranscripts.main flushed fs [prog; list; name; name]) name = [] /\
   run_exit (SelectTranscripts.main flushed fs [prog; list; name; name]) = Returned 0 /\
   run_err (SelectTranscripts.main flushed fs [prog; list; name; name]) = []) /\
  (forall table,
     FilterAmbiguousGenes.load_annotations (fs list) [] = inr table ->
     run_files (FilterAmbiguousGenes.main flushed fs [prog; list; name; name]) name = [] /\
     run_exit (FilterAmbiguousGenes.main flushed fs [prog; list; name; name]) = Returned 0 /\
     run_err (FilterAmbiguousGenes.main flushed fs [prog; list; name; name]) = []).
Proof.
  split; [|split].
  - unfold FilterReverseReads.main. cbn [argc List.length skipn for_each_pair].
    rewrite !write_same. cbn. now rewrite write_same.
  - unfold SelectTranscripts.main. cbn [argc List.length skipn for_each_pair].
    rewrite !write_same. cbn. now rewrite write_same.
  - intros table L. unfold FilterAmbiguousGenes.main.
    cbn [argc List.length skipn for_each_pair nth]. cbn [Z.of_nat].
    change ((Z.pos (Pos.of_succ_nat 3) =? 1) ||
            negb (Z.pos (Pos.of_succ_nat 3) mod 2 =? 0))%bool with false.
    cbv iota. rewrite L. cbn [for_each_pair].
    rewrite !write_same. cbn. now rewrite write_same.
Qed.

(** ** The output of the rewriting filters comes from the input *)

Lemma derived_right (os ls more : list string) :
  derived os ls -> derived os (ls ++ more).
Proof.
  intros D. induction D as [|l os ls D IH|o l os ls R D IH]; simpl.
  - induction more as [|l more IH]; [apply derived_nil | now apply derived_skip].
  - now apply derived_skip.
  - now apply derived_keep.
Qed.

Lemma derived_app (os1 ls1 os2 ls2 : list string) :
  derived os1 ls1 -> derived os2 ls2 -> derived (os1 ++ os2) (ls1 ++ ls2).
Proof.
  intros D1 D2. induction D1 as [|l os ls D IH|o l os ls R D IH]; simpl.
  - exact D2.
  - now apply derived_skip.
  - now apply derived_keep.
Qed.

Lemma derived_one (l : string) : derived [l] [l].
Proof. apply derived_keep; [now left | apply derived_nil]. Qed.

Lemma derived_subsequence (os ls : list string) :
  subsequence os ls -> derived os ls.
Proof.
  intros S. induction S as [|l s t S IH|l s t S IH].
  - apply derived_nil.
  - now apply derived_skip.
  - apply derived_keep; [now left | exact IH].
Qed.

Lemma derived_of_subsequence (os g ls : list string) :
  subsequence g ls -> derived os g -> derived os ls.
Proof.
  intros S. revert os. induction S as [|l s t S IH|l s t S IH]; intros os D.
  - exact D.
  - apply derived_skip. now apply IH.
  - inversion D as [|l' os' ls' D' |o l' os' ls' R D']; subst.
    + apply derived_skip. now apply IH.
    + apply derived_keep; [exact R | now apply IH].
Qed.

Lemma derived_pointwise (emitted : list string) :
  forall group : list string,
  (forall n o, nth_error emitted n = Some o ->
     exists s, nth_error group n = Some s /\ rewritten s o) ->
  derived emitted group.
Proof.
  induction emitted as [|o emitted IH]; intros group H.
  - apply (derived_right [] [] group derived_nil).
  - destruct (H 0%nat o eq_refl) as (s & Hs & R).
    destruct group as [|s' group]; [discriminate|]. injection Hs as ->.
    apply derived_keep; [exact R|]. apply IH.
    intros n o' Hn. exact (H (S n) o' Hn).
Qed.

Lemma kept_outside {G} (lines_of : G -> list string) (st : state G)
    (consumed : list string) :
  (forall i count g, mode_of st <> InGroup i count g) ->
  derived (out st) consumed -> kept lines_of st consumed.
Proof.
  intros M D. unfold kept.
  destruct (mode_of st) as [|i count g|h]; [exact D | | exact D].
  now contradiction (M i count g).
Qed.

Lemma after_rewrite_kept {G} (lines_of : G -> list string) (st : state G)
    (line : string) (group : list string) (primary : Z)
    (before inside : list string) :
  derived (out st) before -> subsequence group inside ->
  kept lines_of (after_rewrite st line group primary) (before ++ inside).
Proof.
  intros D S.
  destruct (after_rewrite_spec st line group primary)
    as (emitted & ds & O & _ & M & N).
  apply kept_outside.
  - intros i count g. destruct M as [[-> _] | [h ->]]; discriminate.
  - rewrite O. apply derived_app; [exact D|].
    apply (derived_of_subsequence _ group _ S). apply derived_pointwise.
    intros n o Hn. destruct (N n o Hn) as (s & Hs & W).
    exists s. split; [exact Hs|]. right. eauto.
Qed.

Lemma emit_group_kept {G} (lines_of : G -> list string) (st : state G)
    (group before inside : list string) :
  derived (out st) before -> subsequence group inside ->
  kept lines_of (set_mode (emit st group) Top) (before ++ inside).
Proof.
  intros D S. apply kept_outside; [discriminate|]. simpl.
  apply derived_app; [exact D | now apply derived_subsequence].
Qed.

Lemma at_eof_kept {G} (lines_of : G -> list string) (file : string)
    (st : state G) (consumed : list string) :
  kept lines_of st consumed -> derived (out (at_eof file st)) consumed.
Proof.
  unfold kept, at_eof. destruct (mode_of st) as [|i count g|h]; simpl;
    [auto | | auto].
  intros (before & inside & -> & D & _). now apply derived_right.
Qed.

Lemma fold_kept {G} (lines_of : G -> list string)
    (step : state G -> string -> state G) :
  (forall st l consumed, kept lines_of st consumed ->
                         kept lines_of (step st l) (consumed ++ [l])) ->
  forall lines st consumed, kept lines_of st consumed ->
    kept lines_of (fold_left step lines st) (consumed ++ lines).
Proof.
  intros S. induction lines as [|l lines IH]; intros st consumed K; simpl.
  - now rewrite app_nil_r.
  - replace (consumed ++ l :: lines) with ((consumed ++ [l]) ++ lines)
      by now rewrite <- app_assoc.
    apply IH. now apply S.
Qed.

Ltac outside M :=
  solve [reflexivity | intros; simpl; rewrite ?M; discriminate].

Lemma reverse_collect_kept (st : state FilterReverseReads.group_state)
    (l : string) (i count : Z) (g : FilterReverseReads.group_state)
    (before inside : list string) :
  derived (out st) before ->
  subsequence (FilterReverseReads.group g) inside ->
  kept FilterReverseReads.group
    (FilterReverseReads.collect_and_test st l i count g)
    (before ++ inside ++ [l]).
Proof.
  intros D S. unfold FilterReverseReads.collect_and_test.
  destruct (FilterReverseReads.collect l g) as [ds [g'|]] eqn:C.
  - assert (S' : subsequence (FilterReverseReads.group g') (inside ++ [l])).
    { unfold FilterReverseReads.collect in C.
      destruct (FilterReverseReads.forward_flag l) as [ds1 [[|]|]];
        [|injection C as _ <-; now apply subsequence_skip_last | discriminate].
      destruct (FilterReverseReads.primary_flag l) as [ds2 [p|]];
        [|discriminate].
      injection C as _ <-. now apply subsequence_keep_last. }
    destruct (i <? count).
    + unfold kept. simpl. now exists before, (inside ++ [l]).
    + unfold FilterReverseReads.finish_group.
      destruct (FilterReverseReads.modification g').
      * now apply after_rewrite_kept.
      * now apply emit_group_kept.
  - apply kept_outside; [discriminate|]. simpl. now apply derived_right.
Qed.

Lemma reverse_step_kept (file : string)
    (st : state FilterReverseReads.group_state) (l : string)
    (consumed : list string) :
  kept FilterReverseReads.group st consumed ->
  kept FilterReverseReads.group (FilterReverseReads.step file st l)
    (consumed ++ [l]).
Proof.
  intros K. unfold FilterReverseReads.step. unfold kept in K.
  destruct (mode_of st) as [|i count g|h] eqn:M.
  - assert (W : forall st', out st' = out st ->
                 (forall i count g, mode_of st' <> InGroup i count g) ->
                 kept FilterReverseReads.group st' (consumed ++ [l])).
    { intros st' O N. apply kept_outside; [exact N|]. rewrite O.
      now apply derived_right. }
    assert (E : forall st', out st' = out st ++ [l] ->
                 (forall i count g, mode_of st' <> InGroup i count g) ->
                 kept FilterReverseReads.group st' (consumed ++ [l])).
    { intros st' O N. apply kept_outside; [exact N|]. rewrite O.
      apply derived_app; [exact K | apply derived_one]. }
    destruct (is_empty l); [apply W; outside M|].
    destruct (is_header l); [apply E; outside M|].
    destruct (read_count l) as [| |n]; [apply W; outside M | apply W; outside M |].
    destruct (n =? 1).
    + destruct (FilterReverseReads.forward_flag l) as [ds [[|]|]];
        [apply E | apply W | apply W]; outside M.
    + apply (reverse_collect_kept st l 1 n FilterReverseReads.empty_group
               consumed [] K sub_nil).
  - destruct K as (before & inside & -> & D & S). rewrite <- app_assoc.
    now apply reverse_collect_kept.
  - apply kept_outside; [rewrite M; discriminate|]. now apply derived_right.
Qed.

Lemma select_collect_kept (ids : list string)
    (st : state SelectTranscripts.group_state)
    (l : string) (i count : Z) (g : SelectTranscripts.group_state)
    (before inside : list string) :
  derived (out st) before ->
  subsequence (SelectTranscripts.group g) inside ->
  kept SelectTranscripts.group
    (SelectTranscripts.collect_and_test ids st l i count g)
    (before ++ inside ++ [l]).
Proof.
  intros D S. unfold SelectTranscripts.collect_and_test.
  destruct (SelectTranscripts.collect ids l g) as [ds [g'|]] eqn:C.
  - assert (S' : subsequence (SelectTranscripts.group g') (inside ++ [l])).
    { unfold SelectTranscripts.collect in C.
      destruct (SelectTranscripts.extract_transcript_id l) as [ds1 id].
      destruct (SelectTranscripts.listed ids id);
        [|injection C as _ <-; now apply subsequence_skip_last].
      destruct (SelectTranscripts.primary_flag l) as [ds2 [p|]];
        [|discriminate].
      injection C as _ <-. now apply subsequence_keep_last. }
    destruct (i <? count).
    + unfold kept. simpl. now exists before, (inside ++ [l]).
    + unfold SelectTranscripts.finish_group.
      destruct (_ =? count).
      * now apply emit_group_kept.
      * now apply after_rewrite_kept.
  - apply kept_outside; [discriminate|]. simpl. now apply derived_right.
Qed.

Lemma select_step_kept (ids : list string) (file : string)
    (st : state SelectTranscripts.group_state) (l : string)
    (consumed : list string) :
  kept SelectTranscripts.group st consumed ->
  kept SelectTranscripts.group (SelectTranscripts.step ids file st l)
    (consumed ++ [l]).
Proof.
  intros K. unfold SelectTranscripts.step. unfold kept in K.
  destruct (mode_of st) as [|i count g|h] eqn:M.
  - assert (W : forall st', out st' = out st ->
                 (forall i count g, mode_of st' <> InGroup i count g) ->
                 kept SelectTranscripts.group st' (consumed ++ [l])).
    { intros st' O N. apply kept_outside; [exact N|]. rewrite O.
      now apply derived_right. }
    assert (E : forall st', out st' = out st ++ [l] ->
                 (forall i count g, mode_of st' <> InGroup i count g) ->
                 kept SelectTranscripts.group st' (consumed ++ [l])).
    { intros st' O N. apply kept_outside; [exact N|]. rewrite O.
      apply derived_app; [exact K | apply derived_one]. }
    destruct (is_empty l); [apply W; outside M|].
    destruct (is_header l).
    { destruct (starts_with _ l); [|apply E; outside M].
      destruct (SelectTranscripts.sequence_name l) as [name|];
        [|apply W; outside M].
      destruct (SelectTranscripts.listed ids name);
        [apply E | apply W]; outside M. }
    destruct (read_count l) as [| |n]; [apply W; outside M | apply W; outside M |].
    destruct (n =? 1).
    + destruct (SelectTranscripts.extract_transcript_id l) as [ds id].
      destruct (SelectTranscripts.listed ids id); [apply E | apply W];
        outside M.
    + apply (select_collect_kept ids st l 1 n SelectTranscripts.empty_group
               consumed [] K sub_nil).
  - destruct K as (before & inside & -> & D & S). rewrite <- app_assoc.
    now apply select_collect_kept.
  - apply kept_outside; [rewrite M; discriminate|]. now apply derived_right.
Qed.

Lemma derived_length (os ls : list string) :
  derived os ls -> (List.length os <= List.length ls)%nat.
Proof. intros D. induction D; simpl; lia. Qed.

(** X17. Whatever the input, the lines that the reverse-strand filter and
    the allow-list filter write come from lines of the input, one from one
    and in the order of the input: each is a line of the input as it was,
    or as the rewriting of a reduced group writes it.  So neither tool
    writes more lines than it reads. *)
Theorem rewriting_output_is_derived (file : string) (lines : list string) :
  derived (out (FilterReverseReads.filter_file file lines)) lines /\
  (forall ids,
     derived (out (SelectTranscripts.filter_file ids file lines)) lines) /\
  (List.length (out (FilterReverseReads.filter_file file lines))
   <= List.length lines)%nat /\
  (forall ids,
     (List.length (out (SelectTranscripts.filter_file ids file lines))
      <= List.length lines)%nat).
Proof.
  assert (R : derived (out (FilterReverseReads.filter_file file lines)) lines).
  { unfold FilterReverseReads.filter_file, FilterReverseReads.process.
    apply (at_eof_kept FilterReverseReads.group).
    apply (fold_kept FilterReverseReads.group (FilterReverseReads.step file)
             (reverse_step_kept file) lines initial []).
    apply derived_nil. }
  assert (S : forall ids,
             derived (out (SelectTranscripts.filter_file ids file lines)) lines).
  { intros ids.
    unfold SelectTranscripts.filter_file, SelectTranscripts.process.
    apply (at_eof_kept SelectTranscripts.group).
    apply (fold_kept SelectTranscripts.group (SelectTranscripts.step ids file)
             (select_step_kept ids file) lines initial []).
    apply derived_nil. }
  split; [exact R|]. split; [exact S|].
  split; [now apply derived_length | intros ids; now apply derived_length].
Qed.

(** ** The mapping qualities that are written *)

Lemma power_ratio (k : Z) : 5 <= k -> k ^ 10 < 10 * (k - 1) ^ 10.
Proof.
  intros K.
  assert (A : (4 * k) ^ 10 <= (5 * (k - 1)) ^ 10)
    by (apply Z.pow_le_mono_l; lia).
  rewrite !Z.pow_mul_l in A.
  change (4 ^ 10) with 1048576 in A. change (5 ^ 10) with 9765625 in A.
  assert (P : 0 < (k - 1) ^ 10) by (apply Z.pow_pos_nonneg; lia).
  lia.
Qed.

(** X18. The mapping quality written for a group of [k] lines is 255 for
    [k <= 1], 3 for two lines, 1 for three or four lines and 0 for five
    lines or more: no other value is ever written, and 2 never is. *)
Theorem mapq_score_table (k : Z) :
  mapq_score k =
  if k <=? 1 then 255
  else if k =? 2 then 3
  else if k <=? 4 then 1
  else 0.
Proof.
  assert (C : k <= 1 \/ k = 2 \/ k = 3 \/ k = 4 \/ 5 <= k) by lia.
  destruct C as [C | [-> | [-> | [-> | C]]]]; try reflexivity.
  - unfold mapq_score. now replace (k <=? 1) with true by (symmetry; apply Z.leb_le; lia).
  - pose proof (power_ratio k C) as P.
    assert (Q : 0 < (k - 1) ^ 10) by (apply Z.pow_pos_nonneg; lia).
    unfold mapq_score, neg10_log10_trunc.
    replace (k <=? 1) with false by (symmetry; apply Z.leb_gt; lia).
    replace (k =? 2) with false by (symmetry; apply Z.eqb_neq; lia).
    replace (k <=? 4) with false by (symmetry; apply Z.leb_gt; lia).
    replace (1000 * (k - 1) ^ 10 <=? k ^ 10) with false
      by (symmetry; apply Z.leb_gt; lia).
    replace (100 * (k - 1) ^ 10 <=? k ^ 10) with false
      by (symmetry; apply Z.leb_gt; lia).
    replace (10 * (k - 1) ^ 10 <=? k ^ 10) with false
      by (symmetry; apply Z.leb_gt; lia).
    reflexivity.
Qed.

(** ** What the filters never write *)

Lemma land_16_lxor_256 (v : Z) : Z.land (Z.lxor v 256) 16 = Z.land v 16.
Proof.
  apply Z.bits_inj'. intros n Hn. rewrite !Z.land_spec, Z.lxor_spec.
  change 16 with (2 ^ 4). change 256 with (2 ^ 8).
  rewrite !Z.pow2_bits_eqb by lia.
  destruct (Z.eqb_spec 4 n) as [<- | _].
  - cbn [Z.eqb Pos.eqb]. now rewrite xorb_false_r.
  - now rewrite !andb_false_r.
Qed.

Lemma forward_bit (s : string) :
  forward s = true ->
  exists f v, nth_error (getline_parts s) 1 = Some f /\ stoull f = Some v /\
              flag_value s = Some v /\ Z.land v 16 = 0.
Proof.
  unfold forward, FilterReverseReads.forward_flag, flag_value, flag_field.
  rewrite check_flag_columns.
  assert (P : forall a f b rest, columns s = a :: f :: b :: rest ->
                nth_error (getline_parts s) 1 = Some f).
  { intros a f b rest C.
    destruct (columns_getline_parts s) as [E | E]; rewrite C in E.
    - now rewrite <- E.
    - destruct (getline_parts s) as [|a' [|f' rest']]; simpl in E;
        try discriminate.
      now injection E as -> -> _. }
  destruct (columns s) as [|a [|f [|b rest]]]; cbn [snd nth_error];
    try discriminate.
  specialize (P a f b rest eq_refl).
  destruct (stoull f) as [v|] eqn:V; cbn [option_map]; [|discriminate].
  destruct (Z.eqb_spec (Z.land v 16) 0) as [L | _]; [|discriminate].
  intros _. exists f, v. auto.
Qed.

Lemma rewritten_forward (size m primary i : Z) (s o : string) :
  forward s = true ->
  rewrite_line size (to_string m) primary i s = Some o ->
  on_forward_strand o.
Proof.
  intros F W. destruct (forward_bit s F) as (f & v & Hf & Hv & _ & L).
  unfold on_forward_strand, flag_value, flag_field.
  destruct (Z.eq_dec primary i) as [E | N].
  - rewrite (written_new_flag size m primary i s o W f v E Hf Hv).
    exists (Z.lxor v 256). split.
    + apply stoull_to_string. apply lxor_256_range.
      exact (stoull_range f v Hv).
    + now rewrite land_16_lxor_256.
  - rewrite (written_keeps_flag size m primary i s o W f v N Hf Hv).
    now exists v.
Qed.

Lemma guarded_outside {G} (lines_of : G -> list string)
    (P Q : string -> Prop) (st : state G) :
  (forall i count g, mode_of st <> InGroup i count g) ->
  Forall P (out st) -> guarded lines_of P Q st.
Proof.
  intros M F. split; [exact F|].
  destruct (mode_of st) as [|i count g|h]; [exact I | | exact I].
  now contradiction (M i count g).
Qed.

Lemma after_rewrite_guarded {G} (lines_of : G -> list string)
    (P Q : string -> Prop) (st : state G) (line : string)
    (group : list string) (primary : Z) :
  (forall size m primary i s o,
     Q s -> rewrite_line size (to_string m) primary i s = Some o -> P o) ->
  Forall P (out st) -> Forall Q group ->
  guarded lines_of P Q (after_rewrite st line group primary).
Proof.
  intros R FP FQ.
  destruct (after_rewrite_spec st line group primary)
    as (emitted & ds & O & _ & M & N).
  apply guarded_outside.
  - intros i count g. destruct M as [[-> _] | [h ->]]; discriminate.
  - rewrite O. apply Forall_app. split; [exact FP|].
    apply Forall_forall. intros o Ho.
    apply In_nth_error in Ho as [n Hn].
    destruct (N n o Hn) as (s & Hs & W).
    apply nth_error_In in Hs. rewrite Forall_forall in FQ.
    exact (R _ _ _ _ s o (FQ s Hs) W).
Qed.

Lemma fold_guarded {G} (lines_of : G -> list string) (P Q : string -> Prop)
    (step : state G -> string -> state G) :
  (forall st l, guarded lines_of P Q st -> guarded lines_of P Q (step st l)) ->
  forall lines st, guarded lines_of P Q st ->
    guarded lines_of P Q (fold_left step lines st).
Proof.
  intros S. induction lines as [|l lines IH]; intros st K; simpl;
    [exact K | apply IH; now apply S].
Qed.

Lemma at_eof_out {G} (file : string) (st : state G) :
  out (at_eof file st) = out st.
Proof. unfold at_eof. now destruct (mode_of st). Qed.

Section ReverseGuard.

Let P (o : string) : Prop := is_header o = true \/ on_forward_strand o.
Let Q (s : string) : Prop := forward s = true.

Lemma forward_guard (l : string) : Q l -> P l.
Proof.
  intros F. right. destruct (forward_bit l F) as (f & v & _ & _ & A & B).
  now exists v.
Qed.

Lemma reverse_collect_guarded (st : state FilterReverseReads.group_state)
    (l : string) (i count : Z) (g : FilterReverseReads.group_state) :
  Forall P (out st) -> Forall Q (FilterReverseReads.group g) ->
  guarded FilterReverseReads.group P Q
    (FilterReverseReads.collect_and_test st l i count g).
Proof.
  intros FP FQ. unfold FilterReverseReads.collect_and_test.
  destruct (FilterReverseReads.collect l g) as [ds [g'|]] eqn:C.
  - assert (FQ' : Forall Q (FilterReverseReads.group g')).
    { unfold FilterReverseReads.collect in C.
      destruct (FilterReverseReads.forward_flag l) as [ds1 [[|]|]] eqn:FF;
        [|now injection C as _ <- | discriminate].
      destruct (FilterReverseReads.primary_flag l) as [ds2 [p|]];
        [|discriminate].
      injection C as _ <-. cbn [FilterReverseReads.group].
      apply Forall_app. split; [exact FQ|]. constructor; [|constructor].
      unfold Q, forward. now rewrite FF. }
    destruct (i <? count); [now split|].
    unfold FilterReverseReads.finish_group.
    destruct (FilterReverseReads.modification g').
    + apply after_rewrite_guarded; [|exact FP | exact FQ'].
      intros size m primary j s o Qs W. right.
      exact (rewritten_forward size m primary j s o Qs W).
    + apply guarded_outside; [discriminate|]. simpl.
      apply Forall_app. split; [exact FP|].
      apply (Forall_impl P forward_guard FQ').
  - apply guarded_outside; [discriminate | exact FP].
Qed.

Lemma reverse_step_guarded (file : string)
    (st : state FilterReverseReads.group_state) (l : string) :
  guarded FilterReverseReads.group P Q st ->
  guarded FilterReverseReads.group P Q (FilterReverseReads.step file st l).
Proof.
  intros [FP FQ]. unfold FilterReverseReads.step.
  destruct (mode_of st) as [|i count g|h] eqn:M.
  - assert (W : forall st', out st' = out st ->
                 (forall i count g, mode_of st' <> InGroup i count g) ->
                 guarded FilterReverseReads.group P Q st').
    { intros st' O N. apply guarded_outside; [exact N | now rewrite O]. }
    assert (E : forall st', out st' = out st ++ [l] ->
                 (forall i count g, mode_of st' <> InGroup i count g) ->
                 P l -> guarded FilterReverseReads.group P Q st').
    { intros st' O N Pl. apply guarded_outside; [exact N|]. rewrite O.
      apply Forall_app. split; [exact FP | now constructor]. }
    destruct (is_empty l); [apply W; outside M|].
    destruct (is_header l) eqn:H; [apply E; [outside M .. | now left]|].
    destruct (read_count l) as [| |n]; [apply W; outside M | apply W; outside M|].
    destruct (n =? 1).
    + destruct (FilterReverseReads.forward_flag l) as [ds [[|]|]] eqn:FF;
        [|apply W; outside M ..].
      apply E; [outside M .. |]. apply forward_guard.
      unfold Q, forward. now rewrite FF.
    + apply reverse_collect_guarded; [exact FP | constructor].
  - now apply reverse_collect_guarded.
  - apply guarded_outside; [rewrite M; discriminate | exact FP].
Qed.

(** X19. The reverse-strand filter never writes an alignment of the
    reverse strand: whatever the input, every line of the output is a
    header line or has a number without the bit 16 as its FLAG. *)
Theorem no_reverse_line_is_written
    (file : string) (lines : list string) (o : string) :
  In o (out (FilterReverseReads.filter_file file lines)) ->
  is_header o = true \/ on_forward_strand o.
Proof.
  unfold FilterReverseReads.filter_file, FilterReverseReads.process.
  rewrite at_eof_out.
  destruct (fold_guarded FilterReverseReads.group P Q
              (FilterReverseReads.step file) (reverse_step_guarded file)
              lines initial) as [F _].
  { split; [constructor | exact I]. }
  rewrite Forall_forall in F. exact (F o).
Qed.

End ReverseGuard.

Section SelectGuard.
Variable ids : list string.
Hypothesis plain : forallb plain_name ids = true.

Let P (o : string) : Prop := is_header o = true \/ of_listed_transcript ids o.
Let Q (s : string) : Prop := selected ids s = true.

Lemma listed_plain (id : string) :
  SelectTranscripts.listed ids id = true -> plain_name id = true.
Proof.
  unfold SelectTranscripts.listed. intros L.
  apply existsb_exists in L as (x & I & E). apply String.eqb_eq in E as ->.
  rewrite forallb_forall in plain. now apply plain.
Qed.

Lemma selected_column (s : string) :
  Q s ->
  exists id, nth_error (columns s) 2 = Some id /\
             SelectTranscripts.listed ids id = true /\
             id <> EmptyString /\ is_NH id = false /\ is_HI id = false.
Proof.
  unfold Q, selected. rewrite third_column. intros L.
  assert (N : SelectTranscripts.listed ids EmptyString = false).
  { destruct (SelectTranscripts.listed ids EmptyString) eqn:E; [|reflexivity].
    apply listed_plain in E. discriminate E. }
  destruct (columns s) as [|a [|f [|id [|b rest]]]]; cbn [snd] in L;
    try congruence.
  exists id. split; [reflexivity|]. split; [exact L|].
  pose proof (listed_plain id L) as K. unfold plain_name in K.
  apply andb_true_iff in K as [K K3]. apply andb_true_iff in K as [K1 K2].
  apply negb_true_iff in K1, K2, K3. apply String.eqb_neq in K1. auto.
Qed.

Lemma selected_guard (l : string) : Q l -> P l.
Proof.
  intros S. right. destruct (selected_column l S) as (id & A & B & _).
  now exists id.
Qed.

Lemma rewritten_selected (size m primary i : Z) (s o : string) :
  Q s -> rewrite_line size (to_string m) primary i s = Some o -> P o.
Proof.
  intros S W. right.
  destruct (selected_column s S) as (id & A & B & C & D & E).
  exists id. split; [|exact B].
  apply (written_keeps_other size m primary i s o W 2%nat id); auto.
  now apply column_getline_part.
Qed.

Lemma select_collect_guarded (st : state SelectTranscripts.group_state)
    (l : string) (i count : Z) (g : SelectTranscripts.group_state) :
  Forall P (out st) -> Forall Q (SelectTranscripts.group g) ->
  guarded SelectTranscripts.group P Q
    (SelectTranscripts.collect_and_test ids st l i count g).
Proof.
  intros FP FQ. unfold SelectTranscripts.collect_and_test.
  destruct (SelectTranscripts.collect ids l g) as [ds [g'|]] eqn:C.
  - assert (FQ' : Forall Q (SelectTranscripts.group g')).
    { unfold SelectTranscripts.collect in C.
      destruct (SelectTranscripts.extract_transcript_id l) as [ds1 id] eqn:X.
      destruct (SelectTranscripts.listed ids id) eqn:L;
        [|now injection C as _ <-].
      destruct (SelectTranscripts.primary_flag l) as [ds2 [p|]];
        [|discriminate].
      injection C as _ <-. cbn [SelectTranscripts.group].
      apply Forall_app. split; [exact FQ|]. constructor; [|constructor].
      unfold Q, selected. now rewrite X. }
    destruct (i <? count); [now split|].
    unfold SelectTranscripts.finish_group.
    destruct (_ =? count).
    + apply guarded_outside; [discriminate|]. simpl.
      apply Forall_app. split; [exact FP|].
      apply (Forall_impl P selected_guard FQ').
    + apply after_rewrite_guarded; [|exact FP | exact FQ'].
      exact rewritten_selected.
  - apply guarded_outside; [discriminate | exact FP].
Qed.

Lemma select_step_guarded (file : string)
    (st : state SelectTranscripts.group_state) (l : string) :
  guarded SelectTranscripts.group P Q st ->
  guarded SelectTranscripts.group P Q (SelectTranscripts.step ids file st l).
Proof.
  intros [FP FQ]. unfold SelectTranscripts.step.
  destruct (mode_of st) as [|i count g|h] eqn:M.
  - assert (W : forall st', out st' = out st ->
                 (forall i count g, mode_of st' <> InGroup i count g) ->
                 guarded SelectTranscripts.group P Q st').
    { intros st' O N. apply guarded_outside; [exact N | now rewrite O]. }
    assert (E : forall st', out st' = out st ++ [l] ->
                 (forall i count g, mode_of st' <> InGroup i count g) ->
                 P l -> guarded SelectTranscripts.group P Q st').
    { intros st' O N Pl. apply guarded_outside; [exact N|]. rewrite O.
      apply Forall_app. split; [exact FP | now constructor]. }
    destruct (is_empty l); [apply W; outside M|].
    destruct (is_header l) eqn:H.
    { destruct (starts_with _ l); [|apply E; [outside M .. | now left]].
      destruct (SelectTranscripts.sequence_name l) as [name|];
        [|apply W; outside M].
      destruct (SelectTranscripts.listed ids name);
        [apply E; [outside M .. | now left] | apply W; outside M]. }
    destruct (read_count l) as [| |n]; [apply W; outside M | apply W; outside M|].
    destruct (n =? 1).
    + destruct (SelectTranscripts.extract_transcript_id l) as [ds id] eqn:X.
      destruct (SelectTranscripts.listed ids id) eqn:L; [|apply W; outside M].
      apply E; [outside M .. |]. apply selected_guard.
      unfold Q, selected. now rewrite X.
    + apply select_collect_guarded; [exact FP | constructor].
  - now apply select_collect_guarded.
  - apply guarded_outside; [rewrite M; discriminate | exact FP].
Qed.

Lemma select_output_guarded (file : string) (lines : list string) :
  Forall P (out (SelectTranscripts.filter_file ids file lines)).
Proof.
  unfold SelectTranscripts.filter_file, SelectTranscripts.process.
  rewrite at_eof_out.
  destruct (fold_guarded SelectTranscripts.group P Q
              (SelectTranscripts.step ids file) (select_step_guarded file)
              lines initial) as [F _]; [|exact F].
  split; [constructor | exact I].
Qed.

End SelectGuard.

(** X20. With an allow-list whose names are not empty and do not start
    like an NH or HI tag, the allow-list filter never writes an alignment
    of another transcript: whatever the input, every line of the output is
    a header line or has a transcript of the allow-list as its third
    column. *)
Theorem no_unlisted_line_is_written
    (ids : list string) (file : string) (lines : list string) (o : string) :
  forallb plain_name ids = true ->
  In o (out (SelectTranscripts.filter_file ids file lines)) ->
  is_header o = true \/ of_listed_transcript ids o.
Proof.
  intros plain Ho.
  pose proof (select_output_guarded ids plain file lines) as F.
  rewrite Forall_forall in F. exact (F o Ho).
Qed.

(** ** The further properties on sample inputs *)

(** The [@SQ] line of the sequence t2, which is not listed, is not written. *)
Lemma sq_header_by_columns_witness :
  mode_of (SelectTranscripts.step sample_ids "in.sam" initial sq_line) = Top /\
  out (SelectTranscripts.step sample_ids "in.sam" initial sq_line) = [].
Proof.
  exact (sq_header_by_columns sample_ids "in.sam" initial sq_line "@SQ"
           ["SN:t2"; "LN:1000"] eq_refl eq_refl eq_refl).
Defined.

(** The FLAG 256 of the first sample record has no bit 16, and a line of
    one column has no FLAG. *)
Lemma check_flag_by_columns_witness :
  check_flag sample_first 16 = ([], Some true) /\
  check_flag "r1" 16 = ([NotEnoughColumns "r1"], Some false).
Proof.
  split.
  - destruct (check_flag_by_columns sample_first 16) as (_ & B & _).
    exact (B "r1" "256" "t1" _ eq_refl).
  - destruct (check_flag_by_columns "r1" 16) as (A & _ & _).
    apply A. simpl. lia.
Defined.


(** The three single lines in the three tools. *)
Lemma reverse_filter_on_single_lines_witness :
  stopped (FilterReverseReads.filter_file "in.sam" single_lines) = None /\
  out (FilterReverseReads.filter_file "in.sam" single_lines)
  = [sq_line; unique_line].
Proof.
  apply (reverse_filter_on_single_lines "in.sam" single_lines eq_refl).
  each_line ltac:(intros H U; vm_compute in H, U |- *;
                  first [discriminate H | discriminate U | discriminate]).
Defined.

Lemma select_filter_on_single_lines_witness :
  stopped (SelectTranscripts.filter_file sample_ids "in.sam" single_lines)
  = None /\
  out (SelectTranscripts.filter_file sample_ids "in.sam" single_lines)
  = [sam "r5" "16" "t1" "1" "1"].
Proof.
  exact (select_filter_on_single_lines sample_ids "in.sam" single_lines
           eq_refl).
Defined.

Lemma ambiguous_filter_on_single_lines_witness :
  stopped (FilterAmbiguousGenes.filter_file [] "genes.gtf" "in.sam"
             single_lines) = None /\
  out (FilterAmbiguousGenes.filter_file [] "genes.gtf" "in.sam" single_lines)
  = single_lines.
Proof.
  exact (ambiguous_filter_on_single_lines [] "genes.gtf" "in.sam" single_lines
           eq_refl).
Defined.

(** The group of two reverse alignments of unlisted transcripts leaves
    nothing in the output of either filter. *)
Lemma emptied_group_is_skipped_witness :
  (mode_of (FilterReverseReads.process "in.sam" initial
              (reverse_first :: reverse_conts)) = Top /\
   out (FilterReverseReads.process "in.sam" initial
          (reverse_first :: reverse_conts)) = []) /\
  (mode_of (SelectTranscripts.process sample_ids "in.sam" initial
              (reverse_first :: reverse_conts)) = Top /\
   out (SelectTranscripts.process sample_ids "in.sam" initial
          (reverse_first :: reverse_conts)) = []).
Proof.
  destruct (emptied_group_is_skipped "in.sam" sample_ids reverse_first
              reverse_conts 2 eq_refl eq_refl eq_refl ltac:(lia) eq_refl)
    as [R S].
  split.
  - apply (R initial eq_refl).
    each_line ltac:(vm_compute; reflexivity).
  - apply (S initial eq_refl). reflexivity.
Defined.

(** A run on the sample files leaves the table of the annotations as it
    was. *)
Lemma unnamed_files_are_untouched_witness :
  run_files (FilterReverseReads.main 0 sample_files
               ["filter_reverse_reads"; "in.sam"; "out.sam"]) "genes.gtf"
  = sample_files "genes.gtf".
Proof.
  apply (unnamed_files_are_untouched 0 sample_files
           ["filter_reverse_reads"; "in.sam"; "out.sam"] "genes.gtf").
  simpl. intros [H | [H | [H | H]]]; [discriminate H .. | exact H].
Defined.

(** In the sample table the second line that names t1 decides its gene, and
    t9 is not in the table. *)
Lemma last_binding_decides_witness :
  FilterAmbiguousGenes.load_annotations (sample_files "genes.gtf") []
  = inr [("t2", "G1"); ("t1", "G2"); ("t1", "G1")] /\
  FilterAmbiguousGenes.map_find "t1" [("t2", "G1"); ("t1", "G2"); ("t1", "G1")]
  = Some "G2" /\
  FilterAmbiguousGenes.map_find "t9" [("t2", "G1"); ("t1", "G2"); ("t1", "G1")]
  = None.
Proof.
  split; [reflexivity|]. split.
  - destruct (last_binding_decides (sample_files "genes.gtf")
                [("t2", "G1"); ("t1", "G2"); ("t1", "G1")] "t1" eq_refl)
      as [A _].
    apply (A [gtf "G1" "t1"] (gtf "G2" "t1") "G2" [gtf "G1" "t2"]
             eq_refl eq_refl).
    intros l' g' [<- | []]. vm_compute. discriminate.
  - destruct (last_binding_decides (sample_files "genes.gtf")
                [("t2", "G1"); ("t1", "G2"); ("t1", "G1")] "t9" eq_refl)
      as [_ B].
    apply B. intros l g [<- | [<- | [<- | []]]]; vm_compute; discriminate.
Defined.

(** The table with an open transcript_id tag: the code 2, and the output
    file is not created. *)
Lemma bad_annotations_stop_witness :
  run_exit (FilterAmbiguousGenes.main 0 sample_files
              ["filter_ambiguous_genes"; "bad.gtf"; "in.sam"; "out.sam"])
  = Returned 2 /\
  run_files (FilterAmbiguousGenes.main 0 sample_files
               ["filter_ambiguous_genes"; "bad.gtf"; "in.sam"; "out.sam"])
  = sample_files.
Proof.
  destruct (bad_annotations_stop 0 sample_files
              ["filter_ambiguous_genes"; "bad.gtf"; "in.sam"; "out.sam"]
              gtf_open (IncompleteTranscriptId gtf_open))
    as (A & B & _).
  - vm_compute. discriminate.
  - reflexivity.
  - simpl. right. left. reflexivity.
  - reflexivity.
  - split; [exact A | exact B].
Defined.

(** The first line written for the two survivors of the sample group
    declares two alignments. *)
Lemma rewritten_lines_declare_size_witness :
  read_count
    (nth 0 (snd (fst (rewrite_group sample_first
                        [sample_first; sam "r1" "256" "t3" "3" "3"] SIZE_MAX)))
       EmptyString)
  = Declared 2.
Proof.
  apply (rewritten_lines_declare_size sample_first
           [sample_first; sam "r1" "256" "t3" "3" "3"] SIZE_MAX
           (fst (fst (rewrite_group sample_first
                        [sample_first; sam "r1" "256" "t3" "3" "3"] SIZE_MAX)))
           (snd (fst (rewrite_group sample_first
                        [sample_first; sam "r1" "256" "t3" "3" "3"] SIZE_MAX)))
           (snd (rewrite_group sample_first
                   [sample_first; sam "r1" "256" "t3" "3" "3"] SIZE_MAX))
           eq_refl ltac:(vm_compute; discriminate)
           0%nat _ sample_first 11%nat "NH:i:3"
           eq_refl eq_refl ltac:(lia) eq_refl eq_refl).
Defined.

(** The CIGAR of the first sample record. *)
Lemma cigar_by_columns_witness :
  cigar_of sample_first = inr (String TAB "30M").
Proof.
  apply (cigar_by_columns sample_first). vm_compute. discriminate.
Defined.

(** The gene-ambiguity filter, run from the input of the sample files to
    that same file, empties it. *)
Lemma same_file_is_emptied_witness :
  run_files (FilterAmbiguousGenes.main 0 sample_files
               ["filter_ambiguous_genes"; "genes.gtf"; "in.sam"; "in.sam"])
    "in.sam" = [] /\
  sample_files "in.sam" = sample_first :: sample_conts.
Proof.
  split; [|reflexivity].
  apply (proj2 (proj2 (same_file_is_emptied 0 sample_files
                         "filter_ambiguous_genes" "genes.gtf" "in.sam"))
           [("t2", "G1"); ("t1", "G2"); ("t1", "G1")] eq_refl).
Defined.

(** The first line written for the sample group by either filter. *)
Lemma no_reverse_line_is_written_witness :
  let o := nth 0 (out (FilterReverseReads.filter_file "in.sam"
                         (sample_first :: sample_conts))) EmptyString in
  is_header o = true \/ on_forward_strand o.
Proof.
  apply (no_reverse_line_is_written "in.sam" (sample_first :: sample_conts)).
  vm_compute. left. reflexivity.
Defined.

Lemma no_unlisted_line_is_written_witness :
  let o := nth 0 (out (SelectTranscripts.filter_file sample_ids "in.sam"
                         (sample_first :: sample_conts))) EmptyString in
  is_header o = true \/ of_listed_transcript sample_ids o.
Proof.
  apply (no_unlisted_line_is_written sample_ids "in.sam"
           (sample_first :: sample_conts)).
  - reflexivity.
  - vm_compute. left. reflexivity.
Defined.
